(** * lumos, package night: the night-light registry blobs

    A shallow embedding of the night-light controller of lumos (the Go
    package [night]): the state blob read by [Enabled] and rewritten by
    [Toggle], the settings blob read by [GetStrength] and rewritten by
    [SetStrength], and the timestamp loop both writers run.

    Go values are modelled as follows.
    - [byte] is [Byte.byte]; [x++] on a byte wraps modulo 256.
    - A [[]byte] is a {!slice}: its elements and the unused tail of its
      backing array, so that [len] and [cap] differ as they do in Go and
      a slice expression is checked against [cap].
    - [float64] is IEEE-754 binary64 as specified by [SpecFloat], every
      operation rounded on its own, to nearest even; what a float64
      stands for is a real number, [F2R].
    - A Go function returning [(T, error)] returns an {!outcome}: a
      value, an error, or a run-time panic.
    - The registry is an explicit state that every operation reads and
      the writers return updated.
    - A handler of [cmd/lumos] returns the registry it leaves behind
      and a report of how it ended.
    - The Windows calls of the packages [gamma] and [hdr] are answered
      by a record of the environment; a function of these packages
      returns what Windows accepted, in order, and its error. *)

From Stdlib Require Import ZArith NArith List Bool Lia Strings.Byte.
From Stdlib Require Import Floats.SpecFloat.
From Stdlib Require Import Reals Lra.
From stdpp Require Import base option list strings.

Import ListNotations.

(** ** Bytes *)

Abbreviation byte := Byte.byte.

#[global] Instance byte_eq_decision : EqDecision byte := Byte.byte_eq_dec.

Definition byte_val (b : byte) : Z := Z.of_N (Byte.to_N b).

(** Conversion of an integer to [uint8]: the low eight bits. *)
Definition byte_of_Z (z : Z) : byte :=
  match Byte.of_N (Z.to_N (z mod 256)) with
  | Some b => b
  | None => x00
  end.

(** [b++] on a byte. *)
Definition byte_incr (b : byte) : byte := byte_of_Z (byte_val b + 1).

(** ** Results of Go calls *)

Inductive error : Set :=
| ErrNotSupported            (* "night light not supported" *)
| ErrInvalidStateLength      (* "invalid state data length" *)
| ErrInvalidSettingsLength   (* "invalid settings data length" *)
| ErrRegistryRead            (* error of registry.OpenKey / GetBinaryValue *)
| ErrRegistryWrite.          (* error of registry.OpenKey / SetBinaryValue *)

Inductive outcome (A : Type) : Type :=
| Ret (a : A)
| Fail (e : error)
| Panic.

Arguments Ret {A} a.
Arguments Fail {A} e.
Arguments Panic {A}.

#[global] Instance outcome_ret : MRet outcome := @Ret.

#[global] Instance outcome_bind : MBind outcome :=
  λ A B f m, match m with
             | Ret a => f a
             | Fail e => Fail e
             | Panic => Panic
             end.

(** ** Go slices of bytes *)

Record slice : Set := Slice {
  elems : list byte;   (* the [len] elements *)
  spare : list byte    (* the backing array between [len] and [cap] *)
}.

Definition len (s : slice) : nat := length (elems s).
Definition cap (s : slice) : nat := length (elems s) + length (spare s).
Definition backing (s : slice) : list byte := elems s ++ spare s.

(** [make([]byte, n)] *)
Definition make (n : nat) : slice := Slice (replicate n x00) [].

(** [s[i]] *)
Definition index (s : slice) (i : nat) : outcome byte :=
  match elems s !! i with
  | Some b => Ret b
  | None => Panic
  end.

(** [s[i] = v] *)
Definition assign (s : slice) (i : nat) (v : byte) : outcome slice :=
  if i <? len s then Ret (Slice (<[i:=v]> (elems s)) (spare s)) else Panic.

(** [s[lo:hi]]: Go checks [lo <= hi <= cap(s)]. *)
Definition reslice (s : slice) (lo hi : nat) : outcome slice :=
  if (lo <=? hi) && (hi <=? cap s)
  then Ret (Slice (take (hi - lo) (drop lo (backing s))) (drop hi (backing s)))
  else Panic.

(** [copy(dst[lo:hi], src)]: the window shares [dst]'s backing array, and
    [copy] moves [min(hi-lo, len(src))] elements. *)
Definition copy_to (dst : slice) (lo hi : nat) (src : slice) : outcome slice :=
  if (lo <=? hi) && (hi <=? cap dst)
  then
    let n := Nat.min (hi - lo) (len src) in
    let arr := take lo (backing dst) ++ take n (elems src) ++ drop (lo + n) (backing dst) in
    Ret (Slice (take (len dst) arr) (drop (len dst) arr))
  else Panic.

(** ** float64 *)

Definition float64 : Set := spec_float.

Definition prec : Z := 53.
Definition emax : Z := 1024.

(** Conversion of an integer (constant or value) to float64. *)
Definition f64_of_Z (z : Z) : float64 := binary_normalize prec emax z 0 false.

Definition f64_add : float64 → float64 → float64 := SFadd prec emax.
Definition f64_sub : float64 → float64 → float64 := SFsub prec emax.
Definition f64_mul : float64 → float64 → float64 := SFmul prec emax.
Definition f64_div : float64 → float64 → float64 := SFdiv prec emax.
Definition f64_lt : float64 → float64 → bool := SFltb.
Definition f64_le : float64 → float64 → bool := SFleb.

(** The integer part of a finite float64 (truncation toward zero). *)
Definition f64_trunc (x : float64) : option Z :=
  match x with
  | S754_zero _ => Some 0%Z
  | S754_finite s m e => Some (cond_Zopp s (Z.shiftl (Z.pos m) e))
  | S754_infinity _ | S754_nan => None
  end.

(** [byte(x)] for a float64 [x].  Go truncates toward zero.  For a value
    that does not fit a byte, Go leaves the result to the implementation;
    here it is the low eight bits of the truncated value, and 0 for a NaN
    or an infinity. *)
Definition byte_of_f64 (x : float64) : byte :=
  match f64_trunc x with
  | Some z => byte_of_Z z
  | None => x00
  end.

(** [float64(b)] for a byte [b]. *)
Definition f64_of_byte (b : byte) : float64 := f64_of_Z (byte_val b).

(** ** The registry *)

(** The two values the package reads and writes, [Data] under the state
    key and [Data] under the settings key.  [None] stands for a key or a
    value that cannot be read; the [_writable] flags say whether opening
    the key for writing and setting the value succeeds. *)
Record Registry : Set := {
  stateValue : option (list byte);
  settingsValue : option (list byte);
  stateWritable : bool;
  settingsWritable : bool
}.

Definition MIN_KELVIN : Z := 1200.
Definition MAX_KELVIN : Z := 6500.

(** ** The controller *)

(** The loop that both [Toggle] and [SetStrength] end with:
<<
    for i := 10; i < 15; i++ {
        if data[i] != 0xff { data[i]++; break }
    }
>>
    [bumpFrom n i] runs the [n] remaining iterations from index [i]. *)
Fixpoint bumpFrom (n i : nat) (data : slice) : outcome slice :=
  match n with
  | O => Ret data
  | S n' =>
      b ← index data i;
      if decide (b ≠ xff) then assign data i (byte_incr b)
      else bumpFrom n' (S i) data
  end.

Definition incrementTimestamp (data : slice) : outcome slice := bumpFrom 5 10 data.

Definition bytesToKelvin (loTemp hiTemp : byte) : float64 :=
  f64_add (f64_mul (f64_of_byte hiTemp) (f64_of_Z 64))
          (f64_div (f64_sub (f64_of_byte loTemp) (f64_of_Z 128)) (f64_of_Z 2)).

Definition kelvinToPercentage (kelvin : float64) : float64 :=
  f64_sub (f64_of_Z 100)
          (f64_mul (f64_div (f64_sub kelvin (f64_of_Z MIN_KELVIN))
                            (f64_of_Z (MAX_KELVIN - MIN_KELVIN)))
                   (f64_of_Z 100)).

Definition percentageToKelvin (percentage : float64) : float64 :=
  f64_sub (f64_of_Z MAX_KELVIN)
          (f64_mul (f64_div percentage (f64_of_Z 100))
                   (f64_of_Z (MAX_KELVIN - MIN_KELVIN))).

(** The clamp at the head of [SetStrength]. *)
Definition clampPercentage (percentage : float64) : float64 :=
  if f64_lt percentage (f64_of_Z 0) then f64_of_Z 0
  else if f64_lt (f64_of_Z 100) percentage then f64_of_Z 100
  else percentage.

Section Controller.

(** What [GetBinaryValue] leaves behind the value it returns: the part
    of its buffer between [len] and [cap].  The registry binding is not
    part of the package, so every statement below holds whatever it
    is. *)
Variable slack : list byte → list byte.

Definition readValue (v : option (list byte)) : outcome slice :=
  match v with
  | Some d => Ret (Slice d (slack d))
  | None => Fail ErrRegistryRead
  end.

Definition getStateData (r : Registry) : outcome slice := readValue (stateValue r).

Definition getSettingsData (r : Registry) : outcome slice := readValue (settingsValue r).

Definition setStateData (r : Registry) (data : slice) : outcome Registry :=
  if stateWritable r
  then Ret {| stateValue := Some (elems data);
              settingsValue := settingsValue r;
              stateWritable := stateWritable r;
              settingsWritable := settingsWritable r |}
  else Fail ErrRegistryWrite.

Definition setSettingsData (r : Registry) (data : slice) : outcome Registry :=
  if settingsWritable r
  then Ret {| stateValue := stateValue r;
              settingsValue := Some (elems data);
              stateWritable := stateWritable r;
              settingsWritable := settingsWritable r |}
  else Fail ErrRegistryWrite.

Definition Supported (r : Registry) : bool :=
  match getStateData r with
  | Ret _ => true
  | _ => false
  end.

Definition Enabled (r : Registry) : outcome bool :=
  if negb (Supported r) then Fail ErrNotSupported
  else
    data ← getStateData r;
    if len data <? 19 then Fail ErrInvalidStateLength
    else
      flag ← index data 18;
      Ret (bool_decide (flag = x15)).

(** The body of [Toggle] between reading and writing: the new array. *)
Definition toggled (enabled : bool) (data : slice) : outcome slice :=
  newData ←
    (if enabled then
       let newData := make 41 in
       src ← reslice data 0 22;
       newData ← copy_to newData 0 22 src;
       src ← reslice data 25 43;
       newData ← copy_to newData 23 (len newData) src;
       assign newData 18 x13
     else
       let newData := make 43 in
       src ← reslice data 0 22;
       newData ← copy_to newData 0 22 src;
       src ← reslice data 23 41;
       newData ← copy_to newData 25 (len newData) src;
       newData ← assign newData 18 x15;
       newData ← assign newData 23 x10;
       assign newData 24 x00);
  incrementTimestamp newData.

Definition Toggle (r : Registry) : outcome Registry :=
  enabled ← Enabled r;
  data ← getStateData r;
  newData ← toggled enabled data;
  setStateData r newData.

Definition Enable (r : Registry) : outcome Registry :=
  enabled ← Enabled r;
  if negb enabled then Toggle r else Ret r.

Definition Disable (r : Registry) : outcome Registry :=
  enabled ← Enabled r;
  if (enabled : bool) then Toggle r else Ret r.

Definition GetStrength (r : Registry) : outcome float64 :=
  if negb (Supported r) then Fail ErrNotSupported
  else
    data ← getSettingsData r;
    if len data <? 0x25 then Fail ErrInvalidSettingsLength
    else
      lo ← index data 0x23;
      hi ← index data 0x24;
      Ret (kelvinToPercentage (bytesToKelvin lo hi)).

Definition SetStrength (r : Registry) (percentage : float64) : outcome Registry :=
  if negb (Supported r) then Fail ErrNotSupported
  else
    let percentage := clampPercentage percentage in
    let kelvin := percentageToKelvin percentage in
    data ← getSettingsData r;
    if len data <? 0x25 then Fail ErrInvalidSettingsLength
    else
      let tempHi := byte_of_f64 (f64_div kelvin (f64_of_Z 64)) in
      let tempLo := byte_of_f64
                      (f64_add (f64_mul (f64_sub kelvin (f64_mul (f64_of_byte tempHi) (f64_of_Z 64)))
                                        (f64_of_Z 2))
                               (f64_of_Z 128)) in
      data ← assign data 0x23 tempLo;
      data ← assign data 0x24 tempHi;
      data ← incrementTimestamp data;
      setSettingsData r data.

End Controller.

(** ** Specification vocabulary *)

(** The registry [r] with its state value replaced by [b]. *)
Definition withState (r : Registry) (b : list byte) : Registry :=
  {| stateValue := Some b;
     settingsValue := settingsValue r;
     stateWritable := stateWritable r;
     settingsWritable := settingsWritable r |}.

(** The registry [r] with its settings value replaced by [d]. *)
Definition withSettings (r : Registry) (d : list byte) : Registry :=
  {| stateValue := stateValue r;
     settingsValue := Some d;
     stateWritable := stateWritable r;
     settingsWritable := settingsWritable r |}.

(** [bumped lo hi old new]: [new] is [old] after the timestamp loop ran
    over the indices [lo..hi-1]. *)
Inductive bumped (lo hi : nat) (old new : list byte) : Prop :=
| bumped_saturated :
    (∀ j, lo ≤ j < hi → old !! j = Some xff) →
    new = old →
    bumped lo hi old new
| bumped_at (k : nat) (b : byte) :
    lo ≤ k < hi →
    old !! k = Some b →
    b ≠ xff →
    (∀ j, lo ≤ j < k → old !! j = Some xff) →
    new = <[k := byte_incr b]> old →
    bumped lo hi old new.

(** The value of byte [i] of a blob, 0 past its end. *)
Definition byteAt (d : list byte) (i : nat) : Z := byte_val (default x00 (d !! i)).

(** The five timestamp bytes read as a little-endian number. *)
Definition timestampValue (d : list byte) : Z :=
  (byteAt d 10 + 256 * (byteAt d 11 + 256 * (byteAt d 12 + 256 * (byteAt d 13 + 256 * byteAt d 14))))%Z.

(** The timestamp of [new] is the timestamp of [old] after one update:
    the leftmost byte of offsets 10..14 that is not 0xFF is one greater
    and the other four are the same, or all five are 0xFF in both. *)
Definition timestampAdvanced (old new : list byte) : Prop :=
  (∀ j, 10 ≤ j < 15 → old !! j = Some xff ∧ new !! j = Some xff)
  ∨ (∃ k b, 10 ≤ k < 15
            ∧ old !! k = Some b ∧ b ≠ xff
            ∧ (∀ j, 10 ≤ j < k → old !! j = Some xff)
            ∧ new !! k = Some (byte_incr b)
            ∧ ∀ j, 10 ≤ j < 15 → j ≠ k → new !! j = old !! j).

(** ** Sample values *)

(** A value returned in a buffer of its own size: [cap = len]. *)
Definition noSlack : list byte → list byte := λ _, [].

(** A value returned in a zeroed buffer of 64 bytes, or of its own size
    when it is longer. *)
Definition slack64 : list byte → list byte := λ v, replicate (64 - length v) x00.

Definition registryOf (state settings : list byte) : Registry :=
  {| stateValue := Some state;
     settingsValue := Some settings;
     stateWritable := true;
     settingsWritable := true |}.

(** A disabled state value: 41 bytes, flag 0x13, timestamp 5,0,0,0,0. *)
Definition sampleDisabled : list byte :=
  [x43; x42; x01; x00; x0a; x02; x01; x00; x2a; x06;
   x05; x00; x00; x00; x00;
   x2a; x2b; x0e; x13;
   x43; x42; x01;
   x00;
   xd0; x0a; x02; xc6; x14; xb8; x8e; x9d; xd0; xb4; xc0; xae; xe9; x01; x00; x00; x00; x00].

(** An enabled state value: 43 bytes, flag 0x15, markers 0x10,0x00. *)
Definition sampleEnabled : list byte :=
  [x43; x42; x01; x00; x0a; x02; x01; x00; x2a; x06;
   x05; x00; x00; x00; x00;
   x2a; x2b; x0e; x15;
   x43; x42; x01;
   x00;
   x10; x00;
   xd0; x0a; x02; xc6; x14; xb8; x8e; x9d; xd0; xb4; xc0; xae; xe9; x01; x00; x00; x00; x00].

(** An enabled state value whose byte 22 is 7. *)
Definition sampleEnabled22 : list byte := <[22 := x07]> sampleEnabled.

(** A state value whose timestamp bytes are all 0xFF. *)
Definition sampleSaturated : list byte :=
  <[10 := xff]> (<[11 := xff]> (<[12 := xff]> (<[13 := xff]> (<[14 := xff]> sampleDisabled)))).

(** A settings value: 37 bytes, temperature bytes 128 and 18. *)
Definition sampleSettings : list byte :=
  replicate 35 x00 ++ [x80; x12].

(** A settings value whose temperature bytes encode 1200 kelvin. *)
Definition sampleSettingsWarm : list byte := replicate 35 x00 ++ [xe0; x12].

(** ** Values of float64 numbers *)

(** [2^e] as a real number. *)
Definition bpow (e : Z) : R := powerRZ 2 e.

(** The sign bit of a float64 as a factor. *)
Definition sign_of (s : bool) : R := if s then (-1)%R else 1%R.

(** The real number a float64 stands for; 0 for NaN and the infinities. *)
Definition F2R (x : float64) : R :=
  match x with
  | S754_finite s m e => (sign_of s * (IZR (Z.pos m) * bpow e))%R
  | _ => 0%R
  end.

(** A float64 that is a number: a zero or a finite value. *)
Definition f64_finite (x : float64) : bool :=
  match x with
  | S754_zero _ | S754_finite _ _ _ => true
  | _ => false
  end.

(** A float64 whose mantissa has all 53 bits. *)
Definition f64_normal (x : float64) : bool :=
  match x with
  | S754_finite _ m _ => Pos.eqb (digits2_pos m) 53
  | _ => false
  end.

(** The error bound of one operation on values up to [2^14]. *)
Definition delta : R := (3 * bpow (-38))%R.

(** The temperature that the two bytes of the settings value encode:
    [hiTemp * 64 + (loTemp - 128) / 2], in exact arithmetic. *)
Definition encodedKelvin (loTemp hiTemp : byte) : R :=
  (IZR (byte_val hiTemp) * 64 + (IZR (byte_val loTemp) - 128) / 2)%R.

(** ** State values as Windows writes them *)

(** Night light off: 41 bytes, flag 0x13. *)
Definition disabledValue (b : list byte) : Prop := length b = 41 ∧ b !! 18 = Some x13.

(** Night light on: 43 bytes, flag 0x15. *)
Definition enabledValue (b : list byte) : Prop := length b = 43 ∧ b !! 18 = Some x15.

(** ** Runs of the timestamp loop *)

(** [n] runs of the loop, one after the other. *)
Fixpoint incrementTimestamps (n : nat) (data : slice) : outcome slice :=
  match n with
  | O => Ret data
  | S n' => data ← incrementTimestamp data; incrementTimestamps n' data
  end.

(** How far the five timestamp bytes are from 0xFF, in total. *)
Definition timestampRoom (d : list byte) : Z :=
  ((255 - byteAt d 10) + (255 - byteAt d 11) + (255 - byteAt d 12)
   + (255 - byteAt d 13) + (255 - byteAt d 14))%Z.

(** ** The temperature bytes *)

(** The two bytes that [SetStrength] computes from the temperature:
<<
    tempHi := byte(kelvin / 64)
    tempLo := byte(((kelvin - float64(tempHi)*64) * 2) + 128)
>> *)
Definition tempHi (kelvin : float64) : byte := byte_of_f64 (f64_div kelvin (f64_of_Z 64)).

Definition tempLo (kelvin : float64) : byte :=
  byte_of_f64
    (f64_add (f64_mul (f64_sub kelvin (f64_mul (f64_of_byte (tempHi kelvin)) (f64_of_Z 64)))
                      (f64_of_Z 2))
             (f64_of_Z 128)).

(** ** The value the timestamp update is applied to *)

(** [k] is the leftmost of the offsets 10..14 whose byte is not 0xFF,
    and [c] is that byte. *)
Definition firstFree (d : list byte) (k : nat) (c : byte) : Prop :=
  10 ≤ k < 15 ∧ d !! k = Some c ∧ c ≠ xff ∧ ∀ j, 10 ≤ j < k → d !! j = Some xff.

(** The five timestamp bytes are 0xFF. *)
Definition saturated (d : list byte) : Prop := ∀ j, 10 ≤ j < 15 → d !! j = Some xff.

(** What [Toggle] has built from a disabled value of 41 bytes when it
    comes to the timestamp update. *)
Definition enabledFrom (b : list byte) : list byte :=
  <[18 := x15]> (take 22 b ++ [x00; x10; x00] ++ drop 23 b).

(** What [Toggle] has built from an enabled value of 43 bytes when it
    comes to the timestamp update. *)
Definition disabledFrom (b : list byte) : list byte :=
  <[18 := x13]> (take 22 b ++ [x00] ++ drop 25 b).

(** What [SetStrength] has made of the settings value when it comes to
    the timestamp update: the two temperature bytes are stored. *)
Definition withTemperature (d : list byte) (percentage : float64) : list byte :=
  <[0x24 := tempHi (percentageToKelvin (clampPercentage percentage))]>
    (<[0x23 := tempLo (percentageToKelvin (clampPercentage percentage))]> d).

(** ** Numbers that a float64 holds *)

(** A real number that a float64 can hold: [M * 2^E] with [|M| < 2^53]. *)
Definition representable (x : R) : Prop :=
  ∃ M E : Z, (Z.abs M < 2 ^ 53)%Z ∧ (-1074 ≤ E ≤ 971)%Z ∧ x = (IZR M * bpow E)%R.

(** A multiple of [2^E]. *)
Definition onGrid (E : Z) (x : R) : Prop := ∃ N : Z, x = (IZR N * bpow E)%R.

(** A float64 whose mantissa fits 53 bits. *)
Definition f64_bounded (x : float64) : bool :=
  match x with
  | S754_finite _ m _ => (Z.pos m <? 2 ^ 53)%Z
  | _ => true
  end.

(** ** The command line *)

(** How a handler of [cmd/lumos] ends. *)
Inductive report : Set :=
| Printed (line : string)          (* fmt.Println(line), then return nil *)
| PrintedStrength (val : float64)  (* fmt.Printf("Night light strength set to %v%%\n", val) *)
| Returned (e : error)             (* return err, an error of package night *)
| InvalidState (state : string)    (* return fmt.Errorf("invalid night light state: %s ...") *)
| Crashed.                         (* a run-time panic *)

(** One call of the package inside a handler.  A call that fails or
    panics has not written to the registry: every operation writes once,
    as its last step. *)
Definition call (op : Registry → outcome Registry) (r : Registry)
    (next : Registry → Registry * report) : Registry * report :=
  match op r with
  | Ret r' => next r'
  | Fail e => (r, Returned e)
  | Panic => (r, Crashed)
  end.

Section CommandLine.

Variable slack : list byte → list byte.

(** [strconv.ParseFloat(state, 64)]; [None] when it returns an error. *)
Variable ParseFloat : string → option float64.

Definition handleNightLight (state : string) (r : Registry) : Registry * report :=
  if String.eqb state "on" then
    call (Enable slack) r (λ r, (r, Printed "Night light enabled"))
  else if String.eqb state "off" then
    call (Disable slack) r (λ r, (r, Printed "Night light disabled"))
  else if String.eqb state "toggle" then
    call (Toggle slack) r (λ r, (r, Printed "Night light toggled"))
  else
    match ParseFloat state with
    | None => (r, InvalidState state)
    | Some val =>
        call (λ r, SetStrength slack r val) r (λ r,
          match Enabled slack r with
          | Ret enabled =>
              let turnOn r := call (Enable slack) r (λ r, (r, PrintedStrength val)) in
              if (enabled : bool) then call (Disable slack) r turnOn else turnOn r
          | Fail e => (r, Returned e)
          | Panic => (r, Crashed)
          end)
    end.

(** The handler of the second [main.go]: the three words only. *)
Definition handleLumos (state : string) (r : Registry) : Registry * report :=
  if String.eqb state "on" then
    call (Enable slack) r (λ r, (r, Printed "Lumos enabled"))
  else if String.eqb state "off" then
    call (Disable slack) r (λ r, (r, Printed "Lumos disabled"))
  else if String.eqb state "toggle" then
    call (Toggle slack) r (λ r, (r, Printed "Lumos toggled"))
  else (r, InvalidState state).

End CommandLine.

Definition isWord (state : string) : bool :=
  String.eqb state "on" || String.eqb state "off" || String.eqb state "toggle".

(** A parser for the samples: the string 50 is the number 50. *)
Definition parseSample (state : string) : option float64 :=
  if String.eqb state "50" then Some (f64_of_Z 50) else None.

(** ** Package gamma *)

(** [GammaRamp]: three arrays of 256 [uint16]. *)
Record GammaRamp : Set := {
  Red : list Z;
  Green : list Z;
  Blue : list Z
}.

(** The constant [0.5]. *)
Definition f64_half : float64 := S754_finite false 4503599627370496 (-53).

(** The constant [0.2]: the float64 nearest to one fifth. *)
Definition f64_fifth : float64 := S754_finite false 7205759403792794 (-55).

(** [uint16(x)] for a float64 [x]: Go truncates toward zero; for a value
    that does not fit, the low sixteen bits here, and 0 for a NaN or an
    infinity. *)
Definition uint16_of_f64 (x : float64) : Z :=
  match f64_trunc x with
  | Some z => (z mod 65536)%Z
  | None => 0%Z
  end.

Definition brightnessFactor (brightness : Z) : float64 :=
  f64_add f64_half (f64_mul (f64_div (f64_of_Z brightness) (f64_of_Z 100)) f64_half).

Definition contrastFactor (brightness : Z) : float64 :=
  f64_div (f64_sub (f64_of_Z 120) (f64_mul f64_fifth (f64_of_Z brightness))) (f64_of_Z 100).

(** The body of the loop of [SetGamma] for the index [i]. *)
Definition rampValue (brightnessFactor contrastFactor : float64) (i : Z) : float64 :=
  let x := f64_div (f64_of_Z i) (f64_of_Z 255) in
  let x := f64_add (f64_mul (f64_sub x f64_half) contrastFactor) f64_half in
  let x := if f64_lt x (f64_of_Z 0) then f64_of_Z 0 else x in
  let x := if f64_lt (f64_of_Z 1) x then f64_of_Z 1 else x in
  f64_mul (f64_mul x (f64_of_Z 65535)) brightnessFactor.

(** The ramp that [SetGamma] builds: every index gets the same value in
    the three arrays. *)
Definition makeRamp (brightness : Z) : GammaRamp :=
  let brightnessFactor := brightnessFactor brightness in
  let contrastFactor := contrastFactor brightness in
  let vals := map (λ i, uint16_of_f64 (rampValue brightnessFactor contrastFactor (Z.of_nat i)))
                  (seq 0 256) in
  {| Red := vals; Green := vals; Blue := vals |}.

(** The entry of the ramp in exact arithmetic. *)
Definition idealRamp (brightness i : Z) : R :=
  (Rmin 1 (Rmax 0 ((IZR i / 255 - 1 / 2) * ((120 - IZR brightness / 5) / 100) + 1 / 2))
   * 65535 * (1 / 2 + IZR brightness / 200))%R.

(** What Windows answers to the calls of the package: the devices that
    [EnumDisplayDevices] reports before it returns 0, each with its
    [StateFlags] and [DeviceName]; the handle that [CreateDC] returns for
    a device name, 0 when it fails; the handle that [GetDC(0)] returns;
    whether [SetDeviceGammaRamp] accepts a ramp on a handle.  A call
    gets the same answer every time it is made. *)
Record Desktop : Type := {
  devices : list (Z * string);
  CreateDC : string → Z;
  GetDC : Z;
  SetDeviceGammaRamp : Z → GammaRamp → bool
}.

Inductive gammaError : Set :=
| ErrBrightness          (* "brightness must be between 0 and 100" *)
| ErrSetRamp (hdc : Z)   (* "failed to set gamma ramp: ..." on this handle *)
| ErrNoDisplay           (* "failed to set gamma on any display" *)
| ErrGammaPercentage.    (* "gamma percentage must be between 0 and 100, got ..." *)

(** [syscall.UTF16PtrFromString] fails on a string with a NUL. *)
Fixpoint hasNul (s : string) : bool :=
  match s with
  | EmptyString => false
  | String c s' => Ascii.eqb c Ascii.zero || hasNul s'
  end.

Definition getActiveDisplayDevices (d : Desktop) : list string :=
  map snd (filter (λ dd, Z.land (fst dd) 1 ≠ 0%Z) (devices d)).

Definition setGammaWithHDC (d : Desktop) (hdc : Z) (ramp : GammaRamp) : option gammaError :=
  if SetDeviceGammaRamp d hdc ramp then None else Some (ErrSetRamp hdc).

(** The loop over the displays: the last error, the number of displays
    that took the ramp, and their handles. *)
Fixpoint rampLoop (d : Desktop) (ramp : GammaRamp) (displays : list string)
    (lastError : option gammaError) (successCount : nat) (applied : list Z)
    : option gammaError * nat * list Z :=
  match displays with
  | [] => (lastError, successCount, applied)
  | deviceName :: rest =>
      if hasNul deviceName then rampLoop d ramp rest lastError successCount applied
      else
        let hdc := CreateDC d deviceName in
        if (hdc =? 0)%Z then rampLoop d ramp rest lastError successCount applied
        else
          match setGammaWithHDC d hdc ramp with
          | Some err => rampLoop d ramp rest (Some err) successCount applied
          | None => rampLoop d ramp rest lastError (S successCount) (applied ++ [hdc])
          end
  end.

(** The handles that took the ramp, and the error returned. *)
Definition setDeviceGammaRampForAllDisplays (d : Desktop) (ramp : GammaRamp)
    : list Z * option gammaError :=
  let displays := getActiveDisplayDevices d in
  let '(lastError, successCount, applied) := rampLoop d ramp displays None 0 [] in
  if successCount =? 0 then
    let hdc := GetDC d in
    if (hdc =? 0)%Z then
      match lastError with
      | Some err => (applied, Some err)
      | None => (applied, Some ErrNoDisplay)
      end
    else
      match setGammaWithHDC d hdc ramp with
      | Some err => (applied, Some err)
      | None => (applied ++ [hdc], None)
      end
  else
    match lastError with
    | Some err => if successCount =? 0 then (applied, Some err) else (applied, None)
    | None => (applied, None)
    end.

Definition SetGamma (d : Desktop) (brightness : Z) : list Z * option gammaError :=
  if (brightness <? 0)%Z || (100 <? brightness)%Z then ([], Some ErrBrightness)
  else setDeviceGammaRampForAllDisplays d (makeRamp brightness).

Definition ResetGamma (d : Desktop) : list Z * option gammaError := SetGamma d 100.

Definition GetDisplayCount (d : Desktop) : nat := length (getActiveDisplayDevices d).

(** [handleGamma] of [cmd/lumos]. *)
Definition handleGamma (d : Desktop) (percentage : Z) : list Z * option gammaError :=
  if (percentage <? 0)%Z || (100 <? percentage)%Z then ([], Some ErrGammaPercentage)
  else SetGamma d percentage.

(** The handles of the active displays that take the ramp, in order. *)
Definition takers (d : Desktop) (ramp : GammaRamp) (displays : list string) : list Z :=
  filter (λ hdc, hdc ≠ 0%Z ∧ SetDeviceGammaRamp d hdc ramp = true)
         (map (CreateDC d) (filter (λ name, hasNul name = false) displays)).

(** The handles of the active displays that refuse it. *)
Definition refusers (d : Desktop) (ramp : GammaRamp) (displays : list string) : list Z :=
  filter (λ hdc, hdc ≠ 0%Z ∧ SetDeviceGammaRamp d hdc ramp = false)
         (map (CreateDC d) (filter (λ name, hasNul name = false) displays)).

(** A desktop with two active displays, the first refusing every ramp,
    and one that is not active. *)
Definition sampleDesktop : Desktop :=
  {| devices := [(1%Z, "A"); (0%Z, "B"); (5%Z, "C")];
     CreateDC := λ name, if String.eqb name "A" then 11%Z
                         else if String.eqb name "C" then 13%Z else 0%Z;
     GetDC := 7;
     SetDeviceGammaRamp := λ hdc _, (hdc =? 13)%Z |}.

(** ** Package hdr *)

(** [DISPLAYCONFIG_PATH_TARGET_INFO], the fields the package uses. *)
Record Target : Set := {
  AdapterId : Z * Z;        (* LUID: LowPart, HighPart *)
  Id : Z;
  TargetAvailable : Z       (* BOOL *)
}.

(** What Windows answers to the calls of the package: the return value
    and the two counts of [GetDisplayConfigBufferSizes]; the return
    value of [QueryDisplayConfig] and the paths it fills in, as many as
    the path count it leaves; the return value of
    [DisplayConfigSetDeviceInfo] for an adapter, a target and the value
    asked for (1 for on, 0 for off).  A call gets the same answer every
    time it is made. *)
Record DisplayConfig : Type := {
  GetDisplayConfigBufferSizes : Z * Z * Z;
  QueryDisplayConfig : Z * list Target;
  DisplayConfigSetDeviceInfo : Z * Z → Z → Z → Z
}.

Inductive hdrError : Set :=
| ErrBufferSizes          (* "failed to get display config buffer sizes: ..." *)
| ErrNoActiveDisplays     (* "no active displays found" *)
| ErrQuery                (* "failed to query display config: ..." *)
| ErrSetState (id : Z)    (* "failed to set HDR state: ...", for this target *)
| ErrNoCompatible.        (* "no compatible displays were configured" *)

(** A write that Windows accepted: the target and the value. *)
Definition hdrWrite : Set := (Z * Z)%type.

Definition setHDRForDisplay (w : DisplayConfig) (target : Target) (enable : bool)
    : option hdrError :=
  let value := if enable then 1%Z else 0%Z in
  if (DisplayConfigSetDeviceInfo w (AdapterId target) (Id target) value =? 0)%Z
  then None
  else Some (ErrSetState (Id target)).

(** The loop of [SetHDR] over the paths. *)
Fixpoint hdrLoop (w : DisplayConfig) (enable : bool) (paths : list Target)
    (lastError : option hdrError) (successCount : nat) (written : list hdrWrite)
    : option hdrError * nat * list hdrWrite :=
  match paths with
  | [] => (lastError, successCount, written)
  | path :: rest =>
      if (TargetAvailable path =? 0)%Z then hdrLoop w enable rest lastError successCount written
      else
        match setHDRForDisplay w path enable with
        | Some err => hdrLoop w enable rest (Some err) successCount written
        | None =>
            hdrLoop w enable rest lastError (S successCount)
                    (written ++ [(Id path, if enable then 1%Z else 0%Z)])
        end
  end.

(** The writes that Windows accepted, and the error returned. *)
Definition SetHDR (w : DisplayConfig) (enable : bool) : list hdrWrite * option hdrError :=
  let '(ret, pathCount, modeCount) := GetDisplayConfigBufferSizes w in
  if negb (ret =? 0)%Z then ([], Some ErrBufferSizes)
  else if (pathCount =? 0)%Z || (modeCount =? 0)%Z then ([], Some ErrNoActiveDisplays)
  else
    let '(ret, paths) := QueryDisplayConfig w in
    if negb (ret =? 0)%Z then ([], Some ErrQuery)
    else
      let '(lastError, successCount, written) := hdrLoop w enable paths None 0 [] in
      match lastError with
      | Some err => if successCount =? 0 then (written, Some err) else (written, None)
      | None => if successCount =? 0 then (written, Some ErrNoCompatible) else (written, None)
      end.

Definition hdrEnable (w : DisplayConfig) : list hdrWrite * option hdrError := SetHDR w true.

Definition hdrDisable (w : DisplayConfig) : list hdrWrite * option hdrError := SetHDR w false.

Definition hdrToggle (w : DisplayConfig) : list hdrWrite * option hdrError :=
  let '(written, err) := hdrDisable w in
  match err with
  | Some _ => let '(written', err') := hdrEnable w in (written ++ written', err')
  | None => (written, None)
  end.

Definition IsHDRSupported (w : DisplayConfig) : bool :=
  let '(ret, _, _) := GetDisplayConfigBufferSizes w in (ret =? 0)%Z.

(** How [handleHDR] of [cmd/lumos] ends. *)
Inductive hdrReport : Set :=
| HdrPrinted (line : string)                (* fmt.Println(line), then return nil *)
| HdrNotSupported                           (* "HDR is not supported on this system ..." *)
| HdrFailed (what : string) (e : hdrError)  (* fmt.Errorf(what + ": %v", err) *)
| HdrInvalidState (hdrState : string).      (* "invalid HDR state: ..." *)

Definition handleHDR (w : DisplayConfig) (hdrState : string) : list hdrWrite * hdrReport :=
  if negb (IsHDRSupported w) then ([], HdrNotSupported)
  else if String.eqb hdrState "on" then
    match hdrEnable w with
    | (written, Some err) => (written, HdrFailed "HDR enable failed" err)
    | (written, None) => (written, HdrPrinted "HDR enabled on all compatible displays")
    end
  else if String.eqb hdrState "off" then
    match hdrDisable w with
    | (written, Some err) => (written, HdrFailed "HDR disable failed" err)
    | (written, None) => (written, HdrPrinted "HDR disabled on all compatible displays")
    end
  else if String.eqb hdrState "toggle" then
    match hdrToggle w with
    | (written, Some err) => (written, HdrFailed "HDR toggle failed" err)
    | (written, None) => (written, HdrPrinted "HDR toggled on all compatible displays")
    end
  else ([], HdrInvalidState hdrState).

(** The available targets that accept a value, in order. *)
Definition accepting (w : DisplayConfig) (value : Z) (paths : list Target) : list Target :=
  filter (λ t, TargetAvailable t ≠ 0%Z
               ∧ DisplayConfigSetDeviceInfo w (AdapterId t) (Id t) value = 0%Z) paths.

(** The available targets that refuse it. *)
Definition refusing (w : DisplayConfig) (value : Z) (paths : list Target) : list Target :=
  filter (λ t, TargetAvailable t ≠ 0%Z
               ∧ DisplayConfigSetDeviceInfo w (AdapterId t) (Id t) value ≠ 0%Z) paths.

(** Windows answered the two queries and reported displays. *)
Definition queried (w : DisplayConfig) (paths : list Target) : Prop :=
  ∃ pathCount modeCount,
    GetDisplayConfigBufferSizes w = (0%Z, pathCount, modeCount)
    ∧ pathCount ≠ 0%Z ∧ modeCount ≠ 0%Z
    ∧ QueryDisplayConfig w = (0%Z, paths).

(** Two available displays, the first of which refuses every value, and
    one that is not available. *)
Definition sampleDisplays : list Target :=
  [ {| AdapterId := (1, 0); Id := 100; TargetAvailable := 1 |};
    {| AdapterId := (1, 0); Id := 101; TargetAvailable := 0 |};
    {| AdapterId := (1, 0); Id := 102; TargetAvailable := 1 |} ]%Z.

Definition sampleConfig : DisplayConfig :=
  {| GetDisplayConfigBufferSizes := (0, 3, 6)%Z;
     QueryDisplayConfig := (0%Z, sampleDisplays);
     DisplayConfigSetDeviceInfo := λ _ id _, if (id =? 102)%Z then 0%Z else 87%Z |}.

(** ** The program *)

(** The flags after [flag.Parse], with their defaults. *)
Record Flags : Set := {
  hdrFlag : string;      (* -hdr, default the empty string *)
  gammaFlag : Z;         (* -gamma, default -1 *)
  nightFlag : string;    (* -night, default the empty string *)
  helpFlag : bool;       (* -help *)
  versionFlag : bool     (* -version *)
}.

(** How [main] ends. *)
Inductive ending : Set :=
| ShowedHelp                 (* printHelp() *)
| ShowedVersion              (* fmt.Println(version) *)
| Finished                   (* the operations asked for are done *)
| ExitHDR (rep : hdrReport)  (* "Error setting HDR: ...", os.Exit(1) *)
| ExitGamma (err : gammaError)  (* "Error setting gamma: ...", os.Exit(1) *)
| ExitNight (rep : report)   (* "Error setting night light: ...", os.Exit(1) *)
| Panicked.                  (* a run-time panic in package night *)

(** What a run of the program has done: the HDR values and the gamma
    ramps that Windows accepted, the registry it leaves, and its end. *)
Record Run : Type := {
  hdrWritten : list hdrWrite;
  gammaApplied : list Z;
  registryLeft : Registry;
  ended : ending
}.

Section Main.

(** [handleNightLight] in the first [main.go], [handleLumos] in the
    second; the two [main] are the same otherwise. *)
Variable handleNight : string → Registry → Registry * report.

(** [main], for [args = len(os.Args)]. *)
Definition mainWith (f : Flags) (args : nat) (w : DisplayConfig) (d : Desktop) (r : Registry)
    : Run :=
  if helpFlag f || (args =? 1) then
    {| hdrWritten := []; gammaApplied := []; registryLeft := r; ended := ShowedHelp |}
  else if versionFlag f then
    {| hdrWritten := []; gammaApplied := []; registryLeft := r; ended := ShowedVersion |}
  else
    let hasOperation := false in
    let '(hasOperation, written, hdrErr) :=
      if negb (String.eqb (hdrFlag f) "") then
        match handleHDR w (hdrFlag f) with
        | (written, HdrPrinted _) => (true, written, None)
        | (written, rep) => (true, written, Some rep)
        end
      else (hasOperation, [], None) in
    match hdrErr with
    | Some rep =>
        {| hdrWritten := written; gammaApplied := []; registryLeft := r; ended := ExitHDR rep |}
    | None =>
        let '(hasOperation, applied, gammaErr) :=
          if negb (gammaFlag f =? -1)%Z then
            let '(applied, err) := handleGamma d (gammaFlag f) in (true, applied, err)
          else (hasOperation, [], None) in
        match gammaErr with
        | Some err =>
            {| hdrWritten := written; gammaApplied := applied; registryLeft := r;
               ended := ExitGamma err |}
        | None =>
            if negb (String.eqb (nightFlag f) "") then
              let '(r', rep) := handleNight (nightFlag f) r in
              {| hdrWritten := written; gammaApplied := applied; registryLeft := r';
                 ended := match rep with
                          | Printed _ | PrintedStrength _ => Finished
                          | Crashed => Panicked
                          | _ => ExitNight rep
                          end |}
            else
              {| hdrWritten := written; gammaApplied := applied; registryLeft := r;
                 ended := if hasOperation then Finished else ShowedHelp |}
        end
    end.

End Main.

(** [main] of the first [main.go]. *)
Definition main (slack : list byte → list byte) (ParseFloat : string → option float64) :=
  mainWith (handleNightLight slack ParseFloat).

(** [main] of the second [main.go]. *)
Definition mainLumos (slack : list byte → list byte) := mainWith (handleLumos slack).

(** A registry without the two values. *)
Definition emptyRegistry : Registry :=
  {| stateValue := None; settingsValue := None;
     stateWritable := true; settingsWritable := true |}.

(** The flags of [lumos --hdr on --gamma 101 --night on]. *)
Definition sampleFlags : Flags :=
  {| hdrFlag := "on"; gammaFlag := 101; nightFlag := "on";
     helpFlag := false; versionFlag := false |}.

(** ** Bytes *)

Lemma byte_incr_val (b : byte) : b ≠ xff → byte_val (byte_incr b) = (byte_val b + 1)%Z.
Proof.
  destruct b; intros H; try reflexivity.
  exfalso; apply H; reflexivity.
Qed.

Lemma byte_val_range (b : byte) : (0 ≤ byte_val b ≤ 255)%Z.
Proof.
  unfold byte_val. pose proof (Byte.to_N_bounded b). lia.
Qed.

(** ** The timestamp loop *)

Lemma index_Some (data : slice) (i : nat) (b : byte) :
  elems data !! i = Some b → index data i = Ret b.
Proof. unfold index. intros ->. reflexivity. Qed.

Lemma assign_in_range (data : slice) (i : nat) (v : byte) :
  i < len data → assign data i v = Ret (Slice (<[i:=v]> (elems data)) (spare data)).
Proof.
  intros H. unfold assign.
  destruct (Nat.ltb_spec i (len data)); [reflexivity | lia].
Qed.

Lemma bumpFrom_spec (n : nat) :
  ∀ (i : nat) (data : slice),
    (∀ j, i ≤ j < i + n → is_Some (elems data !! j)) →
    ∃ new, bumpFrom n i data = Ret (Slice new (spare data))
           ∧ bumped i (i + n) (elems data) new.
Proof.
  induction n as [|n IH]; intros i data Hin.
  - exists (elems data). split.
    + destruct data; reflexivity.
    + apply bumped_saturated; [intros j Hj; lia | reflexivity].
  - destruct (Hin i ltac:(lia)) as [b Hb].
    cbn [bumpFrom]. rewrite (index_Some _ _ _ Hb). cbn.
    destruct (decide (b ≠ xff)) as [Hne|Heq].
    + exists (<[i:=byte_incr b]> (elems data)). split.
      * apply assign_in_range. unfold len. eapply lookup_lt_Some; eassumption.
      * eapply bumped_at with (k := i) (b := b); try done; [lia | intros j Hj; lia].
    + assert (b = xff) as -> by (destruct (decide (b = xff)); [done | contradiction]).
      destruct (IH (S i) data) as (new & Hrun & Hb').
      { intros j Hj. apply Hin. lia. }
      exists new. split; [exact Hrun|].
      destruct Hb' as [Hall Hnew | k b Hk Hkb Hbne Hall Hnew].
      * apply bumped_saturated; [|exact Hnew].
        intros j Hj. destruct (decide (j = i)) as [->|]; [exact Hb | apply Hall; lia].
      * eapply bumped_at with (k := k) (b := b); try done; [lia|].
        intros j Hj. destruct (decide (j = i)) as [->|]; [exact Hb | apply Hall; lia].
Qed.

Lemma incrementTimestamp_spec (data : slice) :
  15 ≤ len data →
  ∃ new, incrementTimestamp data = Ret (Slice new (spare data))
         ∧ bumped 10 15 (elems data) new.
Proof.
  intros Hlen. apply (bumpFrom_spec 5 10 data).
  intros j Hj. apply lookup_lt_is_Some. unfold len in Hlen. lia.
Qed.

Lemma bumped_length lo hi old new : bumped lo hi old new → length new = length old.
Proof.
  intros [_ -> | k b _ _ _ _ ->]; [reflexivity | apply length_insert].
Qed.

Lemma bumped_outside lo hi old new j :
  bumped lo hi old new → ¬ (lo ≤ j < hi) → new !! j = old !! j.
Proof.
  intros [_ -> | k b Hk _ _ _ ->] Hj; [reflexivity|].
  apply list_lookup_insert_ne. lia.
Qed.

Lemma bumpFrom_saturated (n : nat) :
  ∀ (i : nat) (data : slice),
    (∀ j, i ≤ j < i + n → elems data !! j = Some xff) →
    bumpFrom n i data = Ret data.
Proof.
  induction n as [|n IH]; intros i data Hall; [reflexivity|].
  cbn [bumpFrom]. rewrite (index_Some _ _ xff) by (apply Hall; lia). cbn.
  apply IH. intros j Hj. apply Hall. lia.
Qed.

Lemma bumpFrom_at (n : nat) :
  ∀ (i : nat) (data : slice) (k : nat) (b : byte),
    i ≤ k < i + n →
    elems data !! k = Some b →
    b ≠ xff →
    (∀ j, i ≤ j < k → elems data !! j = Some xff) →
    bumpFrom n i data = Ret (Slice (<[k := byte_incr b]> (elems data)) (spare data)).
Proof.
  induction n as [|n IH]; intros i data k b Hk Hb Hne Hall; [lia|].
  cbn [bumpFrom]. destruct (decide (k = i)) as [->|Hki].
  - rewrite (index_Some _ _ b Hb). cbn.
    destruct (decide (b ≠ xff)); [|contradiction].
    apply assign_in_range. unfold len. eapply lookup_lt_Some; eassumption.
  - rewrite (index_Some _ _ xff) by (apply Hall; lia). cbn.
    apply IH; [lia | assumption | assumption |].
    intros j Hj. apply Hall. lia.
Qed.

Lemma bumped_timestampAdvanced (old mid new : list byte) :
  (∀ j, 10 ≤ j < 15 → mid !! j = old !! j) →
  bumped 10 15 mid new →
  timestampAdvanced old new.
Proof.
  intros Hwin [Hall -> | k b Hk Hkb Hne Hall ->].
  - left. intros j Hj. rewrite <- (Hwin j Hj). split; apply Hall; exact Hj.
  - right. exists k, b. repeat split; try lia; try assumption.
    + rewrite <- Hwin by lia. exact Hkb.
    + intros j Hj. rewrite <- Hwin by lia. apply Hall. exact Hj.
    + apply list_lookup_insert_eq. eapply lookup_lt_Some; eassumption.
    + intros j Hj Hjk. rewrite list_lookup_insert_ne by lia. apply Hwin. exact Hj.
Qed.

Lemma byteAt_lookup (d : list byte) (i : nat) (b : byte) :
  d !! i = Some b → byteAt d i = byte_val b.
Proof. unfold byteAt. intros ->. reflexivity. Qed.

Lemma byteAt_eq (d d' : list byte) (i : nat) :
  d' !! i = d !! i → byteAt d' i = byteAt d i.
Proof. unfold byteAt. intros ->. reflexivity. Qed.

Lemma timestampAdvanced_le (old new : list byte) :
  timestampAdvanced old new → (timestampValue old ≤ timestampValue new)%Z.
Proof.
  intros [Hall | (k & b & Hk & Hkb & Hne & Hff & Hnew & Hrest)]; unfold timestampValue.
  - assert (∀ j, 10 ≤ j < 15 → byteAt new j = byteAt old j) as E.
    { intros j Hj. destruct (Hall j Hj) as [Ho Hn]. apply byteAt_eq. congruence. }
    rewrite !E by lia. lia.
  - pose proof (byteAt_lookup _ _ _ Hkb) as Eo.
    pose proof (byteAt_lookup _ _ _ Hnew) as En.
    rewrite (byte_incr_val b Hne) in En.
    assert (∀ j, 10 ≤ j < 15 → j ≠ k → byteAt new j = byteAt old j) as E.
    { intros j Hj Hjk. apply byteAt_eq. apply Hrest; assumption. }
    assert (k = 10 ∨ k = 11 ∨ k = 12 ∨ k = 13 ∨ k = 14) as Hcase by lia.
    destruct Hcase as [-> | [-> | [-> | [-> | ->]]]];
      rewrite ?(E 10), ?(E 11), ?(E 12), ?(E 13), ?(E 14) by lia; lia.
Qed.

Lemma timestampAdvanced_lt (old new : list byte) :
  timestampAdvanced old new →
  ¬ (∀ j, 10 ≤ j < 15 → old !! j = Some xff) →
  (timestampValue old + 1 ≤ timestampValue new)%Z.
Proof.
  intros [Hall | (k & b & Hk & Hkb & Hne & Hff & Hnew & Hrest)] Hsat; unfold timestampValue.
  - exfalso. apply Hsat. intros j Hj. apply (Hall j Hj).
  - pose proof (byteAt_lookup _ _ _ Hkb) as Eo.
    pose proof (byteAt_lookup _ _ _ Hnew) as En.
    rewrite (byte_incr_val b Hne) in En.
    assert (∀ j, 10 ≤ j < 15 → j ≠ k → byteAt new j = byteAt old j) as E.
    { intros j Hj Hjk. apply byteAt_eq. apply Hrest; assumption. }
    assert (k = 10 ∨ k = 11 ∨ k = 12 ∨ k = 13 ∨ k = 14) as Hcase by lia.
    destruct Hcase as [-> | [-> | [-> | [-> | ->]]]];
      rewrite ?(E 10), ?(E 11), ?(E 12), ?(E 13), ?(E 14) by lia; lia.
Qed.

(** ** The splice of [Toggle] *)

(** On a 41-byte value the enabling branch builds this array. *)
Lemma toggled_enable (data : slice) :
  len data = 41 →
  toggled false data =
    incrementTimestamp
      (Slice (<[18 := x15]> (take 22 (elems data) ++ [x00; x10; x00] ++ drop 23 (elems data))) []).
Proof.
  destruct data as [l sp]. unfold len. cbn [elems]. intros Hlen.
  do 41 (destruct l as [|? l]; [discriminate Hlen|]).
  destruct l; [|discriminate Hlen].
  reflexivity.
Qed.

(** On a 43-byte value the disabling branch builds this array. *)
Lemma toggled_disable (data : slice) :
  len data = 43 →
  toggled true data =
    incrementTimestamp
      (Slice (<[18 := x13]> (take 22 (elems data) ++ [x00] ++ drop 25 (elems data))) []).
Proof.
  destruct data as [l sp]. unfold len. cbn [elems]. intros Hlen.
  do 43 (destruct l as [|? l]; [discriminate Hlen|]).
  destruct l; [|discriminate Hlen].
  reflexivity.
Qed.

Lemma lookup_take_app (l rest : list byte) (n j : nat) :
  n ≤ length l → j < n → (take n l ++ rest) !! j = l !! j.
Proof.
  intros Hn Hj.
  rewrite lookup_app_l by (rewrite length_take; lia).
  apply lookup_take_lt. exact Hj.
Qed.

Section ToggleFacts.

Variable slack : list byte → list byte.

Lemma Enabled_readable (r : Registry) (b : list byte) :
  stateValue r = Some b →
  Enabled slack r =
    if length b <? 19 then Fail ErrInvalidStateLength
    else match b !! 18 with
         | Some flag => Ret (bool_decide (flag = x15))
         | None => Panic
         end.
Proof.
  intros Hb. unfold Enabled, Supported, getStateData, readValue. rewrite Hb. cbn.
  unfold len, index. cbn.
  destruct (length b <=? 18); [reflexivity|].
  destruct (b !! 18); reflexivity.
Qed.

Lemma Enabled_unreadable (r : Registry) :
  stateValue r = None → Enabled slack r = Fail ErrNotSupported.
Proof.
  intros Hb. unfold Enabled, Supported, getStateData, readValue. rewrite Hb. reflexivity.
Qed.

Lemma Toggle_disabled_run (r : Registry) (b : list byte) :
  stateValue r = Some b →
  length b = 41 →
  b !! 18 = Some x13 →
  Toggle slack r =
    (newData ← incrementTimestamp
                 (Slice (<[18 := x15]> (take 22 b ++ [x00; x10; x00] ++ drop 23 b)) []);
     setStateData r newData).
Proof.
  intros Hb Hlen Hflag.
  unfold Toggle. rewrite (Enabled_readable r b Hb), Hlen, Hflag. cbn.
  unfold getStateData, readValue. rewrite Hb. cbn.
  rewrite toggled_enable by exact Hlen. reflexivity.
Qed.

Lemma Toggle_enabled_run (r : Registry) (b : list byte) :
  stateValue r = Some b →
  length b = 43 →
  b !! 18 = Some x15 →
  Toggle slack r =
    (newData ← incrementTimestamp
                 (Slice (<[18 := x13]> (take 22 b ++ [x00] ++ drop 25 b)) []);
     setStateData r newData).
Proof.
  intros Hb Hlen Hflag.
  unfold Toggle. rewrite (Enabled_readable r b Hb), Hlen, Hflag. cbn.
  unfold getStateData, readValue. rewrite Hb. cbn.
  rewrite toggled_disable by exact Hlen. reflexivity.
Qed.

Lemma Toggle_disabled (r : Registry) (b : list byte) :
  stateValue r = Some b →
  stateWritable r = true →
  length b = 41 →
  b !! 18 = Some x13 →
  ∃ b', Toggle slack r = Ret (withState r b')
        ∧ bumped 10 15 (<[18 := x15]> (take 22 b ++ [x00; x10; x00] ++ drop 23 b)) b'.
Proof.
  intros Hb Hw Hlen Hflag.
  rewrite (Toggle_disabled_run r b Hb Hlen Hflag).
  destruct (incrementTimestamp_spec
              (Slice (<[18 := x15]> (take 22 b ++ [x00; x10; x00] ++ drop 23 b)) []))
    as (b' & Hrun & Hbump).
  { unfold len. cbn [elems]. rewrite length_insert, !length_app, length_take, length_drop, Hlen. cbn. lia. }
  rewrite Hrun. cbn. unfold setStateData, withState. rewrite Hw.
  exists b'. split; [reflexivity | exact Hbump].
Qed.

Lemma Toggle_enabled (r : Registry) (b : list byte) :
  stateValue r = Some b →
  stateWritable r = true →
  length b = 43 →
  b !! 18 = Some x15 →
  ∃ b', Toggle slack r = Ret (withState r b')
        ∧ bumped 10 15 (<[18 := x13]> (take 22 b ++ [x00] ++ drop 25 b)) b'.
Proof.
  intros Hb Hw Hlen Hflag.
  rewrite (Toggle_enabled_run r b Hb Hlen Hflag).
  destruct (incrementTimestamp_spec
              (Slice (<[18 := x13]> (take 22 b ++ [x00] ++ drop 25 b)) []))
    as (b' & Hrun & Hbump).
  { unfold len. cbn [elems]. rewrite length_insert, !length_app, length_take, length_drop, Hlen. cbn. lia. }
  rewrite Hrun. cbn. unfold setStateData, withState. rewrite Hw.
  exists b'. split; [reflexivity | exact Hbump].
Qed.

(** What the enabling [Toggle] writes, byte by byte. *)
Lemma Toggle_disabled_bytes (r : Registry) (b : list byte) :
  stateValue r = Some b →
  stateWritable r = true →
  length b = 41 →
  b !! 18 = Some x13 →
  ∃ b', Toggle slack r = Ret (withState r b')
        ∧ length b' = 43
        ∧ b' !! 18 = Some x15
        ∧ (∀ j, j < 22 → j ≠ 18 → ¬ (10 ≤ j < 15) → b' !! j = b !! j)
        ∧ b' !! 22 = Some x00 ∧ b' !! 23 = Some x10 ∧ b' !! 24 = Some x00
        ∧ (∀ j, 25 ≤ j < 43 → b' !! j = b !! (j - 2))
        ∧ timestampAdvanced b b'.
Proof.
  intros Hb Hw Hlen Hflag.
  destruct (Toggle_disabled r b Hb Hw Hlen Hflag) as (b' & Hrun & Hbump).
  set (mid := take 22 b ++ [x00; x10; x00] ++ drop 23 b) in *.
  assert (length mid = 43) as Hmid.
  { unfold mid. rewrite !length_app, length_take, length_drop, Hlen. reflexivity. }
  assert (∀ j, j < 22 → mid !! j = b !! j) as Hpre.
  { intros j Hj. unfold mid. apply lookup_take_app; lia. }
  assert (∀ j, 22 ≤ j → mid !! j = ([x00; x10; x00] ++ drop 23 b) !! (j - 22)) as Hpost.
  { intros j Hj. unfold mid. rewrite lookup_app_r by (rewrite length_take; lia).
    rewrite length_take, Nat.min_l by lia. reflexivity. }
  exists b'. split; [exact Hrun|].
  split; [rewrite (bumped_length _ _ _ _ Hbump), length_insert; exact Hmid|].
  split.
  { rewrite (bumped_outside _ _ _ _ 18 Hbump) by lia.
    apply list_lookup_insert_eq. lia. }
  split.
  { intros j Hj Hj18 Hwin. rewrite (bumped_outside _ _ _ _ j Hbump) by exact Hwin.
    rewrite list_lookup_insert_ne by lia. apply Hpre. exact Hj. }
  split; [|split; [|split; [|split]]].
  - rewrite (bumped_outside _ _ _ _ 22 Hbump), list_lookup_insert_ne, Hpost by lia. reflexivity.
  - rewrite (bumped_outside _ _ _ _ 23 Hbump), list_lookup_insert_ne, Hpost by lia. reflexivity.
  - rewrite (bumped_outside _ _ _ _ 24 Hbump), list_lookup_insert_ne, Hpost by lia. reflexivity.
  - intros j Hj. rewrite (bumped_outside _ _ _ _ j Hbump), list_lookup_insert_ne, Hpost by lia.
    rewrite lookup_app_r by (cbn; lia). rewrite lookup_drop. cbn [length]. f_equal. lia.
  - eapply bumped_timestampAdvanced; [|exact Hbump].
    intros j Hj. rewrite list_lookup_insert_ne by lia. apply Hpre. lia.
Qed.

(** What the disabling [Toggle] writes, byte by byte. *)
Lemma Toggle_enabled_bytes (r : Registry) (b : list byte) :
  stateValue r = Some b →
  stateWritable r = true →
  length b = 43 →
  b !! 18 = Some x15 →
  ∃ b', Toggle slack r = Ret (withState r b')
        ∧ length b' = 41
        ∧ b' !! 18 = Some x13
        ∧ (∀ j, j < 22 → j ≠ 18 → ¬ (10 ≤ j < 15) → b' !! j = b !! j)
        ∧ b' !! 22 = Some x00
        ∧ (∀ j, 23 ≤ j < 41 → b' !! j = b !! (j + 2))
        ∧ timestampAdvanced b b'.
Proof.
  intros Hb Hw Hlen Hflag.
  destruct (Toggle_enabled r b Hb Hw Hlen Hflag) as (b' & Hrun & Hbump).
  set (mid := take 22 b ++ [x00] ++ drop 25 b) in *.
  assert (length mid = 41) as Hmid.
  { unfold mid. rewrite !length_app, length_take, length_drop, Hlen. reflexivity. }
  assert (∀ j, j < 22 → mid !! j = b !! j) as Hpre.
  { intros j Hj. unfold mid. apply lookup_take_app; lia. }
  assert (∀ j, 22 ≤ j → mid !! j = ([x00] ++ drop 25 b) !! (j - 22)) as Hpost.
  { intros j Hj. unfold mid. rewrite lookup_app_r by (rewrite length_take; lia).
    rewrite length_take, Nat.min_l by lia. reflexivity. }
  exists b'. split; [exact Hrun|].
  split; [rewrite (bumped_length _ _ _ _ Hbump), length_insert; exact Hmid|].
  split.
  { rewrite (bumped_outside _ _ _ _ 18 Hbump) by lia.
    apply list_lookup_insert_eq. lia. }
  split.
  { intros j Hj Hj18 Hwin. rewrite (bumped_outside _ _ _ _ j Hbump) by exact Hwin.
    rewrite list_lookup_insert_ne by lia. apply Hpre. exact Hj. }
  split; [|split].
  - rewrite (bumped_outside _ _ _ _ 22 Hbump), list_lookup_insert_ne, Hpost by lia. reflexivity.
  - intros j Hj. rewrite (bumped_outside _ _ _ _ j Hbump), list_lookup_insert_ne, Hpost by lia.
    rewrite lookup_app_r by (cbn; lia). rewrite lookup_drop. cbn [length]. f_equal. lia.
  - eapply bumped_timestampAdvanced; [|exact Hbump].
    intros j Hj. rewrite list_lookup_insert_ne by lia. apply Hpre. lia.
Qed.

End ToggleFacts.

(** ** Two runs *)

(** Enabling the sample value: 43 bytes, flag 0x15, markers 0x10 and
    0x00 at offsets 23 and 24, first timestamp byte 6. *)
Lemma toggle_sample_disabled :
  ∃ b', Toggle noSlack (registryOf sampleDisabled sampleSettings)
        = Ret (registryOf b' sampleSettings)
        ∧ length b' = 43
        ∧ b' !! 18 = Some x15
        ∧ b' !! 23 = Some x10
        ∧ b' !! 24 = Some x00
        ∧ b' !! 10 = Some x06.
Proof.
  eexists. split; [vm_compute; reflexivity|]. repeat split.
Qed.

(** Strength 100 on the sample settings: 1200 kelvin, stored as the
    bytes 224 and 18; a percentage below 0 or above 100 is clamped. *)
Lemma set_strength_sample :
  ∃ d', SetStrength noSlack (registryOf sampleDisabled sampleSettings) (f64_of_Z 100)
        = Ret (registryOf sampleDisabled d')
        ∧ d' !! 0x23 = Some xe0
        ∧ d' !! 0x24 = Some x12
        ∧ clampPercentage (f64_of_Z (-10)) = f64_of_Z 0
        ∧ clampPercentage (f64_of_Z 150) = f64_of_Z 100.
Proof.
  eexists. split; [vm_compute; reflexivity|]. repeat split.
Qed.

(** ** Toggle *)

(** C1, amended.  For every disabled state value [b] (41 bytes, byte 18 =
    0x13), [Toggle] writes a value of 43 bytes whose byte 18 is 0x15 and
    whose bytes 0..21 are those of [b] except for byte 18 and for the
    timestamp byte (one of bytes 10..14) that the update increments. *)
Theorem toggle_disabled_blob (slack : list byte → list byte) (r : Registry) (b : list byte) :
  stateValue r = Some b →
  stateWritable r = true →
  length b = 41 →
  b !! 18 = Some x13 →
  ∃ b', Toggle slack r = Ret (withState r b')
        ∧ length b' = 43
        ∧ b' !! 18 = Some x15
        ∧ (∀ j, j < 22 → j ≠ 18 → ¬ (10 ≤ j < 15) → b' !! j = b !! j)
        ∧ timestampAdvanced b b'.
Proof.
  intros Hb Hw Hlen Hflag.
  destruct (Toggle_disabled_bytes slack r b Hb Hw Hlen Hflag)
    as (b' & Hrun & Hl & Hf & Hpre & _ & _ & _ & _ & Hts).
  exists b'. repeat split; assumption.
Qed.

Lemma toggle_disabled_blob_witness :
  ∃ b', Toggle noSlack (registryOf sampleDisabled sampleSettings)
        = Ret (withState (registryOf sampleDisabled sampleSettings) b')
        ∧ length b' = 43
        ∧ b' !! 18 = Some x15
        ∧ (∀ j, j < 22 → j ≠ 18 → ¬ (10 ≤ j < 15) → b' !! j = sampleDisabled !! j)
        ∧ timestampAdvanced sampleDisabled b'.
Proof.
  apply (toggle_disabled_blob noSlack (registryOf sampleDisabled sampleSettings) sampleDisabled);
    reflexivity.
Defined.

(** C1 as stated fails: bytes 0..21 of the value written differ from
    bytes 0..21 of the disabled value read (byte 18 and byte 10 here). *)
Lemma toggle_disabled_prefix_differs :
  length sampleDisabled = 41
  ∧ sampleDisabled !! 18 = Some x13
  ∧ ∃ b', Toggle noSlack (registryOf sampleDisabled sampleSettings)
          = Ret (registryOf b' sampleSettings)
          ∧ length b' = 43
          ∧ b' !! 18 = Some x15
          ∧ take 22 b' ≠ take 22 sampleDisabled.
Proof.
  split; [reflexivity|]. split; [reflexivity|].
  eexists. split; [vm_compute; reflexivity|].
  split; [reflexivity|]. split; [reflexivity|].
  vm_compute. discriminate.
Qed.

(** C3, amended.  For every enabled state value [b] (43 bytes, byte 18 =
    0x15), [Toggle] writes a value of 41 bytes: its bytes 23..40 are
    bytes 25..42 of [b]; its byte 22 is 0, whatever byte 22 of [b] is;
    its bytes 0..21 are those of [b] except that byte 18 is 0x13 and
    that the timestamp update increments one of bytes 10..14. *)
Theorem toggle_enabled_blob (slack : list byte → list byte) (r : Registry) (b : list byte) :
  stateValue r = Some b →
  stateWritable r = true →
  length b = 43 →
  b !! 18 = Some x15 →
  ∃ b', Toggle slack r = Ret (withState r b')
        ∧ length b' = 41
        ∧ (∀ j, 23 ≤ j < 41 → b' !! j = b !! (j + 2))
        ∧ b' !! 22 = Some x00
        ∧ b' !! 18 = Some x13
        ∧ (∀ j, j < 22 → j ≠ 18 → ¬ (10 ≤ j < 15) → b' !! j = b !! j)
        ∧ timestampAdvanced b b'.
Proof.
  intros Hb Hw Hlen Hflag.
  destruct (Toggle_enabled_bytes slack r b Hb Hw Hlen Hflag)
    as (b' & Hrun & Hl & Hf & Hpre & H22 & Htail & Hts).
  exists b'. repeat split; assumption.
Qed.

Lemma toggle_enabled_blob_witness :
  ∃ b', Toggle noSlack (registryOf sampleEnabled sampleSettings)
        = Ret (withState (registryOf sampleEnabled sampleSettings) b')
        ∧ length b' = 41
        ∧ (∀ j, 23 ≤ j < 41 → b' !! j = sampleEnabled !! (j + 2))
        ∧ b' !! 22 = Some x00
        ∧ b' !! 18 = Some x13
        ∧ (∀ j, j < 22 → j ≠ 18 → ¬ (10 ≤ j < 15) → b' !! j = sampleEnabled !! j)
        ∧ timestampAdvanced sampleEnabled b'.
Proof.
  apply (toggle_enabled_blob noSlack (registryOf sampleEnabled sampleSettings) sampleEnabled);
    reflexivity.
Defined.

(** C3 as stated fails: byte 22 of an enabled value is not preserved. *)
Lemma toggle_enabled_byte22_lost :
  length sampleEnabled22 = 43
  ∧ sampleEnabled22 !! 18 = Some x15
  ∧ sampleEnabled22 !! 22 = Some x07
  ∧ ∃ b', Toggle noSlack (registryOf sampleEnabled22 sampleSettings)
          = Ret (registryOf b' sampleSettings)
          ∧ b' !! 22 = Some x00
          ∧ b' !! 22 ≠ sampleEnabled22 !! 22.
Proof.
  split; [reflexivity|]. split; [reflexivity|]. split; [reflexivity|].
  eexists. split; [vm_compute; reflexivity|].
  split; [reflexivity|]. vm_compute. discriminate.
Qed.

(** C5.  For every enabled state value [b] (43 bytes, byte 18 = 0x15)
    whose timestamp bytes 10..14 are not all 0xFF, two [Toggle]s in a row
    write a value with the flag byte of [b] and a timestamp, read as a
    little-endian number, at least one greater than that of [b]. *)
Theorem toggle_twice_enabled (slack : list byte → list byte) (r : Registry) (b : list byte) :
  stateValue r = Some b →
  stateWritable r = true →
  length b = 43 →
  b !! 18 = Some x15 →
  ¬ (∀ j, 10 ≤ j < 15 → b !! j = Some xff) →
  ∃ b2, (r1 ← Toggle slack r; Toggle slack r1) = Ret (withState r b2)
        ∧ b2 !! 18 = b !! 18
        ∧ (timestampValue b + 1 ≤ timestampValue b2)%Z.
Proof.
  intros Hb Hw Hlen Hflag Hsat.
  destruct (Toggle_enabled_bytes slack r b Hb Hw Hlen Hflag)
    as (b1 & Hrun1 & Hl1 & Hf1 & _ & _ & _ & Hts1).
  destruct (Toggle_disabled_bytes slack (withState r b1) b1 eq_refl Hw Hl1 Hf1)
    as (b2 & Hrun2 & _ & Hf2 & _ & _ & _ & _ & _ & Hts2).
  exists b2. split; [rewrite Hrun1; cbn; exact Hrun2|].
  split; [congruence|].
  pose proof (timestampAdvanced_lt b b1 Hts1 Hsat).
  pose proof (timestampAdvanced_le b1 b2 Hts2).
  lia.
Qed.

Lemma toggle_twice_enabled_witness :
  ∃ b2, (r1 ← Toggle noSlack (registryOf sampleEnabled sampleSettings); Toggle noSlack r1)
        = Ret (withState (registryOf sampleEnabled sampleSettings) b2)
        ∧ b2 !! 18 = sampleEnabled !! 18
        ∧ (timestampValue sampleEnabled + 1 ≤ timestampValue b2)%Z.
Proof.
  apply (toggle_twice_enabled noSlack (registryOf sampleEnabled sampleSettings) sampleEnabled);
    try reflexivity.
  intros Hall. specialize (Hall 10 ltac:(lia)). discriminate Hall.
Defined.

(** ** The timestamp update *)

(** One update of a value whose timestamp bytes are those of [src]. *)
Lemma bumped_window (src old new : list byte) :
  (∀ j, 10 ≤ j < 15 → old !! j = src !! j) →
  bumped 10 15 old new →
  (∀ k c, firstFree src k c → new = <[k := byte_incr c]> old)
  ∧ (saturated src → new = old).
Proof.
  intros Hwin [Hall Hnew | k' c' Hk' Hold Hne Hbefore Hnew].
  - split; [|intros _; exact Hnew].
    intros k c (Hk & Hc & Hcne & _). exfalso.
    pose proof (Hall k Hk) as H. rewrite (Hwin k Hk), Hc in H. congruence.
  - split.
    + intros k c (Hk & Hc & Hcne & Hcbefore).
      assert (k = k') as ->.
      { destruct (Nat.lt_trichotomy k k') as [Hlt | [Heq | Hgt]]; [|exact Heq|].
        - exfalso. pose proof (Hbefore k ltac:(lia)) as H.
          rewrite (Hwin k Hk), Hc in H. congruence.
        - exfalso. pose proof (Hcbefore k' ltac:(lia)) as H.
          rewrite <- (Hwin k' Hk'), Hold in H. congruence. }
      rewrite (Hwin k' Hk'), Hc in Hold. injection Hold as ->. exact Hnew.
    + intros Hsat. exfalso. pose proof (Hsat k' Hk') as H.
      rewrite <- (Hwin k' Hk'), Hold in H. congruence.
Qed.

(** The same, byte by byte. *)
Lemma bumped_window_bytes (src old new : list byte) :
  (∀ j, 10 ≤ j < 15 → old !! j = src !! j) →
  bumped 10 15 old new →
  (∀ k c, firstFree src k c →
          (∃ c', new !! k = Some c' ∧ byte_val c' = (byte_val c + 1)%Z)
          ∧ ∀ j, j ≠ k → new !! j = old !! j)
  ∧ (saturated src → new = old).
Proof.
  intros Hwin Hbump. destruct (bumped_window src old new Hwin Hbump) as [Hfirst Hsat].
  split; [|exact Hsat].
  intros k c Hfree. rewrite (Hfirst k c Hfree).
  destruct Hfree as (Hk & Hc & Hne & _). split.
  - exists (byte_incr c). split; [|apply byte_incr_val; exact Hne].
    apply list_lookup_insert_eq. rewrite <- (Hwin k Hk) in Hc.
    eapply lookup_lt_Some; eassumption.
  - intros j Hj. apply list_lookup_insert_ne. congruence.
Qed.

Lemma enabledFrom_window (b : list byte) (j : nat) :
  length b = 41 → 10 ≤ j < 15 → enabledFrom b !! j = b !! j.
Proof.
  intros Hlen Hj. unfold enabledFrom. rewrite list_lookup_insert_ne by lia.
  apply lookup_take_app; lia.
Qed.

Lemma disabledFrom_window (b : list byte) (j : nat) :
  length b = 43 → 10 ≤ j < 15 → disabledFrom b !! j = b !! j.
Proof.
  intros Hlen Hj. unfold disabledFrom. rewrite list_lookup_insert_ne by lia.
  apply lookup_take_app; lia.
Qed.

Lemma withTemperature_window (d : list byte) (percentage : float64) (j : nat) :
  10 ≤ j < 15 → withTemperature d percentage !! j = d !! j.
Proof.
  intros Hj. unfold withTemperature. rewrite !list_lookup_insert_ne by lia. reflexivity.
Qed.

(** On a value long enough, [SetStrength] writes what the timestamp
    update makes of the value with the two temperature bytes stored. *)
Lemma SetStrength_edit (slack : list byte → list byte) (r : Registry) (s d : list byte)
    (percentage : float64) :
  stateValue r = Some s →
  settingsValue r = Some d →
  0x25 ≤ length d →
  ∃ new,
    SetStrength slack r percentage = setSettingsData r (Slice new (slack d))
    ∧ incrementTimestamp (Slice (withTemperature d percentage) (slack d))
      = Ret (Slice new (slack d))
    ∧ bumped 10 15 (withTemperature d percentage) new.
Proof.
  intros Hs Hd Hlen. unfold SetStrength, Supported, getStateData, getSettingsData, readValue.
  rewrite Hs, Hd. cbn [negb mbind outcome_bind]. unfold len. cbn [elems].
  destruct (Nat.ltb_spec (length d) 37) as [|_]; [lia|].
  set (kelvin := percentageToKelvin (clampPercentage percentage)).
  fold (tempHi kelvin). fold (tempLo kelvin).
  rewrite assign_in_range by (unfold len; cbn [elems]; lia).
  cbn [mbind outcome_bind elems spare].
  rewrite assign_in_range by (unfold len; cbn [elems]; rewrite length_insert; lia).
  cbn [mbind outcome_bind elems spare].
  change (<[36 := tempHi kelvin]> (<[35 := tempLo kelvin]> d))
    with (withTemperature d percentage).
  destruct (incrementTimestamp_spec (Slice (withTemperature d percentage) (slack d)))
    as (new & Hrun & Hbump).
  { unfold len, withTemperature. cbn [elems]. rewrite !length_insert. lia. }
  rewrite Hrun. cbn [mbind outcome_bind spare elems] in *.
  exists new. split; [reflexivity|]. split; [reflexivity | exact Hbump].
Qed.

(** C4.  The timestamp update of [Toggle] and [SetStrength] touches
    bytes 10..14 only.  The loop itself: if [k] is the first of these
    offsets whose byte is not 0xFF, it returns the slice with byte [k]
    one greater and every other byte as it was; if all five bytes are
    0xFF it returns the slice as it was, and it does not fail.  [Toggle]
    applies it to the value it has built from the one it read, and
    [SetStrength] to the value with the two temperature bytes stored;
    both values have the timestamp bytes of the value read.  So what
    they write has byte [k] one greater and every other byte as built,
    and is the value as built when the five bytes are 0xFF. *)
Theorem timestamp_update_window (slack : list byte → list byte) :
  (∀ data : slice,
     (∀ k b, 10 ≤ k < 15 →
             elems data !! k = Some b →
             b ≠ xff →
             (∀ j, 10 ≤ j < k → elems data !! j = Some xff) →
             ∃ new, incrementTimestamp data = Ret (Slice new (spare data))
                    ∧ length new = len data
                    ∧ (∃ b', new !! k = Some b' ∧ byte_val b' = (byte_val b + 1)%Z)
                    ∧ ∀ j, j ≠ k → new !! j = elems data !! j)
     ∧ ((∀ j, 10 ≤ j < 15 → elems data !! j = Some xff) →
        incrementTimestamp data = Ret data))
  ∧ (∀ (r : Registry) (b : list byte),
       stateValue r = Some b →
       stateWritable r = true →
       length b = 41 →
       b !! 18 = Some x13 →
       ∃ b', Toggle slack r = Ret (withState r b')
             ∧ incrementTimestamp (Slice (enabledFrom b) []) = Ret (Slice b' [])
             ∧ (∀ j, 10 ≤ j < 15 → enabledFrom b !! j = b !! j)
             ∧ (∀ k c, firstFree b k c →
                       (∃ c', b' !! k = Some c' ∧ byte_val c' = (byte_val c + 1)%Z)
                       ∧ ∀ j, j ≠ k → b' !! j = enabledFrom b !! j)
             ∧ (saturated b → b' = enabledFrom b))
  ∧ (∀ (r : Registry) (b : list byte),
       stateValue r = Some b →
       stateWritable r = true →
       length b = 43 →
       b !! 18 = Some x15 →
       ∃ b', Toggle slack r = Ret (withState r b')
             ∧ incrementTimestamp (Slice (disabledFrom b) []) = Ret (Slice b' [])
             ∧ (∀ j, 10 ≤ j < 15 → disabledFrom b !! j = b !! j)
             ∧ (∀ k c, firstFree b k c →
                       (∃ c', b' !! k = Some c' ∧ byte_val c' = (byte_val c + 1)%Z)
                       ∧ ∀ j, j ≠ k → b' !! j = disabledFrom b !! j)
             ∧ (saturated b → b' = disabledFrom b))
  ∧ (∀ (r : Registry) (s d : list byte) (percentage : float64),
       stateValue r = Some s →
       settingsValue r = Some d →
       settingsWritable r = true →
       0x25 ≤ length d →
       ∃ d', SetStrength slack r percentage = Ret (withSettings r d')
             ∧ incrementTimestamp (Slice (withTemperature d percentage) (slack d))
               = Ret (Slice d' (slack d))
             ∧ (∀ j, 10 ≤ j < 15 → withTemperature d percentage !! j = d !! j)
             ∧ (∀ k c, firstFree d k c →
                       (∃ c', d' !! k = Some c' ∧ byte_val c' = (byte_val c + 1)%Z)
                       ∧ ∀ j, j ≠ k → d' !! j = withTemperature d percentage !! j)
             ∧ (saturated d → d' = withTemperature d percentage)).
Proof.
  split; [|split; [|split]].
  - intros data. split.
    + intros k b Hk Hb Hne Hff.
      exists (<[k := byte_incr b]> (elems data)).
      split; [apply (bumpFrom_at 5 10 data k b); [lia | assumption ..]|].
      split; [apply length_insert|].
      split.
      * exists (byte_incr b). split; [|apply byte_incr_val; exact Hne].
        apply list_lookup_insert_eq. eapply lookup_lt_Some; eassumption.
      * intros j Hj. apply list_lookup_insert_ne. congruence.
    + intros Hall. apply (bumpFrom_saturated 5 10 data). exact Hall.
  - intros r b Hb Hw Hlen Hflag.
    assert (15 ≤ len (Slice (enabledFrom b) [])) as Hlong.
    { unfold len, enabledFrom. cbn [elems].
      rewrite length_insert, !length_app, length_take, length_drop, Hlen. cbn. lia. }
    destruct (incrementTimestamp_spec _ Hlong) as (b' & Hrun & Hbump).
    cbn [elems spare] in Hrun, Hbump.
    exists b'. split.
    { rewrite (Toggle_disabled_run slack r b Hb Hlen Hflag). fold (enabledFrom b).
      rewrite Hrun. cbn [mbind outcome_bind]. unfold setStateData, withState.
      rewrite Hw. reflexivity. }
    split; [exact Hrun|].
    split; [intros j Hj; apply enabledFrom_window; assumption|].
    apply (bumped_window_bytes b); [|exact Hbump].
    intros j Hj. apply enabledFrom_window; assumption.
  - intros r b Hb Hw Hlen Hflag.
    assert (15 ≤ len (Slice (disabledFrom b) [])) as Hlong.
    { unfold len, disabledFrom. cbn [elems].
      rewrite length_insert, !length_app, length_take, length_drop, Hlen. cbn. lia. }
    destruct (incrementTimestamp_spec _ Hlong) as (b' & Hrun & Hbump).
    cbn [elems spare] in Hrun, Hbump.
    exists b'. split.
    { rewrite (Toggle_enabled_run slack r b Hb Hlen Hflag). fold (disabledFrom b).
      rewrite Hrun. cbn [mbind outcome_bind]. unfold setStateData, withState.
      rewrite Hw. reflexivity. }
    split; [exact Hrun|].
    split; [intros j Hj; apply disabledFrom_window; assumption|].
    apply (bumped_window_bytes b); [|exact Hbump].
    intros j Hj. apply disabledFrom_window; assumption.
  - intros r s d percentage Hs Hd Hw Hlen.
    destruct (SetStrength_edit slack r s d percentage Hs Hd Hlen) as (d' & Hrun & Hloop & Hbump).
    exists d'. split.
    { rewrite Hrun. unfold setSettingsData, withSettings. rewrite Hw. reflexivity. }
    split; [exact Hloop|].
    split; [intros j Hj; apply withTemperature_window; assumption|].
    apply (bumped_window_bytes d); [|exact Hbump].
    intros j Hj. apply withTemperature_window; assumption.
Qed.

Lemma timestamp_update_window_witness :
  ((∃ new, incrementTimestamp (Slice sampleDisabled []) = Ret (Slice new [])
           ∧ length new = 41
           ∧ (∃ b', new !! 10 = Some b' ∧ byte_val b' = 6%Z)
           ∧ ∀ j, j ≠ 10 → new !! j = sampleDisabled !! j)
   ∧ incrementTimestamp (Slice sampleSaturated []) = Ret (Slice sampleSaturated []))
  ∧ (∃ b', Toggle noSlack (registryOf sampleDisabled sampleSettings)
           = Ret (withState (registryOf sampleDisabled sampleSettings) b')
           ∧ (∃ c', b' !! 10 = Some c' ∧ byte_val c' = 6%Z)
           ∧ ∀ j, j ≠ 10 → b' !! j = enabledFrom sampleDisabled !! j)
  ∧ (∃ d', SetStrength noSlack (registryOf sampleSaturated sampleSaturated) (f64_of_Z 50)
           = Ret (withSettings (registryOf sampleSaturated sampleSaturated) d')
           ∧ d' = withTemperature sampleSaturated (f64_of_Z 50)).
Proof.
  destruct (timestamp_update_window noSlack) as (Hloop & Hon & _ & Hset).
  split; [split|split].
  - apply (proj1 (Hloop (Slice sampleDisabled [])) 10 x05).
    + lia.
    + reflexivity.
    + discriminate.
    + intros j Hj. lia.
  - apply (proj2 (Hloop (Slice sampleSaturated []))).
    intros j Hj.
    assert (j = 10 ∨ j = 11 ∨ j = 12 ∨ j = 13 ∨ j = 14) as Hcase by lia.
    destruct Hcase as [-> | [-> | [-> | [-> | ->]]]]; reflexivity.
  - destruct (Hon (registryOf sampleDisabled sampleSettings) sampleDisabled
                eq_refl eq_refl eq_refl eq_refl) as (b' & Hrun & _ & _ & Hfirst & _).
    exists b'. split; [exact Hrun|].
    apply (Hfirst 10 x05). unfold firstFree.
    split; [lia|]. split; [reflexivity|]. split; [discriminate|]. intros j Hj. lia.
  - destruct (Hset (registryOf sampleSaturated sampleSaturated) sampleSaturated sampleSaturated
                (f64_of_Z 50) eq_refl eq_refl eq_refl) as (d' & Hrun & _ & _ & _ & Hsat).
    { vm_compute. lia. }
    exists d'. split; [exact Hrun|]. apply Hsat.
    intros j Hj.
    assert (j = 10 ∨ j = 11 ∨ j = 12 ∨ j = 13 ∨ j = 14) as Hcase by lia.
    destruct Hcase as [-> | [-> | [-> | [-> | ->]]]]; reflexivity.
Defined.

(** ** Reading the state *)

(** C2, amended.  [Enabled] rejects a state value only when it is too
    short to hold the flag: for every value of fewer than 19 bytes,
    [Enabled], and with it [Enable], [Disable] and [Toggle], fails with
    the invalid-state-length error; every value of 19 bytes or more is
    accepted, whatever its length and flag, and [Enabled] answers whether
    byte 18 is 0x15. *)
Theorem enabled_length_check (slack : list byte → list byte) (r : Registry) (b : list byte) :
  stateValue r = Some b →
  (length b < 19 →
     Enabled slack r = Fail ErrInvalidStateLength
     ∧ Enable slack r = Fail ErrInvalidStateLength
     ∧ Disable slack r = Fail ErrInvalidStateLength
     ∧ Toggle slack r = Fail ErrInvalidStateLength)
  ∧ (19 ≤ length b →
     ∃ flag, b !! 18 = Some flag ∧ Enabled slack r = Ret (bool_decide (flag = x15))).
Proof.
  intros Hb. pose proof (Enabled_readable slack r b Hb) as He. split.
  - intros Hlen.
    destruct (Nat.ltb_spec (length b) 19) as [_|]; [|lia].
    unfold Enable, Disable, Toggle. rewrite He. repeat split; reflexivity.
  - intros Hlen.
    destruct (Nat.ltb_spec (length b) 19) as [|_]; [lia|].
    destruct (lookup_lt_is_Some_2 b 18 ltac:(lia)) as [flag Hflag].
    exists flag. rewrite Hflag in He. split; [exact Hflag | exact He].
Qed.

Lemma enabled_length_check_witness :
  (Enabled noSlack (registryOf (replicate 18 x15) sampleSettings) = Fail ErrInvalidStateLength
   ∧ Enable noSlack (registryOf (replicate 18 x15) sampleSettings) = Fail ErrInvalidStateLength
   ∧ Disable noSlack (registryOf (replicate 18 x15) sampleSettings) = Fail ErrInvalidStateLength
   ∧ Toggle noSlack (registryOf (replicate 18 x15) sampleSettings) = Fail ErrInvalidStateLength)
  ∧ ∃ flag, replicate 19 x15 !! 18 = Some flag
            ∧ Enabled noSlack (registryOf (replicate 19 x15) sampleSettings)
              = Ret (bool_decide (flag = x15)).
Proof.
  split.
  - apply (proj1 (enabled_length_check noSlack (registryOf (replicate 18 x15) sampleSettings)
                    (replicate 18 x15) eq_refl)).
    apply le_n.
  - apply (proj2 (enabled_length_check noSlack (registryOf (replicate 19 x15) sampleSettings)
                    (replicate 19 x15) eq_refl)).
    apply le_n.
Defined.

(** C2 as stated fails: values of 40 and of 42 bytes, and a value of 41
    bytes whose byte 18 is 0x15, are answered, not rejected. *)
Lemma enabled_accepts_bad_lengths :
  Enabled noSlack (registryOf (replicate 40 x00) sampleSettings) = Ret false
  ∧ Enabled noSlack (registryOf (replicate 42 x00) sampleSettings) = Ret false
  ∧ Enabled noSlack (registryOf (<[18 := x15]> (replicate 41 x00)) sampleSettings) = Ret true.
Proof. repeat split. Qed.

(** C10.  On a state value whose flag and length agree, [Toggle] does not
    panic, whatever lies behind the value in its buffer, and even when
    nothing does ([cap = len]): every index and slice bound is within
    the value.  The agreement is needed: a 19-byte value with flag 0x15
    is taken by [Enabled] as enabled, the disabling branch slices it as
    [data[25:43]], past its end, and [Toggle] panics when [cap = len]. *)
Theorem toggle_in_bounds :
  (∀ (slack : list byte → list byte) (r : Registry) (b : list byte),
     stateValue r = Some b →
     (length b = 41 ∧ b !! 18 = Some x13) ∨ (length b = 43 ∧ b !! 18 = Some x15) →
     Toggle slack r ≠ Panic ∧ Toggle slack r = Toggle noSlack r)
  ∧ (∃ b : list byte,
       19 ≤ length b < 43
       ∧ b !! 18 = Some x15
       ∧ Enabled noSlack (registryOf b sampleSettings) = Ret true
       ∧ reslice (Slice b (noSlack b)) 25 43 = Panic
       ∧ Toggle noSlack (registryOf b sampleSettings) = Panic).
Proof.
  split.
  - intros slack r b Hb Hvalid.
    assert (∀ mid : list byte, 15 ≤ length mid →
              (newData ← incrementTimestamp (Slice mid []); setStateData r newData) ≠ Panic) as Hsafe.
    { intros mid Hmid.
      destruct (incrementTimestamp_spec (Slice mid [])) as (new & Hrun & _); [exact Hmid|].
      rewrite Hrun. cbn. unfold setStateData. destruct (stateWritable r); discriminate. }
    destruct Hvalid as [[Hlen Hflag] | [Hlen Hflag]].
    + rewrite (Toggle_disabled_run slack r b Hb Hlen Hflag),
              (Toggle_disabled_run noSlack r b Hb Hlen Hflag).
      split; [|reflexivity]. apply Hsafe.
      rewrite length_insert, !length_app, length_take, length_drop, Hlen. cbn. lia.
    + rewrite (Toggle_enabled_run slack r b Hb Hlen Hflag),
              (Toggle_enabled_run noSlack r b Hb Hlen Hflag).
      split; [|reflexivity]. apply Hsafe.
      rewrite length_insert, !length_app, length_take, length_drop, Hlen. cbn. lia.
  - exists (replicate 19 x15). cbn. repeat split; lia.
Qed.

Lemma toggle_in_bounds_witness :
  Toggle slack64 (registryOf sampleEnabled sampleSettings) ≠ Panic
  ∧ Toggle slack64 (registryOf sampleEnabled sampleSettings)
    = Toggle noSlack (registryOf sampleEnabled sampleSettings).
Proof.
  apply (proj1 toggle_in_bounds slack64 (registryOf sampleEnabled sampleSettings) sampleEnabled).
  - reflexivity.
  - right. split; reflexivity.
Defined.

(** With room behind a short value the same call does not panic: it
    copies bytes of the buffer that are not part of the value. *)
Lemma toggle_short_enabled_reads_slack :
  ∃ b', Toggle slack64 (registryOf (replicate 19 x15) sampleSettings)
        = Ret (registryOf b' sampleSettings)
        ∧ length b' = 41
        ∧ ∀ j, 19 ≤ j < 41 → b' !! j = Some x00.
Proof.
  eexists. split; [vm_compute; reflexivity|]. split; [reflexivity|].
  intros j [Hlo Hhi].
  do 19 (destruct j as [|j]; [lia|]).
  do 22 (destruct j as [|j]; [reflexivity|]). lia.
Qed.

(** ** The settings value *)

Section SettingsFacts.

Variable slack : list byte → list byte.

Lemma GetStrength_readable (r : Registry) (s d : list byte) :
  stateValue r = Some s →
  settingsValue r = Some d →
  GetStrength slack r =
    if length d <? 0x25 then Fail ErrInvalidSettingsLength
    else match d !! 0x23, d !! 0x24 with
         | Some lo, Some hi => Ret (kelvinToPercentage (bytesToKelvin lo hi))
         | _, _ => Panic
         end.
Proof.
  intros Hs Hd. unfold GetStrength, Supported, getStateData, getSettingsData, readValue.
  rewrite Hs, Hd. cbn [negb mbind outcome_bind]. unfold len, index. cbn [elems].
  destruct (length d <? 37); [reflexivity|].
  destruct (d !! 35); [|reflexivity].
  destruct (d !! 36); reflexivity.
Qed.

Lemma SetStrength_short (r : Registry) (s d : list byte) (percentage : float64) :
  stateValue r = Some s →
  settingsValue r = Some d →
  length d < 0x25 →
  SetStrength slack r percentage = Fail ErrInvalidSettingsLength.
Proof.
  intros Hs Hd Hlen. unfold SetStrength, Supported, getStateData, getSettingsData, readValue.
  rewrite Hs, Hd. cbn [negb mbind outcome_bind]. unfold len. cbn [elems].
  destruct (Nat.ltb_spec (length d) 37); [reflexivity | lia].
Qed.

(** On a value long enough, [SetStrength] stores two bytes, runs the
    timestamp loop and writes the result. *)
Lemma SetStrength_run (r : Registry) (s d : list byte) (percentage : float64) :
  stateValue r = Some s →
  settingsValue r = Some d →
  0x25 ≤ length d →
  ∃ tempLo tempHi new,
    SetStrength slack r percentage = setSettingsData r (Slice new (slack d))
    ∧ bumped 10 15 (<[0x24 := tempHi]> (<[0x23 := tempLo]> d)) new.
Proof.
  intros Hs Hd Hlen. unfold SetStrength, Supported, getStateData, getSettingsData, readValue.
  rewrite Hs, Hd. cbn [negb mbind outcome_bind]. unfold len. cbn [elems].
  destruct (Nat.ltb_spec (length d) 37) as [|_]; [lia|].
  set (kelvin := percentageToKelvin (clampPercentage percentage)).
  set (tempHi := byte_of_f64 (f64_div kelvin (f64_of_Z 64))).
  set (tempLo := byte_of_f64 _).
  rewrite assign_in_range by (unfold len; cbn [elems]; lia).
  cbn [mbind outcome_bind elems spare].
  rewrite assign_in_range by (unfold len; cbn [elems]; rewrite length_insert; lia).
  cbn [mbind outcome_bind elems spare].
  destruct (incrementTimestamp_spec (Slice (<[36 := tempHi]> (<[35 := tempLo]> d)) (slack d)))
    as (new & Hrun & Hbump).
  { unfold len. cbn [elems]. rewrite !length_insert. lia. }
  rewrite Hrun. cbn [mbind outcome_bind spare].
  exists tempLo, tempHi, new. split; [reflexivity | exact Hbump].
Qed.

End SettingsFacts.

(** C6.  For every settings value long enough to pass the length check
    and every percentage, [SetStrength] writes a value of the same
    length that differs from the one read at offsets 0x23 and 0x24 and
    at no more than one offset [k] of 10..14; every other byte, the
    content past offset 0x24 included, is written back as read. *)
Theorem set_strength_frame (slack : list byte → list byte) (r : Registry)
    (s d : list byte) (percentage : float64) :
  stateValue r = Some s →
  settingsValue r = Some d →
  settingsWritable r = true →
  0x25 ≤ length d →
  ∃ d' k, SetStrength slack r percentage = Ret (withSettings r d')
          ∧ length d' = length d
          ∧ 10 ≤ k < 15
          ∧ ∀ j, j ≠ 0x23 → j ≠ 0x24 → j ≠ k → d' !! j = d !! j.
Proof.
  intros Hs Hd Hw Hlen.
  destruct (SetStrength_run slack r s d percentage Hs Hd Hlen)
    as (tempLo & tempHi & new & Hrun & Hbump).
  assert (SetStrength slack r percentage = Ret (withSettings r new)) as Hret.
  { rewrite Hrun. unfold setSettingsData, withSettings. rewrite Hw. reflexivity. }
  pose proof (bumped_length _ _ _ _ Hbump) as Hl. rewrite !length_insert in Hl.
  destruct Hbump as [_ Hnew | k b Hk _ _ _ Hnew].
  - exists new, 10. repeat split; try assumption; try lia.
    intros j H23 H24 _. rewrite Hnew, !list_lookup_insert_ne by congruence. reflexivity.
  - exists new, k. repeat split; try assumption; try lia.
    intros j H23 H24 Hjk. rewrite Hnew, !list_lookup_insert_ne by congruence. reflexivity.
Qed.

Lemma set_strength_frame_witness :
  ∃ d' k, SetStrength noSlack (registryOf sampleDisabled sampleSettings) (f64_of_Z 75)
          = Ret (withSettings (registryOf sampleDisabled sampleSettings) d')
          ∧ length d' = length sampleSettings
          ∧ 10 ≤ k < 15
          ∧ ∀ j, j ≠ 0x23 → j ≠ 0x24 → j ≠ k → d' !! j = sampleSettings !! j.
Proof.
  apply (set_strength_frame noSlack (registryOf sampleDisabled sampleSettings)
           sampleDisabled sampleSettings (f64_of_Z 75));
    [reflexivity | reflexivity | reflexivity | vm_compute; lia].
Defined.

(** C9, amended.  The settings length check rejects exactly the values
    shorter than 0x25 (37) bytes: on every value of fewer than 0x25
    bytes [GetStrength] and [SetStrength] fail with the
    invalid-settings-length error, and on every value of 0x25 bytes or
    more the check passes: [GetStrength] returns a strength and
    [SetStrength] goes on to write. *)
Theorem settings_length_check (slack : list byte → list byte) (r : Registry)
    (s d : list byte) (percentage : float64) :
  stateValue r = Some s →
  settingsValue r = Some d →
  (length d < 0x25 →
     GetStrength slack r = Fail ErrInvalidSettingsLength
     ∧ SetStrength slack r percentage = Fail ErrInvalidSettingsLength)
  ∧ (0x25 ≤ length d →
     (∃ v, GetStrength slack r = Ret v)
     ∧ (∃ new, SetStrength slack r percentage = setSettingsData r new)).
Proof.
  intros Hs Hd. split; intros Hlen.
  - split; [|apply (SetStrength_short slack r s d percentage Hs Hd Hlen)].
    rewrite (GetStrength_readable slack r s d Hs Hd).
    destruct (Nat.ltb_spec (length d) 37); [reflexivity | lia].
  - split.
    + rewrite (GetStrength_readable slack r s d Hs Hd).
      destruct (Nat.ltb_spec (length d) 37) as [|_]; [lia|].
      destruct (lookup_lt_is_Some_2 d 35 ltac:(lia)) as [lo ->].
      destruct (lookup_lt_is_Some_2 d 36 ltac:(lia)) as [hi ->].
      eexists. reflexivity.
    + destruct (SetStrength_run slack r s d percentage Hs Hd Hlen)
        as (tempLo & tempHi & new & Hrun & _).
      eexists. exact Hrun.
Qed.

Lemma settings_length_check_witness :
  (GetStrength noSlack (registryOf sampleDisabled (replicate 36 x00)) = Fail ErrInvalidSettingsLength
   ∧ SetStrength noSlack (registryOf sampleDisabled (replicate 36 x00)) (f64_of_Z 75)
     = Fail ErrInvalidSettingsLength)
  ∧ (∃ v, GetStrength noSlack (registryOf sampleDisabled sampleSettings) = Ret v)
  ∧ (∃ new, SetStrength noSlack (registryOf sampleDisabled sampleSettings) (f64_of_Z 75)
            = setSettingsData (registryOf sampleDisabled sampleSettings) new).
Proof.
  split.
  - apply (proj1 (settings_length_check noSlack (registryOf sampleDisabled (replicate 36 x00))
                    sampleDisabled (replicate 36 x00) (f64_of_Z 75) eq_refl eq_refl)).
    vm_compute. lia.
  - apply (proj2 (settings_length_check noSlack (registryOf sampleDisabled sampleSettings)
                    sampleDisabled sampleSettings (f64_of_Z 75) eq_refl eq_refl)).
    vm_compute. lia.
Defined.

(** C9 as stated fails: a settings value of 37 bytes is shorter than
    0x25+1 = 38, yet [GetStrength] and [SetStrength] accept it. *)
Lemma settings_length_37_accepted :
  length sampleSettings = 37
  ∧ length sampleSettings < 0x25 + 1
  ∧ (∃ v, GetStrength noSlack (registryOf sampleDisabled sampleSettings) = Ret v)
  ∧ (∃ r', SetStrength noSlack (registryOf sampleDisabled sampleSettings) (f64_of_Z 75) = Ret r').
Proof.
  split; [reflexivity|]. split; [vm_compute; lia|].
  split; eexists; vm_compute; reflexivity.
Qed.

(** ** float64 arithmetic *)

(** *** Powers of two *)
Lemma bpow_pos (e : Z) : (0 < bpow e)%R.
Proof. apply powerRZ_lt. lra. Qed.

Lemma bpow_add (a b : Z) : bpow (a + b) = (bpow a * bpow b)%R.
Proof. apply powerRZ_add. lra. Qed.

Lemma bpow_1 : bpow 1 = 2%R.
Proof. unfold bpow. simpl. lra. Qed.

Lemma bpow_0 : bpow 0 = 1%R.
Proof. reflexivity. Qed.

Lemma bpow_le (a b : Z) : (a ≤ b)%Z → (bpow a <= bpow b)%R.
Proof.
  intros H. replace b with (a + (b - a))%Z by lia. rewrite bpow_add.
  assert (1 <= bpow (b - a))%R as H1.
  { destruct (b - a)%Z as [|k|k] eqn:E; try lia.
    - rewrite bpow_0. lra.
    - unfold bpow. simpl. apply pow_R1_Rle. lra. }
  pose proof (bpow_pos a). nra.
Qed.

Lemma bpow_lt (a b : Z) : (a < b)%Z → (bpow a < bpow b)%R.
Proof.
  intros H. replace b with ((a + 1) + (b - a - 1))%Z by lia.
  pose proof (bpow_le (a + 1) (a + 1 + (b - a - 1)) ltac:(lia)) as H1.
  rewrite (bpow_add a 1), bpow_1 in H1 at 1.
  pose proof (bpow_pos a). lra.
Qed.

Lemma bpow_le_inv (a b : Z) : (bpow a <= bpow b)%R → (a ≤ b)%Z.
Proof.
  intros H. destruct (Z_le_gt_dec a b) as [|Hgt]; [assumption|].
  pose proof (bpow_lt b a ltac:(lia)). lra.
Qed.

Lemma IZR_pow2 (k : Z) : (0 ≤ k)%Z → IZR (2 ^ k) = bpow k.
Proof.
  intros Hk. destruct k as [|k|k]; try lia; [reflexivity|].
  unfold bpow. rewrite <- Zpower_pos_powerRZ. reflexivity.
Qed.

(** *** Digits *)

Lemma digits2_pos_size (m : positive) : digits2_pos m = Pos.size m.
Proof. induction m; simpl; congruence. Qed.

Lemma digits2_pos_bounds (m : positive) :
  (2 ^ (Z.pos (digits2_pos m) - 1) ≤ Z.pos m < 2 ^ Z.pos (digits2_pos m))%Z.
Proof.
  rewrite digits2_pos_size. split.
  - pose proof (Pos.size_le m) as H.
    assert (Z.pos (2 ^ Pos.size m) ≤ Z.pos m~0)%Z as H' by exact H.
    rewrite Pos2Z.inj_pow in H'.
    replace (Z.pos (Pos.size m)) with (Z.pos (Pos.size m) - 1 + 1)%Z in H' by lia.
    rewrite Z.pow_add_r in H' by lia. lia.
  - pose proof (Pos.size_gt m) as H.
    assert (Z.pos m < Z.pos (2 ^ Pos.size m))%Z as H' by exact H.
    rewrite Pos2Z.inj_pow in H'. exact H'.
Qed.

Lemma Zdigits2_nonneg (m : Z) : (0 ≤ Zdigits2 m)%Z.
Proof. destruct m; simpl; lia. Qed.

Lemma Zdigits2_upper (m k : Z) : (0 ≤ k)%Z → (0 ≤ m < 2 ^ k)%Z → (Zdigits2 m ≤ k)%Z.
Proof.
  intros Hk [Hm0 Hm]. destruct m as [|m|m]; simpl; try lia.
  pose proof (digits2_pos_bounds m) as [Hlo _].
  assert (2 ^ (Z.pos (digits2_pos m) - 1) < 2 ^ k)%Z as H by lia.
  apply Z.pow_lt_mono_r_iff in H; lia.
Qed.

Lemma Zdigits2_lower (m k : Z) : (0 ≤ k)%Z → (2 ^ k ≤ m)%Z → (k + 1 ≤ Zdigits2 m)%Z.
Proof.
  intros Hk Hm. assert (0 < 2 ^ k)%Z by (apply Z.pow_pos_nonneg; lia).
  destruct m as [|m|m]; simpl; try lia.
  pose proof (digits2_pos_bounds m) as [_ Hhi].
  assert (2 ^ k < 2 ^ Z.pos (digits2_pos m))%Z as H' by lia.
  apply Z.pow_lt_mono_r_iff in H'; lia.
Qed.

Lemma Zdigits2_pos_bounds (m : Z) :
  (0 < m)%Z → (2 ^ (Zdigits2 m - 1) ≤ m < 2 ^ Zdigits2 m)%Z.
Proof.
  destruct m as [|m|m]; try lia. intros _. apply digits2_pos_bounds.
Qed.

(** *** Shifting and rounding *)

Lemma shr_1_m (mrs : shr_record) :
  (0 ≤ shr_m mrs)%Z → shr_m (shr_1 mrs) = (shr_m mrs / 2)%Z.
Proof.
  destruct mrs as [m r s]. simpl. intros Hm.
  rewrite <- Z.div2_div.
  destruct m as [|[p|p|]|p]; try reflexivity; lia.
Qed.

Lemma pow2_xI (p : positive) : (2 ^ Z.pos p~1 = 2 * (2 ^ Z.pos p * 2 ^ Z.pos p))%Z.
Proof.
  replace (Z.pos p~1) with (1 + (Z.pos p + Z.pos p))%Z by lia.
  rewrite !Z.pow_add_r by lia. reflexivity.
Qed.

Lemma pow2_xO (p : positive) : (2 ^ Z.pos p~0 = 2 ^ Z.pos p * 2 ^ Z.pos p)%Z.
Proof.
  replace (Z.pos p~0) with (Z.pos p + Z.pos p)%Z by lia.
  rewrite !Z.pow_add_r by lia. reflexivity.
Qed.

Lemma iter_pos_shr_m (p : positive) :
  ∀ mrs, (0 ≤ shr_m mrs)%Z →
         shr_m (SpecFloat.iter_pos shr_1 p mrs) = (shr_m mrs / 2 ^ Z.pos p)%Z.
Proof.
  assert (∀ q, 0 < 2 ^ Z.pos q)%Z as Hpow by (intros q; apply Z.pow_pos_nonneg; lia).
  induction p as [p IH|p IH|]; intros mrs Hm; simpl SpecFloat.iter_pos.
  - assert (0 ≤ shr_m (shr_1 mrs))%Z as H1 by (rewrite shr_1_m by lia; apply Z.div_pos; lia).
    assert (0 ≤ shr_m (SpecFloat.iter_pos shr_1 p (shr_1 mrs)))%Z as H2
      by (rewrite IH by lia; apply Z.div_pos; [lia | apply Hpow]).
    rewrite IH, IH, shr_1_m by lia.
    pose proof (Hpow p).
    rewrite !Z.div_div by lia. f_equal. rewrite pow2_xI. lia.
  - assert (0 ≤ shr_m (SpecFloat.iter_pos shr_1 p mrs))%Z as H2
      by (rewrite IH by lia; apply Z.div_pos; [lia | apply Hpow]).
    rewrite IH, IH by lia.
    pose proof (Hpow p).
    rewrite !Z.div_div by lia. f_equal. rewrite pow2_xO. lia.
  - rewrite shr_1_m by lia. reflexivity.
Qed.

Lemma shr_record_of_loc_m (m : Z) (l : location) : shr_m (shr_record_of_loc m l) = m.
Proof. destruct l as [|[]]; reflexivity. Qed.

(** [shr] by [n] places divides the mantissa by [2^n]. *)
Lemma shr_spec (mrs : shr_record) (e n : Z) :
  (0 ≤ shr_m mrs)%Z → (0 ≤ n)%Z →
  shr_m (fst (shr mrs e n)) = (shr_m mrs / 2 ^ n)%Z ∧ snd (shr mrs e n) = (e + n)%Z.
Proof.
  intros Hm Hn. destruct n as [|p|p]; try lia; simpl.
  - rewrite Z.div_1_r. split; [reflexivity | lia].
  - split; [|reflexivity]. apply iter_pos_shr_m. exact Hm.
Qed.

Lemma round_nearest_even_bounds (m : Z) (l : location) :
  (m ≤ round_nearest_even m l ≤ m + 1)%Z.
Proof.
  destruct l as [|[]]; simpl; try lia. destruct (Z.even m); lia.
Qed.

Lemma fexp_eq (e : Z) : fexp prec emax e = Z.max (e - 53) (-1074).
Proof. reflexivity. Qed.

(** The two shifts and the rounding of [binary_round_aux], on a
    mantissa whose exponent is not above the target exponent. *)
Lemma binary_round_aux_spec (sx : bool) (mx ex : Z) (lx : location) :
  (0 ≤ mx)%Z →
  (ex ≤ fexp prec emax (Zdigits2 mx + ex))%Z →
  ∃ mr m2 e2,
    let e1 := fexp prec emax (Zdigits2 mx + ex) in
    (mx / 2 ^ (e1 - ex) ≤ mr ≤ mx / 2 ^ (e1 - ex) + 1)%Z
    ∧ (e1 ≤ e2 ≤ e1 + 1)%Z
    ∧ m2 = (mr / 2 ^ (e2 - e1))%Z
    ∧ binary_round_aux prec emax sx mx ex lx =
        match m2 with
        | Z0 => S754_zero sx
        | Z.pos m => if (e2 <=? emax - prec)%Z then S754_finite sx m e2 else S754_infinity sx
        | Z.neg _ => S754_nan
        end.
Proof.
  intros Hmx Hex. set (e1 := fexp prec emax (Zdigits2 mx + ex)) in *.
  unfold binary_round_aux, shr_fexp. fold e1.
  pose proof (shr_spec (shr_record_of_loc mx lx) ex (e1 - ex)) as Hs1.
  rewrite shr_record_of_loc_m in Hs1. specialize (Hs1 Hmx ltac:(lia)).
  destruct (shr (shr_record_of_loc mx lx) ex (e1 - ex)) as [mrs1 e1'] eqn:E1.
  simpl in Hs1. destruct Hs1 as [Hm1 He1]. replace (ex + (e1 - ex))%Z with e1 in He1 by lia.
  subst e1'.
  set (mr := round_nearest_even (shr_m mrs1) (loc_of_shr_record mrs1)).
  pose proof (round_nearest_even_bounds (shr_m mrs1) (loc_of_shr_record mrs1)) as Hr.
  fold mr in Hr. rewrite Hm1 in Hr.
  assert (0 < 2 ^ (e1 - ex))%Z as Hp1 by (apply Z.pow_pos_nonneg; lia).
  assert (0 ≤ mx / 2 ^ (e1 - ex))%Z as Hq1 by (apply Z.div_pos; lia).
  (* the mantissa after the first shift has at most 53 digits *)
  assert (mx / 2 ^ (e1 - ex) < 2 ^ 53)%Z as Hsmall.
  { apply Z.div_lt_upper_bound; [lia|].
    destruct (Z.eq_dec mx 0%Z) as [->|Hnz]; [simpl; lia|].
    pose proof (Zdigits2_pos_bounds mx ltac:(lia)) as [_ Hhi].
    eapply Z.lt_le_trans; [exact Hhi|].
    rewrite <- Z.pow_add_r by lia. apply Z.pow_le_mono_r; [lia|].
    unfold e1. rewrite fexp_eq. lia. }
  assert (Zdigits2 mr ≤ 54)%Z as Hdr.
  { apply Zdigits2_upper; [lia|]. change (2 ^ 54)%Z with (2 * 2 ^ 53)%Z. lia. }
  pose proof (Zdigits2_nonneg mr) as Hdr0.
  set (e2 := fexp prec emax (Zdigits2 mr + e1)).
  assert (e1 ≤ e2 ≤ e1 + 1 ∨ e2 < e1)%Z as Hcase.
  { unfold e2. rewrite fexp_eq. unfold e1 in *. rewrite fexp_eq in *. lia. }
  destruct Hcase as [He2 | He2].
  - pose proof (shr_spec (shr_record_of_loc mr loc_Exact) e1 (e2 - e1)) as Hs2.
    rewrite shr_record_of_loc_m in Hs2. specialize (Hs2 ltac:(lia) ltac:(lia)).
    fold e2.
    destruct (shr (shr_record_of_loc mr loc_Exact) e1 (e2 - e1)) as [mrs2 e2'] eqn:E2.
    simpl in Hs2. destruct Hs2 as [Hm2 He2']. replace (e1 + (e2 - e1))%Z with e2 in He2' by lia.
    subst e2'.
    exists mr, (shr_m mrs2), e2. cbv zeta. repeat split; try lia; try assumption.
  - fold e2.
    assert (shr (shr_record_of_loc mr loc_Exact) e1 (e2 - e1) = (shr_record_of_loc mr loc_Exact, e1)) as E2.
    { unfold shr. destruct (e2 - e1)%Z eqn:E; try reflexivity. lia. }
    rewrite E2. rewrite shr_record_of_loc_m.
    exists mr, mr, e1. cbv zeta. repeat split; try lia.
    rewrite Z.sub_diag, Z.pow_0_r, Z.div_1_r. reflexivity.
Qed.

(** Dividing a mantissa by [2^n] and raising the exponent by [n] brackets
    the value. *)
Lemma div_pow2_bracket (m n e : Z) :
  (0 ≤ m)%Z → (0 ≤ n)%Z →
  (IZR (m / 2 ^ n) * bpow (e + n) <= IZR m * bpow e)%R
  ∧ (IZR (m + 1) * bpow e <= IZR (m / 2 ^ n + 1) * bpow (e + n))%R.
Proof.
  intros Hm Hn.
  assert (0 < 2 ^ n)%Z as Hp by (apply Z.pow_pos_nonneg; lia).
  pose proof (Z.mul_div_le m (2 ^ n) Hp) as Hlo.
  pose proof (Z.mul_succ_div_gt m (2 ^ n) Hp) as Hhi.
  rewrite bpow_add, <- (IZR_pow2 n Hn).
  pose proof (bpow_pos e) as He.
  split.
  - apply IZR_le in Hlo. rewrite mult_IZR in Hlo. nra.
  - assert (m + 1 ≤ 2 ^ n * (m / 2 ^ n + 1))%Z as Hhi' by lia.
    apply IZR_le in Hhi'. rewrite mult_IZR in Hhi'. nra.
Qed.

(** [binary_round_aux] on a value of magnitude at most [2^14]: the
    result is a number within [3 * 2^-38] of it. *)
Lemma binary_round_aux_value (sx : bool) (mx ex : Z) (lx : location) (x : R) :
  (0 ≤ mx)%Z →
  (ex ≤ fexp prec emax (Zdigits2 mx + ex))%Z →
  (IZR mx * bpow ex <= x <= IZR (mx + 1) * bpow ex)%R →
  (x <= bpow 14)%R →
  f64_finite (binary_round_aux prec emax sx mx ex lx) = true
  ∧ (Rabs (F2R (binary_round_aux prec emax sx mx ex lx) - sign_of sx * x) <= 3 * bpow (-38))%R.
Proof.
  intros Hmx Hex Hx Hbig.
  destruct (binary_round_aux_spec sx mx ex lx Hmx Hex) as (mr & m2 & e2 & Hmr & He2 & Hm2 & Hres).
  cbv zeta in *. set (e1 := fexp prec emax (Zdigits2 mx + ex)) in *.
  (* the target exponent is small *)
  assert (e1 ≤ -38)%Z as He1.
  { unfold e1. rewrite fexp_eq. destruct (Z.eq_dec mx 0%Z) as [->|Hnz].
    - unfold e1 in Hex. rewrite fexp_eq in Hex. simpl in *. lia.
    - pose proof (Zdigits2_pos_bounds mx ltac:(lia)) as [Hlo _].
      pose proof (Zdigits2_nonneg mx).
      assert (Zdigits2 mx ≠ 0%Z) by (destruct mx; simpl; lia).
      apply IZR_le in Hlo. rewrite IZR_pow2 in Hlo by lia.
      assert (bpow (Zdigits2 mx - 1 + ex) <= bpow 14)%R as Hb.
      { rewrite bpow_add. pose proof (bpow_pos ex). nra. }
      apply bpow_le_inv in Hb. lia. }
  pose proof (div_pow2_bracket mx (e1 - ex) ex Hmx ltac:(lia)) as [Hb1 Hb2].
  replace (ex + (e1 - ex))%Z with e1 in * by lia.
  assert (0 ≤ mx / 2 ^ (e1 - ex))%Z as Hq1
      by (apply Z.div_pos; [lia | apply Z.pow_pos_nonneg; lia]).
  pose proof (div_pow2_bracket mr (e2 - e1) e1 ltac:(lia) ltac:(lia)) as [Hc1 Hc2].
  replace (e1 + (e2 - e1))%Z with e2 in * by lia. rewrite <- Hm2 in Hc1, Hc2.
  assert (0 ≤ m2)%Z as Hm2pos
      by (subst m2; apply Z.div_pos; [lia | apply Z.pow_pos_nonneg; lia]).
  assert (bpow e2 <= 2 * bpow e1)%R as Hbe2.
  { pose proof (bpow_le e2 (e1 + 1) ltac:(lia)) as H. rewrite bpow_add, bpow_1 in H. lra. }
  pose proof (bpow_le e1 (-38) He1) as Hbe1.
  pose proof (bpow_pos e1) as Hp1. pose proof (bpow_pos e2) as Hp2.
  destruct Hmr as [Hmr1 Hmr2]. apply IZR_le in Hmr1, Hmr2.
  rewrite !plus_IZR in Hmr2. rewrite !plus_IZR in Hb2. rewrite !plus_IZR in Hc2.
  assert (F2R (binary_round_aux prec emax sx mx ex lx) = (sign_of sx * (IZR m2 * bpow e2))%R
          ∧ f64_finite (binary_round_aux prec emax sx mx ex lx) = true) as [HF Hfin].
  { rewrite Hres. destruct m2 as [|m|m]; [| |lia].
    - simpl. split; [lra | reflexivity].
    - assert ((e2 <=? emax - prec)%Z = true) as -> by (apply Z.leb_le; unfold emax, prec; lia).
      simpl. unfold sign_of. split; [destruct sx; lra | reflexivity]. }
  split; [exact Hfin|].
  rewrite HF. rewrite <- Rmult_minus_distr_l, Rabs_mult.
  assert (Rabs (sign_of sx) = 1)%R as ->
      by (unfold sign_of; destruct sx; [rewrite Rabs_left | rewrite Rabs_right]; lra).
  rewrite Rmult_1_l. apply Rabs_le.
  rewrite plus_IZR in Hx.
  set (q1 := IZR (mx / 2 ^ (e1 - ex))) in *.
  assert (q1 * bpow e1 <= x <= q1 * bpow e1 + bpow e1)%R as Hq by lra.
  assert (q1 * bpow e1 <= IZR mr * bpow e1 <= q1 * bpow e1 + bpow e1)%R as Hr by nra.
  assert (IZR mr * bpow e1 - bpow e1 <= IZR m2 * bpow e2 <= IZR mr * bpow e1)%R as Hs by lra.
  lra.
Qed.

Lemma fexp_mono (a b : Z) : (a ≤ b)%Z → (fexp prec emax a ≤ fexp prec emax b)%Z.
Proof. intros H. rewrite !fexp_eq. lia. Qed.

Lemma fexp_ge (a : Z) : (a - 53 ≤ fexp prec emax a)%Z.
Proof. rewrite fexp_eq. lia. Qed.

Lemma sign_of_xorb (a b : bool) : sign_of (xorb a b) = (sign_of a * sign_of b)%R.
Proof. destruct a, b; unfold sign_of; simpl; lra. Qed.

Lemma F2R_finite (s : bool) (m : positive) (e : Z) :
  F2R (S754_finite s m e) = (sign_of s * (IZR (Z.pos m) * bpow e))%R.
Proof. reflexivity. Qed.

Lemma Rabs_sign_of (s : bool) (x : R) : Rabs (sign_of s * x) = Rabs x.
Proof.
  rewrite Rabs_mult. unfold sign_of.
  destruct s; [rewrite Rabs_left | rewrite Rabs_right]; lra.
Qed.

(** *** Multiplication *)

Lemma f64_mul_value (x y : float64) :
  f64_finite x = true →
  f64_normal y = true →
  (Rabs (F2R x * F2R y) <= bpow 14)%R →
  f64_finite (f64_mul x y) = true
  ∧ (Rabs (F2R (f64_mul x y) - F2R x * F2R y) <= delta)%R.
Proof.
  intros Hx Hy Hbig.
  destruct y as [| | |sy my ey]; try discriminate Hy.
  destruct x as [sx| | |sx mx ex]; try discriminate Hx.
  - simpl. split; [reflexivity|].
    rewrite Rmult_0_l, Rminus_0_r, Rabs_R0. unfold delta. pose proof (bpow_pos (-38)). lra.
  - unfold f64_mul, SFmul.
    rewrite !F2R_finite in *.
    set (X := (IZR (Z.pos (mx * my)) * bpow (ex + ey))%R).
    assert ((sign_of sx * (IZR (Z.pos mx) * bpow ex) * (sign_of sy * (IZR (Z.pos my) * bpow ey)))%R
            = (sign_of (xorb sx sy) * X)%R) as EX.
    { unfold X. rewrite sign_of_xorb, Pos2Z.inj_mul, mult_IZR, bpow_add. ring. }
    rewrite EX in *. rewrite Rabs_sign_of in Hbig.
    assert (0 <= X)%R as HX0.
    { unfold X. pose proof (bpow_pos (ex + ey)).
      assert (0 < IZR (Z.pos (mx * my)))%R by (apply IZR_lt; lia). nra. }
    rewrite Rabs_right in Hbig by lra.
    apply binary_round_aux_value.
    + lia.
    + apply Pos.eqb_eq in Hy. simpl in Hy.
      pose proof (digits2_pos_bounds my) as [Hlo _]. rewrite Hy in Hlo.
      assert (52 + 1 ≤ Zdigits2 (Z.pos (mx * my)))%Z as Hd.
      { apply Zdigits2_lower; [lia|]. change (53 - 1)%Z with 52%Z in Hlo. nia. }
      pose proof (fexp_ge (Zdigits2 (Z.pos (mx * my)) + (ex + ey))). lia.
    + fold X. rewrite plus_IZR. pose proof (bpow_pos (ex + ey)). unfold X. nra.
    + exact Hbig.
Qed.

(** *** Division *)

Lemma div_eucl_div (a b : Z) : fst (Z.div_eucl a b) = (a / b)%Z.
Proof. reflexivity. Qed.

Lemma SFdiv_core_binary_spec (m1 m2 : positive) (e1 e2 : Z) :
  ∃ q e l,
    SFdiv_core_binary prec emax (Z.pos m1) e1 (Z.pos m2) e2 = (q, e, l)
    ∧ (e ≤ e1 - e2)%Z
    ∧ q = (Z.pos m1 * 2 ^ (e1 - e2 - e) / Z.pos m2)%Z
    ∧ (e ≤ fexp prec emax (Zdigits2 q + e))%Z.
Proof.
  unfold SFdiv_core_binary.
  set (d1 := Zdigits2 (Z.pos m1)). set (d2 := Zdigits2 (Z.pos m2)).
  set (e := Z.min (fexp prec emax (d1 + e1 - (d2 + e2))) (e1 - e2)).
  set (s := (e1 - e2 - e)%Z).
  assert (0 ≤ s)%Z as Hs by (unfold s, e; lia).
  set (m' := match s with Z.pos _ => Z.shiftl (Z.pos m1) s | Z0 => Z.pos m1 | Z.neg _ => 0%Z end).
  assert (m' = Z.pos m1 * 2 ^ s)%Z as Hm'.
  { unfold m'. destruct s as [|p|p] eqn:Es; try lia.
    rewrite Z.shiftl_mul_pow2 by lia. reflexivity. }
  destruct (Z.div_eucl m' (Z.pos m2)) as [q r] eqn:Ediv.
  assert (q = m' / Z.pos m2)%Z as Hq by (rewrite <- div_eucl_div, Ediv; reflexivity).
  exists q, e, (new_location (Z.pos m2) r).
  split; [reflexivity|]. split; [unfold e; lia|]. split; [rewrite Hq, Hm'; reflexivity|].
  (* the quotient has enough digits *)
  assert (d1 + s - d2 ≤ Zdigits2 q)%Z as Hd.
  { pose proof (Zdigits2_nonneg q).
    destruct (Z_le_gt_dec (d1 + s - d2) 0) as [|Hpos]; [lia|].
    replace (d1 + s - d2)%Z with ((d1 + s - d2 - 1) + 1)%Z by lia.
    apply Zdigits2_lower; [lia|].
    rewrite Hq, Hm'. apply Z.div_le_lower_bound; [lia|].
    pose proof (digits2_pos_bounds m1) as [Hlo1 _].
    pose proof (digits2_pos_bounds m2) as [_ Hhi2].
    fold d1 in Hlo1. fold d2 in Hhi2. unfold d1, d2 in *. simpl Zdigits2 in *.
    set (D1 := Z.pos (digits2_pos m1)) in *. set (D2 := Z.pos (digits2_pos m2)) in *.
    assert (2 ^ (D1 + s - D2 - 1) * 2 ^ D2 = 2 ^ (D1 - 1) * 2 ^ s)%Z as Hpow.
    { rewrite <- !Z.pow_add_r by lia. f_equal. lia. }
    assert (0 < 2 ^ (D1 + s - D2 - 1))%Z by (apply Z.pow_pos_nonneg; lia).
    assert (0 < 2 ^ s)%Z by (apply Z.pow_pos_nonneg; lia).
    nia. }
  eapply Z.le_trans; [apply Z.le_min_l|]. apply fexp_mono. unfold s in Hd. lia.
Qed.

Lemma f64_div_value (x y : float64) :
  f64_finite x = true →
  (∃ sy my ey, y = S754_finite sy my ey) →
  (Rabs (F2R x / F2R y) <= bpow 14)%R →
  f64_finite (f64_div x y) = true
  ∧ (Rabs (F2R (f64_div x y) - F2R x / F2R y) <= delta)%R.
Proof.
  intros Hx (sy & my & ey & ->) Hbig.
  destruct x as [sx| | |sx mx ex]; try discriminate Hx.
  - simpl. split; [reflexivity|].
    unfold Rdiv. rewrite Rmult_0_l, Rminus_0_r, Rabs_R0.
    unfold delta. pose proof (bpow_pos (-38)). lra.
  - unfold f64_div, SFdiv.
    destruct (SFdiv_core_binary_spec mx my ex ey) as (q & e & l & -> & He & Hq & Hpre).
    set (s := (ex - ey - e)%Z) in *.
    assert (0 ≤ s)%Z as Hs by (unfold s; lia).
    assert (0 < 2 ^ s)%Z as Hps by (apply Z.pow_pos_nonneg; lia).
    assert (0 ≤ q)%Z as Hq0 by (rewrite Hq; apply Z.div_pos; lia).
    rewrite !F2R_finite in *.
    pose proof (bpow_pos ex) as Hbx. pose proof (bpow_pos ey) as Hby. pose proof (bpow_pos e) as Hbe.
    assert (0 < IZR (Z.pos mx))%R as Hmx by (apply IZR_lt; lia).
    assert (0 < IZR (Z.pos my))%R as Hmy by (apply IZR_lt; lia).
    set (X := (IZR (Z.pos mx) * bpow ex / (IZR (Z.pos my) * bpow ey))%R).
    assert ((sign_of sx * (IZR (Z.pos mx) * bpow ex) / (sign_of sy * (IZR (Z.pos my) * bpow ey)))%R
            = (sign_of (xorb sx sy) * X)%R) as EX.
    { unfold X. rewrite sign_of_xorb. unfold sign_of. destruct sx, sy; field; lra. }
    rewrite EX in *. rewrite Rabs_sign_of in Hbig.
    assert (0 <= X)%R as HX0.
    { unfold X. apply Rmult_le_pos; [nra|]. apply Rlt_le, Rinv_0_lt_compat. nra. }
    rewrite Rabs_right in Hbig by lra.
    (* the real quotient, on the scale of [e] *)
    assert (X * (IZR (Z.pos my)) = IZR (Z.pos mx * 2 ^ s) * bpow e)%R as HXe.
    { unfold X. rewrite mult_IZR, (IZR_pow2 s Hs).
      replace ex with (ey + (e + s))%Z at 1 by (unfold s; lia).
      rewrite !bpow_add. field. lra. }
    pose proof (Z.mul_div_le (Z.pos mx * 2 ^ s) (Z.pos my) ltac:(lia)) as Hlo.
    pose proof (Z.mul_succ_div_gt (Z.pos mx * 2 ^ s) (Z.pos my) ltac:(lia)) as Hhi.
    rewrite <- Hq in Hlo, Hhi.
    assert (Z.pos mx * 2 ^ s + 1 ≤ Z.pos my * (q + 1))%Z as Hhi' by lia.
    apply IZR_le in Hlo, Hhi'.
    repeat rewrite ?mult_IZR, ?plus_IZR in Hlo. repeat rewrite ?mult_IZR, ?plus_IZR in Hhi'.
    rewrite mult_IZR in HXe.
    apply binary_round_aux_value; try assumption.
    apply (Rmult_le_compat_r (bpow e)) in Hlo, Hhi'; try lra.
    rewrite plus_IZR. split.
    + apply (Rmult_le_reg_r (IZR (Z.pos my))); [exact Hmy|]. rewrite HXe. lra.
    + apply (Rmult_le_reg_r (IZR (Z.pos my))); [exact Hmy|]. rewrite HXe. lra.
Qed.

(** *** Subtraction *)

Lemma iter_xO_value (m d : positive) : Z.pos (Pos.iter xO m d) = (Z.pos m * 2 ^ Z.pos d)%Z.
Proof.
  induction d as [|d IH] using Pos.peano_ind.
  - simpl. lia.
  - rewrite Pos.iter_succ, Pos2Z.inj_xO, IH, Pos2Z.inj_succ, Z.pow_succ_r by lia. lia.
Qed.

Lemma iter_xO_digits (m d : positive) :
  Z.pos (digits2_pos (Pos.iter xO m d)) = (Z.pos (digits2_pos m) + Z.pos d)%Z.
Proof.
  induction d as [|d IH] using Pos.peano_ind.
  - simpl. lia.
  - rewrite Pos.iter_succ. simpl digits2_pos. rewrite Pos2Z.inj_succ, IH. lia.
Qed.

Lemma bpow_split (e ez : Z) : bpow e = (bpow ez * bpow (e - ez))%R.
Proof. rewrite <- bpow_add. f_equal. lia. Qed.

(** [shl_align] lowers the exponent to the target, keeping the value. *)
Lemma shl_align_spec (m : positive) (e e' : Z) :
  snd (shl_align m e e') = Z.min e e'
  ∧ Z.pos (fst (shl_align m e e')) = (Z.pos m * 2 ^ (e - Z.min e e'))%Z
  ∧ Z.pos (digits2_pos (fst (shl_align m e e')))
    = (Z.pos (digits2_pos m) + (e - Z.min e e'))%Z.
Proof.
  unfold shl_align. destruct (e' - e)%Z as [|d|d] eqn:E; simpl fst; simpl snd.
  - replace (Z.min e e') with e by lia. rewrite Z.sub_diag. simpl. lia.
  - replace (Z.min e e') with e by lia. rewrite Z.sub_diag. simpl. lia.
  - replace (Z.min e e') with e' by lia. replace (e - e')%Z with (Z.pos d) by lia.
    rewrite iter_xO_value, iter_xO_digits. lia.
Qed.

Lemma binary_round_value (s : bool) (m : positive) (e : Z) :
  (IZR (Z.pos m) * bpow e <= bpow 14)%R →
  f64_finite (binary_round prec emax s m e) = true
  ∧ (Rabs (F2R (binary_round prec emax s m e) - sign_of s * (IZR (Z.pos m) * bpow e)) <= delta)%R.
Proof.
  intros Hbig. unfold binary_round.
  set (t := fexp prec emax (Z.pos (digits2_pos m) + e)).
  pose proof (shl_align_spec m e t) as (He & Hm & Hd).
  destruct (shl_align m e t) as [mz ez]. simpl in He, Hm, Hd.
  assert (IZR (Z.pos mz) * bpow ez = IZR (Z.pos m) * bpow e)%R as EV.
  { rewrite Hm, mult_IZR, IZR_pow2, <- He by lia.
    rewrite (bpow_split e ez). ring. }
  apply binary_round_aux_value.
  - lia.
  - simpl Zdigits2. rewrite Hd. replace (Z.pos (digits2_pos m) + (e - Z.min e t) + ez)%Z
      with (Z.pos (digits2_pos m) + e)%Z by lia. fold t. lia.
  - rewrite plus_IZR, EV. pose proof (bpow_pos ez). rewrite <- EV. lra.
  - exact Hbig.
Qed.

Lemma binary_normalize_value (M e : Z) :
  (Rabs (IZR M * bpow e) <= bpow 14)%R →
  f64_finite (binary_normalize prec emax M e false) = true
  ∧ (Rabs (F2R (binary_normalize prec emax M e false) - IZR M * bpow e) <= delta)%R.
Proof.
  intros Hbig. pose proof (bpow_pos e) as Hb. pose proof (bpow_pos (-38)) as Hb'.
  destruct M as [|m|m]; simpl binary_normalize.
  - simpl. split; [reflexivity|].
    rewrite Rmult_0_l, Rminus_0_r, Rabs_R0. unfold delta. lra.
  - assert (0 < IZR (Z.pos m))%R by (apply IZR_lt; lia).
    rewrite Rabs_right in Hbig by nra.
    pose proof (binary_round_value false m e Hbig) as [Hf Hv].
    split; [exact Hf|]. unfold sign_of in Hv. rewrite Rmult_1_l in Hv. exact Hv.
  - assert (0 < IZR (Z.pos m))%R by (apply IZR_lt; lia).
    change (Z.neg m) with (- Z.pos m)%Z in *. rewrite opp_IZR in *.
    rewrite Rabs_left in Hbig by nra.
    pose proof (binary_round_value true m e ltac:(lra)) as [Hf Hv].
    split; [exact Hf|]. unfold sign_of in Hv.
    replace (- IZR (Z.pos m) * bpow e)%R with (-1 * (IZR (Z.pos m) * bpow e))%R by ring.
    exact Hv.
Qed.

Lemma cond_Zopp_IZR (s : bool) (z : Z) : IZR (cond_Zopp s z) = (sign_of s * IZR z)%R.
Proof. destruct s; simpl; [rewrite opp_IZR|]; unfold sign_of; lra. Qed.

Lemma aligned_value (s : bool) (m : positive) (e ez : Z) :
  (ez ≤ e)%Z →
  (IZR (cond_Zopp s (Z.pos (fst (shl_align m e ez)))) * bpow ez)%R = F2R (S754_finite s m e).
Proof.
  intros Hez. pose proof (shl_align_spec m e ez) as (_ & Hm & _).
  replace (Z.min e ez) with ez in Hm by lia.
  rewrite cond_Zopp_IZR, Hm, mult_IZR, IZR_pow2, F2R_finite by lia.
  rewrite (bpow_split e ez). ring.
Qed.

Lemma delta_pos : (0 < delta)%R.
Proof. unfold delta. pose proof (bpow_pos (-38)). lra. Qed.

Lemma f64_sub_value (x y : float64) :
  f64_finite x = true →
  f64_finite y = true →
  (Rabs (F2R x - F2R y) <= bpow 14)%R →
  f64_finite (f64_sub x y) = true
  ∧ (Rabs (F2R (f64_sub x y) - (F2R x - F2R y)) <= delta)%R.
Proof.
  intros Hx Hy Hbig. pose proof delta_pos as Hd.
  destruct x as [sx| | |sx mx ex]; try discriminate Hx;
    destruct y as [sy| | |sy my ey]; try discriminate Hy.
  - split; [destruct sx, sy; reflexivity|].
    assert (F2R (f64_sub (S754_zero sx) (S754_zero sy)) = 0%R) as -> by (destruct sx, sy; reflexivity).
    simpl. rewrite Rminus_0_r, Rminus_0_r, Rabs_R0. lra.
  - split; [reflexivity|].
    unfold f64_sub, SFsub. rewrite !F2R_finite. simpl F2R.
    replace (sign_of (negb sy) * (IZR (Z.pos my) * bpow ey) - (0 - sign_of sy * (IZR (Z.pos my) * bpow ey)))%R
      with 0%R by (unfold sign_of; destruct sy; simpl; ring).
    rewrite Rabs_R0. lra.
  - split; [reflexivity|].
    unfold f64_sub, SFsub. simpl F2R.
    match goal with |- (Rabs ?t <= _)%R => replace t with 0%R by ring end.
    rewrite Rabs_R0. lra.
  - unfold f64_sub, SFsub.
    set (ez := Z.min ex ey).
    set (M := (cond_Zopp sx (Z.pos (fst (shl_align mx ex ez)))
               - cond_Zopp sy (Z.pos (fst (shl_align my ey ez))))%Z).
    assert (IZR M * bpow ez = F2R (S754_finite sx mx ex) - F2R (S754_finite sy my ey))%R as EM.
    { unfold M. rewrite minus_IZR, Rmult_minus_distr_r.
      rewrite (aligned_value sx mx ex ez), (aligned_value sy my ey ez) by (unfold ez; lia).
      reflexivity. }
    rewrite <- EM in *. apply binary_normalize_value. exact Hbig.
Qed.

(** *** Constants and comparisons *)

Lemma F2R_scaled (s : bool) (m : positive) (e c k : Z) :
  Z.pos m = (c * 2 ^ k)%Z → (0 ≤ k)%Z → e = (- k)%Z →
  F2R (S754_finite s m e) = (sign_of s * IZR c)%R.
Proof.
  intros Hm Hk ->. rewrite F2R_finite, Hm, mult_IZR, IZR_pow2 by lia.
  rewrite Rmult_assoc, <- bpow_add, Z.add_opp_diag_r, bpow_0. ring.
Qed.

Lemma c100_eq : f64_of_Z 100 = S754_finite false 7036874417766400 (-46).
Proof. reflexivity. Qed.

Lemma c1200_eq : f64_of_Z MIN_KELVIN = S754_finite false 5277655813324800 (-42).
Proof. reflexivity. Qed.

Lemma c6500_eq : f64_of_Z MAX_KELVIN = S754_finite false 7146825580544000 (-40).
Proof. reflexivity. Qed.

Lemma c5300_eq : f64_of_Z (MAX_KELVIN - MIN_KELVIN) = S754_finite false 5827411627212800 (-40).
Proof. reflexivity. Qed.

Lemma F2R_100 : F2R (f64_of_Z 100) = 100%R.
Proof.
  rewrite c100_eq, (F2R_scaled false _ _ 100 46) by first [reflexivity | lia].
  unfold sign_of. lra.
Qed.

Lemma F2R_1200 : F2R (f64_of_Z MIN_KELVIN) = 1200%R.
Proof.
  rewrite c1200_eq, (F2R_scaled false _ _ 1200 42) by first [reflexivity | lia].
  unfold sign_of. lra.
Qed.

Lemma F2R_6500 : F2R (f64_of_Z MAX_KELVIN) = 6500%R.
Proof.
  rewrite c6500_eq, (F2R_scaled false _ _ 6500 40) by first [reflexivity | lia].
  unfold sign_of. lra.
Qed.

Lemma F2R_5300 : F2R (f64_of_Z (MAX_KELVIN - MIN_KELVIN)) = 5300%R.
Proof.
  rewrite c5300_eq, (F2R_scaled false _ _ 5300 40) by first [reflexivity | lia].
  unfold sign_of. lra.
Qed.

Lemma bpow_14 : bpow 14 = 16384%R.
Proof. unfold bpow. simpl. lra. Qed.

Lemma delta_small : (delta <= 11 / 1000000000000)%R.
Proof. unfold delta, bpow. simpl. lra. Qed.

Lemma SFleb_finite_pos (m1 m2 : positive) (e1 e2 : Z) :
  SFleb (S754_finite false m1 e1) (S754_finite false m2 e2) = true →
  (e1 < e2)%Z ∨ (e1 = e2 ∧ (Z.pos m1 ≤ Z.pos m2)%Z).
Proof.
  unfold SFleb, SFcompare. intros H.
  destruct (Z.compare_spec e1 e2) as [He|He|He].
  - right. split; [exact He|].
    rewrite Pos.compare_cont_spec in H. unfold Pos.switch_Eq in H.
    destruct (Pos.compare_spec m1 m2) as [Hm|Hm|Hm]; try discriminate H.
    + subst m2. apply Z.le_refl.
    + apply Pos2Z.pos_lt_pos in Hm. apply Z.lt_le_incl. exact Hm.
  - left. exact He.
  - discriminate H.
Qed.

(** A valid float64 between 0 and 100 is a number between 0 and 100. *)
Lemma percentage_bounds (p : float64) :
  valid_binary prec emax p = true →
  f64_le (f64_of_Z 0) p = true →
  f64_le p (f64_of_Z 100) = true →
  f64_finite p = true ∧ (0 <= F2R p <= 100)%R.
Proof.
  intros Hv H0 H100. rewrite c100_eq in H100.
  destruct p as [s|s| |s m e].
  - simpl. split; [reflexivity | lra].
  - destruct s; discriminate.
  - discriminate.
  - destruct s; [discriminate H0|].
    split; [reflexivity|]. rewrite F2R_finite. unfold sign_of. rewrite Rmult_1_l.
    pose proof (bpow_pos e) as Hb.
    assert (0 < IZR (Z.pos m))%R as Hm by (apply IZR_lt; lia).
    split; [nra|].
    (* the mantissa has at most 53 bits *)
    assert (Z.pos m < 2 ^ 53)%Z as Hm53.
    { cbn [valid_binary] in Hv. unfold bounded, canonical_mantissa in Hv.
      apply andb_prop in Hv. destruct Hv as [Hc _]. apply Z.eqb_eq in Hc.
      rewrite fexp_eq in Hc.
      pose proof (digits2_pos_bounds m) as [_ Hhi].
      eapply Z.lt_le_trans; [exact Hhi|]. apply Z.pow_le_mono_r; lia. }
    apply SFleb_finite_pos in H100. destruct H100 as [He | [He Hle]].
    + apply IZR_lt in Hm53. rewrite IZR_pow2 in Hm53 by lia.
      assert (e ≤ -47)%Z as He' by lia.
      pose proof (bpow_le e (-47) He') as Hbe.
      assert (bpow 53 * bpow (-47) = 64)%R as E.
      { rewrite <- bpow_add. unfold bpow. simpl. lra. }
      pose proof (bpow_pos (-47)). pose proof (bpow_pos 53).
      apply Rlt_le in Hm53.
      apply (Rmult_le_compat_r (bpow e)) in Hm53; [|lra].
      apply (Rmult_le_compat_l (bpow 53)) in Hbe; [|lra].
      lra.
    + subst e. apply IZR_le in Hle.
      pose proof F2R_100 as E. rewrite c100_eq, F2R_finite in E. unfold sign_of in E.
      apply (Rmult_le_compat_r (bpow (-46))) in Hle; lra.
Qed.

Lemma Rabs_le_inv (x a : R) : (Rabs x <= a)%R → (- a <= x <= a)%R.
Proof. unfold Rabs. destruct (Rcase_abs x); lra. Qed.

(** *** The two linear maps *)

(** [percentageToKelvin] on a number [p] of [0, 100] is a number within
    [1e-7] of [6500 - 53 p]. *)
Lemma percentageToKelvin_value (p : float64) :
  f64_finite p = true →
  (0 <= F2R p <= 100)%R →
  f64_finite (percentageToKelvin p) = true
  ∧ (Rabs (F2R (percentageToKelvin p) - (6500 - 53 * F2R p)) <= / 10000000)%R.
Proof.
  intros Hfp HP. pose proof delta_small as Hd. pose proof delta_pos as Hd0.
  unfold percentageToKelvin.
  pose proof F2R_100 as E100. pose proof F2R_5300 as E5300. pose proof F2R_6500 as E6500.
  assert (∃ s m e, f64_of_Z 100 = S754_finite s m e) as X100 by (do 3 eexists; apply c100_eq).
  assert (f64_normal (f64_of_Z (MAX_KELVIN - MIN_KELVIN)) = true) as N5300
      by (rewrite c5300_eq; reflexivity).
  assert (f64_finite (f64_of_Z MAX_KELVIN) = true) as F6500 by (rewrite c6500_eq; reflexivity).
  (* percentage / 100 *)
  destruct (f64_div_value p _ Hfp X100) as [Hf1 Hv1].
  { rewrite E100, bpow_14. apply Rabs_le. lra. }
  rewrite E100 in Hv1. apply Rabs_le_inv in Hv1.
  (* ... * 5300 *)
  destruct (f64_mul_value _ _ Hf1 N5300) as [Hf2 Hv2].
  { rewrite E5300, bpow_14. apply Rabs_le. lra. }
  rewrite E5300 in Hv2. apply Rabs_le_inv in Hv2.
  (* 6500 - ... *)
  destruct (f64_sub_value _ _ F6500 Hf2) as [Hf3 Hv3].
  { rewrite E6500, bpow_14. apply Rabs_le. lra. }
  rewrite E6500 in Hv3. apply Rabs_le_inv in Hv3.
  split; [exact Hf3|]. apply Rabs_le. lra.
Qed.

(** [kelvinToPercentage] on a number [k] of magnitude at most 16383.75
    is a number within [1e-8] of [100 - (k - 1200) / 53]. *)
Lemma kelvinToPercentage_value (k : float64) :
  f64_finite k = true →
  (-100 <= F2R k <= 16383.75)%R →
  f64_finite (kelvinToPercentage k) = true
  ∧ (Rabs (F2R (kelvinToPercentage k) - (100 - (F2R k - 1200) / 53)) <= / 100000000)%R.
Proof.
  intros Hfk HK. pose proof delta_small as Hd. pose proof delta_pos as Hd0.
  unfold kelvinToPercentage.
  pose proof F2R_100 as E100. pose proof F2R_5300 as E5300. pose proof F2R_1200 as E1200.
  assert (∃ s m e, f64_of_Z (MAX_KELVIN - MIN_KELVIN) = S754_finite s m e) as X5300
      by (do 3 eexists; apply c5300_eq).
  assert (f64_normal (f64_of_Z 100) = true) as N100 by (rewrite c100_eq; reflexivity).
  assert (f64_finite (f64_of_Z 100) = true) as F100 by (rewrite c100_eq; reflexivity).
  assert (f64_finite (f64_of_Z MIN_KELVIN) = true) as F1200 by (rewrite c1200_eq; reflexivity).
  (* kelvin - 1200 *)
  destruct (f64_sub_value k _ Hfk F1200) as [Hf4 Hv4].
  { rewrite E1200, bpow_14. apply Rabs_le. lra. }
  rewrite E1200 in Hv4. apply Rabs_le_inv in Hv4.
  (* ... / 5300 *)
  destruct (f64_div_value _ _ Hf4 X5300) as [Hf5 Hv5].
  { rewrite E5300, bpow_14. apply Rabs_le. lra. }
  rewrite E5300 in Hv5. apply Rabs_le_inv in Hv5.
  (* ... * 100 *)
  destruct (f64_mul_value _ _ Hf5 N100) as [Hf6 Hv6].
  { rewrite E100, bpow_14. apply Rabs_le. lra. }
  rewrite E100 in Hv6. apply Rabs_le_inv in Hv6.
  (* 100 - ... *)
  destruct (f64_sub_value _ _ F100 Hf6) as [Hf7 Hv7].
  { rewrite E100, bpow_14. apply Rabs_le. lra. }
  rewrite E100 in Hv7. apply Rabs_le_inv in Hv7.
  split; [exact Hf7|]. apply Rabs_le. lra.
Qed.

(** *** The round trip *)

(** [kelvinToPercentage] after [percentageToKelvin] on a number [p] of
    [0, 100]: the result is a number, within [1e-6] of [p]. *)
Lemma round_trip_value (p : float64) :
  f64_finite p = true →
  (0 <= F2R p <= 100)%R →
  f64_finite (kelvinToPercentage (percentageToKelvin p)) = true
  ∧ (Rabs (F2R (kelvinToPercentage (percentageToKelvin p)) - F2R p) <= / 1000000)%R.
Proof.
  intros Hfp HP.
  destruct (percentageToKelvin_value p Hfp HP) as [Hfk Hk]. apply Rabs_le_inv in Hk.
  destruct (kelvinToPercentage_value (percentageToKelvin p) Hfk ltac:(lra)) as [Hfr Hr].
  apply Rabs_le_inv in Hr.
  split; [exact Hfr|]. apply Rabs_le. lra.
Qed.

(** *** Addition *)

Lemma f64_add_value (x y : float64) :
  f64_finite x = true →
  f64_finite y = true →
  (Rabs (F2R x + F2R y) <= bpow 14)%R →
  f64_finite (f64_add x y) = true
  ∧ (Rabs (F2R (f64_add x y) - (F2R x + F2R y)) <= delta)%R.
Proof.
  intros Hx Hy Hbig. pose proof delta_pos as Hd.
  destruct x as [sx| | |sx mx ex]; try discriminate Hx;
    destruct y as [sy| | |sy my ey]; try discriminate Hy.
  - split; [destruct sx, sy; reflexivity|].
    assert (F2R (f64_add (S754_zero sx) (S754_zero sy)) = 0%R) as -> by (destruct sx, sy; reflexivity).
    simpl. rewrite Rplus_0_r, Rminus_0_r, Rabs_R0. lra.
  - split; [reflexivity|].
    unfold f64_add, SFadd. simpl F2R.
    match goal with |- (Rabs ?t <= _)%R => replace t with 0%R by ring end.
    rewrite Rabs_R0. lra.
  - split; [reflexivity|].
    unfold f64_add, SFadd. simpl F2R.
    match goal with |- (Rabs ?t <= _)%R => replace t with 0%R by ring end.
    rewrite Rabs_R0. lra.
  - unfold f64_add, SFadd.
    set (ez := Z.min ex ey).
    set (M := (cond_Zopp sx (Z.pos (fst (shl_align mx ex ez)))
               + cond_Zopp sy (Z.pos (fst (shl_align my ey ez))))%Z).
    assert (IZR M * bpow ez = F2R (S754_finite sx mx ex) + F2R (S754_finite sy my ey))%R as EM.
    { unfold M. rewrite plus_IZR, Rmult_plus_distr_r.
      rewrite (aligned_value sx mx ex ez), (aligned_value sy my ey ez) by (unfold ez; lia).
      reflexivity. }
    rewrite <- EM in *. apply binary_normalize_value. exact Hbig.
Qed.

(** *** The decoded temperature *)

Lemma c64_eq : f64_of_Z 64 = S754_finite false 4503599627370496 (-46).
Proof. reflexivity. Qed.

Lemma c128_eq : f64_of_Z 128 = S754_finite false 4503599627370496 (-45).
Proof. reflexivity. Qed.

Lemma c2_eq : f64_of_Z 2 = S754_finite false 4503599627370496 (-51).
Proof. reflexivity. Qed.

Lemma F2R_64 : F2R (f64_of_Z 64) = 64%R.
Proof.
  rewrite c64_eq, (F2R_scaled false _ _ 64 46) by first [reflexivity | lia].
  unfold sign_of. lra.
Qed.

Lemma F2R_128 : F2R (f64_of_Z 128) = 128%R.
Proof.
  rewrite c128_eq, (F2R_scaled false _ _ 128 45) by first [reflexivity | lia].
  unfold sign_of. lra.
Qed.

Lemma F2R_2 : F2R (f64_of_Z 2) = 2%R.
Proof.
  rewrite c2_eq, (F2R_scaled false _ _ 2 51) by first [reflexivity | lia].
  unfold sign_of. lra.
Qed.

Lemma f64_of_byte_value (b : byte) :
  f64_finite (f64_of_byte b) = true
  ∧ (Rabs (F2R (f64_of_byte b) - IZR (byte_val b)) <= delta)%R.
Proof.
  pose proof (byte_val_range b) as [Hlo Hhi]. apply IZR_le in Hlo, Hhi.
  unfold f64_of_byte, f64_of_Z.
  replace (IZR (byte_val b)) with (IZR (byte_val b) * bpow 0)%R by (rewrite bpow_0; ring).
  apply binary_normalize_value.
  rewrite bpow_0, bpow_14, Rmult_1_r. apply Rabs_le. lra.
Qed.

(** [bytesToKelvin] is a number within [1e-8] of the encoded temperature. *)
Lemma bytesToKelvin_value (lo hi : byte) :
  f64_finite (bytesToKelvin lo hi) = true
  ∧ (Rabs (F2R (bytesToKelvin lo hi) - encodedKelvin lo hi) <= / 100000000)%R.
Proof.
  pose proof delta_small as Hd. pose proof delta_pos as Hd0.
  unfold bytesToKelvin, encodedKelvin.
  pose proof (byte_val_range lo) as [Hlo0 Hlo1]. apply IZR_le in Hlo0, Hlo1.
  pose proof (byte_val_range hi) as [Hhi0 Hhi1]. apply IZR_le in Hhi0, Hhi1.
  pose proof F2R_64 as E64. pose proof F2R_128 as E128. pose proof F2R_2 as E2.
  assert (∃ s m e, f64_of_Z 2 = S754_finite s m e) as X2 by (do 3 eexists; apply c2_eq).
  assert (f64_normal (f64_of_Z 64) = true) as N64 by (rewrite c64_eq; reflexivity).
  assert (f64_finite (f64_of_Z 128) = true) as F128 by (rewrite c128_eq; reflexivity).
  destruct (f64_of_byte_value hi) as [Hfa Hva]. apply Rabs_le_inv in Hva.
  destruct (f64_of_byte_value lo) as [Hfb Hvb]. apply Rabs_le_inv in Hvb.
  (* float64(hiTemp) * 64 *)
  destruct (f64_mul_value _ _ Hfa N64) as [Hf1 Hv1].
  { rewrite E64, bpow_14. apply Rabs_le. lra. }
  rewrite E64 in Hv1. apply Rabs_le_inv in Hv1.
  (* float64(loTemp) - 128 *)
  destruct (f64_sub_value _ _ Hfb F128) as [Hf2 Hv2].
  { rewrite E128, bpow_14. apply Rabs_le. lra. }
  rewrite E128 in Hv2. apply Rabs_le_inv in Hv2.
  (* ... / 2 *)
  destruct (f64_div_value _ _ Hf2 X2) as [Hf3 Hv3].
  { rewrite E2, bpow_14. apply Rabs_le. lra. }
  rewrite E2 in Hv3. apply Rabs_le_inv in Hv3.
  (* the sum *)
  destruct (f64_add_value _ _ Hf1 Hf3) as [Hf4 Hv4].
  { rewrite bpow_14. apply Rabs_le. lra. }
  apply Rabs_le_inv in Hv4.
  split; [exact Hf4|]. apply Rabs_le. lra.
Qed.

Lemma byte_of_val (b : byte) (z : Z) : byte_val b = z → b = byte_of_Z z.
Proof. intros <-. destruct b; reflexivity. Qed.

(** The strength decoded from two temperature bytes: a number within
    [1e-7] of the linear map of the encoded temperature, and within
    [0, 100] when that temperature is within [1200, 6500]. *)
Lemma decoded_strength_value (lo hi : byte) :
  f64_finite (kelvinToPercentage (bytesToKelvin lo hi)) = true
  ∧ (Rabs (F2R (kelvinToPercentage (bytesToKelvin lo hi))
           - (100 - (encodedKelvin lo hi - 1200) / 53)) <= / 10000000)%R
  ∧ ((1200 <= encodedKelvin lo hi <= 6500)%R →
     (0 <= F2R (kelvinToPercentage (bytesToKelvin lo hi)) <= 100)%R).
Proof.
  destruct (bytesToKelvin_value lo hi) as [Hfk Hk]. apply Rabs_le_inv in Hk.
  pose proof (byte_val_range lo) as [Hlo0 Hlo1].
  pose proof (byte_val_range hi) as [Hhi0 Hhi1].
  assert (-64 <= encodedKelvin lo hi <= 16383.5)%R as HK.
  { unfold encodedKelvin. apply IZR_le in Hlo0, Hlo1, Hhi0, Hhi1. lra. }
  destruct (kelvinToPercentage_value (bytesToKelvin lo hi) Hfk ltac:(lra)) as [Hfv Hv].
  apply Rabs_le_inv in Hv.
  split; [exact Hfv|]. split; [apply Rabs_le; lra|].
  intros Hdom.
  set (n := (128 * byte_val hi + byte_val lo - 128)%Z).
  assert (encodedKelvin lo hi = IZR n / 2)%R as En.
  { unfold encodedKelvin, n. rewrite minus_IZR, plus_IZR, mult_IZR. lra. }
  assert (2400 ≤ n ≤ 13000)%Z as Hn.
  { rewrite En in Hdom. split; apply le_IZR; lra. }
  assert (n = 2400 ∨ n = 13000 ∨ 2401 ≤ n ≤ 12999)%Z as [H|[H|H]] by lia.
  - assert ((byte_val hi = 18 ∧ byte_val lo = 224) ∨ (byte_val hi = 19 ∧ byte_val lo = 96))%Z
      as [[H1 H2]|[H1 H2]] by (unfold n in H; lia);
      apply byte_of_val in H1, H2; subst lo hi.
    + assert (kelvinToPercentage (bytesToKelvin (byte_of_Z 224) (byte_of_Z 18)) = f64_of_Z 100)
        as -> by (vm_compute; reflexivity).
      rewrite F2R_100. lra.
    + assert (kelvinToPercentage (bytesToKelvin (byte_of_Z 96) (byte_of_Z 19)) = f64_of_Z 100)
        as -> by (vm_compute; reflexivity).
      rewrite F2R_100. lra.
  - assert ((byte_val hi = 101 ∧ byte_val lo = 200) ∨ (byte_val hi = 102 ∧ byte_val lo = 72))%Z
      as [[H1 H2]|[H1 H2]] by (unfold n in H; lia);
      apply byte_of_val in H1, H2; subst lo hi.
    + assert (kelvinToPercentage (bytesToKelvin (byte_of_Z 200) (byte_of_Z 101)) = S754_zero false)
        as -> by (vm_compute; reflexivity).
      simpl. lra.
    + assert (kelvinToPercentage (bytesToKelvin (byte_of_Z 72) (byte_of_Z 102)) = S754_zero false)
        as -> by (vm_compute; reflexivity).
      simpl. lra.
  - assert (1200.5 <= encodedKelvin lo hi <= 6499.5)%R as HK'.
    { rewrite En. destruct H as [Ha Hb]. apply IZR_le in Ha, Hb. lra. }
    lra.
Qed.

(** ** Strength *)

(** C7.  For every float64 [p] of [0, 100], [kelvinToPercentage] of
    [percentageToKelvin p] is a number that differs from [p] by at most
    1.0. *)
Theorem percentage_round_trip (p : float64) :
  valid_binary prec emax p = true →
  f64_le (f64_of_Z 0) p = true →
  f64_le p (f64_of_Z 100) = true →
  f64_finite (kelvinToPercentage (percentageToKelvin p)) = true
  ∧ (Rabs (F2R (kelvinToPercentage (percentageToKelvin p)) - F2R p) <= 1)%R.
Proof.
  intros Hv H0 H100.
  destruct (percentage_bounds p Hv H0 H100) as [Hfp HP].
  destruct (round_trip_value p Hfp HP) as [Hf Hr].
  split; [exact Hf | lra].
Qed.

Lemma percentage_round_trip_witness :
  f64_finite (kelvinToPercentage (percentageToKelvin (f64_of_Z 75))) = true
  ∧ (Rabs (F2R (kelvinToPercentage (percentageToKelvin (f64_of_Z 75))) - F2R (f64_of_Z 75)) <= 1)%R.
Proof.
  apply (percentage_round_trip (f64_of_Z 75)); vm_compute; reflexivity.
Defined.

(** What [GetStrength] computes.  For every settings value on which it
    succeeds, the number returned is [kelvinToPercentage] of the
    temperature decoded from bytes 0x23 and 0x24: it is within [1e-7] of
    [100 - (K - 1200) / 5300 * 100], where [K] is the temperature the
    two bytes encode, and it lies in [0, 100] whenever [K] lies in
    [MIN_KELVIN, MAX_KELVIN]. *)
Theorem get_strength_range (slack : list byte → list byte) (r : Registry) (s d : list byte) :
  stateValue r = Some s →
  settingsValue r = Some d →
  0x25 ≤ length d →
  ∃ lo hi v,
    d !! 0x23 = Some lo
    ∧ d !! 0x24 = Some hi
    ∧ GetStrength slack r = Ret v
    ∧ f64_finite v = true
    ∧ (Rabs (F2R v - (100 - (encodedKelvin lo hi - IZR MIN_KELVIN)
                             / IZR (MAX_KELVIN - MIN_KELVIN) * 100)) <= / 10000000)%R
    ∧ ((IZR MIN_KELVIN <= encodedKelvin lo hi <= IZR MAX_KELVIN)%R →
       (0 <= F2R v <= 100)%R).
Proof.
  intros Hs Hd Hlen.
  destruct (lookup_lt_is_Some_2 d 35 ltac:(lia)) as [lo Hlo].
  destruct (lookup_lt_is_Some_2 d 36 ltac:(lia)) as [hi Hhi].
  exists lo, hi, (kelvinToPercentage (bytesToKelvin lo hi)).
  split; [exact Hlo|]. split; [exact Hhi|]. split.
  { rewrite (GetStrength_readable slack r s d Hs Hd), Hlo, Hhi.
    destruct (Nat.ltb_spec (length d) 37) as [|_]; [lia | reflexivity]. }
  destruct (decoded_strength_value lo hi) as (Hfin & Hval & Hrange).
  split; [exact Hfin|]. unfold MIN_KELVIN, MAX_KELVIN.
  change (6500 - 1200)%Z with 5300%Z. split.
  - apply Rabs_le_inv in Hval. apply Rabs_le. lra.
  - exact Hrange.
Qed.

Lemma get_strength_range_witness :
  ∃ lo hi v,
    sampleSettingsWarm !! 0x23 = Some lo
    ∧ sampleSettingsWarm !! 0x24 = Some hi
    ∧ GetStrength noSlack (registryOf sampleDisabled sampleSettingsWarm) = Ret v
    ∧ f64_finite v = true
    ∧ (Rabs (F2R v - (100 - (encodedKelvin lo hi - IZR MIN_KELVIN)
                             / IZR (MAX_KELVIN - MIN_KELVIN) * 100)) <= / 10000000)%R
    ∧ ((IZR MIN_KELVIN <= encodedKelvin lo hi <= IZR MAX_KELVIN)%R →
       (0 <= F2R v <= 100)%R).
Proof.
  apply (get_strength_range noSlack (registryOf sampleDisabled sampleSettingsWarm)
           sampleDisabled sampleSettingsWarm);
    [reflexivity | reflexivity | vm_compute; lia].
Defined.

(** C8.  [GetStrength] breaks its documentation, "returns the current
    Lumos strength as a percentage (0-100)": on a settings value with
    the temperature bytes 128 and 18 (1152 kelvin, below [MIN_KELVIN],
    which the source calls 100% strength) it returns more than 100.
    [SetStrength] clamps its percentage to 0..100; [GetStrength] has no
    clamp. *)
Lemma get_strength_above_100 :
  sampleSettings !! 0x23 = Some x80
  ∧ sampleSettings !! 0x24 = Some x12
  ∧ ∃ v, GetStrength noSlack (registryOf sampleDisabled sampleSettings) = Ret v
         ∧ f64_lt (f64_of_Z 100) v = true
         ∧ (100 < F2R v)%R.
Proof.
  split; [reflexivity|]. split; [reflexivity|].
  exists (S754_finite false 7100604601172586 (-46)).
  split; [vm_compute; reflexivity|]. split; [vm_compute; reflexivity|].
  pose proof F2R_100 as E. rewrite c100_eq, F2R_finite in E. rewrite F2R_finite.
  unfold sign_of in *.
  assert (IZR 7036874417766400 < IZR 7100604601172586)%R as Hlt by (apply IZR_lt; reflexivity).
  pose proof (bpow_pos (-46)) as Hb.
  apply (Rmult_lt_compat_r (bpow (-46))) in Hlt; lra.
Qed.

(** * More of package night *)

(** ** Enable and Disable *)

Section StateFacts.

Variable slack : list byte → list byte.

Lemma Enabled_disabledValue (r : Registry) (b : list byte) :
  stateValue r = Some b → disabledValue b → Enabled slack r = Ret false.
Proof.
  intros Hb [Hlen Hflag]. rewrite (Enabled_readable slack r b Hb), Hlen, Hflag. reflexivity.
Qed.

Lemma Enabled_enabledValue (r : Registry) (b : list byte) :
  stateValue r = Some b → enabledValue b → Enabled slack r = Ret true.
Proof.
  intros Hb [Hlen Hflag]. rewrite (Enabled_readable slack r b Hb), Hlen, Hflag. reflexivity.
Qed.

Lemma Toggle_disabledValue (r : Registry) (b : list byte) :
  stateValue r = Some b → stateWritable r = true → disabledValue b →
  ∃ b', Toggle slack r = Ret (withState r b')
        ∧ enabledValue b'
        ∧ b' !! 22 = Some x00 ∧ b' !! 23 = Some x10 ∧ b' !! 24 = Some x00
        ∧ (∀ j, j < 22 → ¬ (10 ≤ j < 15) → j ≠ 18 → b' !! j = b !! j)
        ∧ (∀ j, 25 ≤ j < 43 → b' !! j = b !! (j - 2)).
Proof.
  intros Hb Hw [Hlen Hflag].
  destruct (Toggle_disabled_bytes slack r b Hb Hw Hlen Hflag)
    as (b' & Hrun & Hl & Hf & Hpre & H22 & H23 & H24 & Htail & _).
  exists b'. repeat split; try assumption.
  intros j Hj Hwin H18. apply Hpre; assumption.
Qed.

Lemma Toggle_enabledValue (r : Registry) (b : list byte) :
  stateValue r = Some b → stateWritable r = true → enabledValue b →
  ∃ b', Toggle slack r = Ret (withState r b')
        ∧ disabledValue b'
        ∧ b' !! 22 = Some x00
        ∧ (∀ j, j < 22 → ¬ (10 ≤ j < 15) → j ≠ 18 → b' !! j = b !! j)
        ∧ (∀ j, 23 ≤ j < 41 → b' !! j = b !! (j + 2)).
Proof.
  intros Hb Hw [Hlen Hflag].
  destruct (Toggle_enabled_bytes slack r b Hb Hw Hlen Hflag)
    as (b' & Hrun & Hl & Hf & Hpre & H22 & Htail & _).
  exists b'. repeat split; try assumption.
  intros j Hj Hwin H18. apply Hpre; assumption.
Qed.

Lemma Enable_enabledValue (r : Registry) (b : list byte) :
  stateValue r = Some b → enabledValue b → Enable slack r = Ret r.
Proof.
  intros Hb Hv. unfold Enable. rewrite (Enabled_enabledValue r b Hb Hv). reflexivity.
Qed.

Lemma Disable_disabledValue (r : Registry) (b : list byte) :
  stateValue r = Some b → disabledValue b → Disable slack r = Ret r.
Proof.
  intros Hb Hv. unfold Disable. rewrite (Enabled_disabledValue r b Hb Hv). reflexivity.
Qed.

Lemma Enable_disabledValue (r : Registry) (b : list byte) :
  stateValue r = Some b → disabledValue b → Enable slack r = Toggle slack r.
Proof.
  intros Hb Hv. unfold Enable. rewrite (Enabled_disabledValue r b Hb Hv). reflexivity.
Qed.

Lemma Disable_enabledValue (r : Registry) (b : list byte) :
  stateValue r = Some b → enabledValue b → Disable slack r = Toggle slack r.
Proof.
  intros Hb Hv. unfold Disable. rewrite (Enabled_enabledValue r b Hb Hv). reflexivity.
Qed.

End StateFacts.

(** X1.  [Enable] is idempotent.  On a state value whose flag and
    length agree, [Enable] succeeds and leaves night light on:
    [Enabled] then answers true and a second [Enable] changes nothing.
    On a value that is already enabled it returns the registry as it
    is, so it needs no write access.  The settings value is not
    touched. *)
Theorem enable_idempotent (slack : list byte → list byte) (r : Registry) (b : list byte) :
  stateValue r = Some b →
  disabledValue b ∨ enabledValue b →
  (disabledValue b → stateWritable r = true) →
  ∃ r', Enable slack r = Ret r'
        ∧ Enabled slack r' = Ret true
        ∧ Enable slack r' = Ret r'
        ∧ settingsValue r' = settingsValue r
        ∧ (enabledValue b → r' = r).
Proof.
  intros Hb [Hv|Hv] Hw.
  - destruct (Toggle_disabledValue slack r b Hb (Hw Hv) Hv) as (b' & Hrun & Hv' & _).
    exists (withState r b').
    rewrite (Enable_disabledValue slack r b Hb Hv).
    split; [exact Hrun|].
    split; [apply (Enabled_enabledValue slack (withState r b') b' eq_refl Hv')|].
    split; [apply (Enable_enabledValue slack (withState r b') b' eq_refl Hv')|].
    split; [reflexivity|].
    intros [Hl _]. destruct Hv as [Hl' _]. congruence.
  - exists r.
    split; [apply (Enable_enabledValue slack r b Hb Hv)|].
    split; [apply (Enabled_enabledValue slack r b Hb Hv)|].
    split; [apply (Enable_enabledValue slack r b Hb Hv)|].
    split; reflexivity.
Qed.

Lemma enable_idempotent_witness :
  ∃ r', Enable noSlack (registryOf sampleDisabled sampleSettings) = Ret r'
        ∧ Enabled noSlack r' = Ret true
        ∧ Enable noSlack r' = Ret r'
        ∧ settingsValue r' = Some sampleSettings
        ∧ (enabledValue sampleDisabled → r' = registryOf sampleDisabled sampleSettings).
Proof.
  apply (enable_idempotent noSlack (registryOf sampleDisabled sampleSettings) sampleDisabled).
  - reflexivity.
  - left. split; reflexivity.
  - intros _. reflexivity.
Defined.

(** X2.  [Disable] is idempotent.  On a state value whose flag and
    length agree, [Disable] succeeds and leaves night light off:
    [Enabled] then answers false and a second [Disable] changes
    nothing.  On a value that is already disabled it returns the
    registry as it is, so it needs no write access. *)
Theorem disable_idempotent (slack : list byte → list byte) (r : Registry) (b : list byte) :
  stateValue r = Some b →
  disabledValue b ∨ enabledValue b →
  (enabledValue b → stateWritable r = true) →
  ∃ r', Disable slack r = Ret r'
        ∧ Enabled slack r' = Ret false
        ∧ Disable slack r' = Ret r'
        ∧ settingsValue r' = settingsValue r
        ∧ (disabledValue b → r' = r).
Proof.
  intros Hb [Hv|Hv] Hw.
  - exists r.
    split; [apply (Disable_disabledValue slack r b Hb Hv)|].
    split; [apply (Enabled_disabledValue slack r b Hb Hv)|].
    split; [apply (Disable_disabledValue slack r b Hb Hv)|].
    split; reflexivity.
  - destruct (Toggle_enabledValue slack r b Hb (Hw Hv) Hv) as (b' & Hrun & Hv' & _).
    exists (withState r b').
    rewrite (Disable_enabledValue slack r b Hb Hv).
    split; [exact Hrun|].
    split; [apply (Enabled_disabledValue slack (withState r b') b' eq_refl Hv')|].
    split; [apply (Disable_disabledValue slack (withState r b') b' eq_refl Hv')|].
    split; [reflexivity|].
    intros [Hl _]. destruct Hv as [Hl' _]. congruence.
Qed.

Lemma disable_idempotent_witness :
  ∃ r', Disable noSlack (registryOf sampleEnabled sampleSettings) = Ret r'
        ∧ Enabled noSlack r' = Ret false
        ∧ Disable noSlack r' = Ret r'
        ∧ settingsValue r' = Some sampleSettings
        ∧ (disabledValue sampleEnabled → r' = registryOf sampleEnabled sampleSettings).
Proof.
  apply (disable_idempotent noSlack (registryOf sampleEnabled sampleSettings) sampleEnabled).
  - reflexivity.
  - right. split; reflexivity.
  - intros _. reflexivity.
Defined.

(** X3.  Off, on, off.  Two [Toggle]s in a row on a disabled value
    write a disabled value that has the bytes of the first one
    everywhere except at the timestamp offsets 10..14 and at offset 22,
    where it has 0. *)
Theorem toggle_twice_disabled_payload (slack : list byte → list byte) (r : Registry) (b : list byte) :
  stateValue r = Some b →
  stateWritable r = true →
  disabledValue b →
  ∃ b2, (r1 ← Toggle slack r; Toggle slack r1) = Ret (withState r b2)
        ∧ disabledValue b2
        ∧ b2 !! 22 = Some x00
        ∧ ∀ j, ¬ (10 ≤ j < 15) → j ≠ 22 → b2 !! j = b !! j.
Proof.
  intros Hb Hw Hv.
  destruct (Toggle_disabledValue slack r b Hb Hw Hv)
    as (b1 & Hrun1 & Hv1 & _ & _ & _ & Hpre1 & Htail1).
  destruct (Toggle_enabledValue slack (withState r b1) b1 eq_refl Hw Hv1)
    as (b2 & Hrun2 & Hv2 & H22 & Hpre2 & Htail2).
  exists b2. split; [rewrite Hrun1; cbn; exact Hrun2|].
  split; [exact Hv2|]. split; [exact H22|].
  intros j Hwin Hj22.
  destruct Hv as [Hl Hf]. destruct Hv2 as [Hl2 Hf2].
  destruct (decide (j = 18)) as [->|H18]; [congruence|].
  destruct (decide (j < 22)) as [Hlt|Hge].
  - rewrite Hpre2, Hpre1 by assumption. reflexivity.
  - destruct (decide (j < 41)) as [Hlt|Hge'].
    + rewrite Htail2, Htail1 by lia. f_equal. lia.
    + rewrite !lookup_ge_None_2 by lia. reflexivity.
Qed.

(** X4.  On, off, on.  Two [Toggle]s in a row on an enabled value
    write an enabled value that has the bytes of the first one
    everywhere except at the timestamp offsets 10..14 and at offsets
    22, 23 and 24, where it has 0x00, 0x10 and 0x00. *)
Theorem toggle_twice_enabled_payload (slack : list byte → list byte) (r : Registry) (b : list byte) :
  stateValue r = Some b →
  stateWritable r = true →
  enabledValue b →
  ∃ b2, (r1 ← Toggle slack r; Toggle slack r1) = Ret (withState r b2)
        ∧ enabledValue b2
        ∧ b2 !! 22 = Some x00 ∧ b2 !! 23 = Some x10 ∧ b2 !! 24 = Some x00
        ∧ ∀ j, ¬ (10 ≤ j < 15) → ¬ (22 ≤ j < 25) → b2 !! j = b !! j.
Proof.
  intros Hb Hw Hv.
  destruct (Toggle_enabledValue slack r b Hb Hw Hv)
    as (b1 & Hrun1 & Hv1 & _ & Hpre1 & Htail1).
  destruct (Toggle_disabledValue slack (withState r b1) b1 eq_refl Hw Hv1)
    as (b2 & Hrun2 & Hv2 & H22 & H23 & H24 & Hpre2 & Htail2).
  exists b2. split; [rewrite Hrun1; cbn; exact Hrun2|].
  split; [exact Hv2|]. split; [exact H22|]. split; [exact H23|]. split; [exact H24|].
  intros j Hwin Hmid.
  destruct Hv as [Hl Hf]. destruct Hv2 as [Hl2 Hf2].
  destruct (decide (j = 18)) as [->|H18]; [congruence|].
  destruct (decide (j < 22)) as [Hlt|Hge].
  - rewrite Hpre2, Hpre1 by assumption. reflexivity.
  - destruct (decide (j < 43)) as [Hlt|Hge'].
    + rewrite Htail2, Htail1 by lia. f_equal. lia.
    + rewrite !lookup_ge_None_2 by lia. reflexivity.
Qed.

Lemma toggle_twice_disabled_payload_witness :
  ∃ b2, (r1 ← Toggle noSlack (registryOf sampleDisabled sampleSettings); Toggle noSlack r1)
        = Ret (withState (registryOf sampleDisabled sampleSettings) b2)
        ∧ disabledValue b2
        ∧ b2 !! 22 = Some x00
        ∧ ∀ j, ¬ (10 ≤ j < 15) → j ≠ 22 → b2 !! j = sampleDisabled !! j.
Proof.
  apply (toggle_twice_disabled_payload noSlack (registryOf sampleDisabled sampleSettings)
           sampleDisabled); [reflexivity | reflexivity | split; reflexivity].
Defined.

Lemma toggle_twice_enabled_payload_witness :
  ∃ b2, (r1 ← Toggle noSlack (registryOf sampleEnabled22 sampleSettings); Toggle noSlack r1)
        = Ret (withState (registryOf sampleEnabled22 sampleSettings) b2)
        ∧ enabledValue b2
        ∧ b2 !! 22 = Some x00 ∧ b2 !! 23 = Some x10 ∧ b2 !! 24 = Some x00
        ∧ ∀ j, ¬ (10 ≤ j < 15) → ¬ (22 ≤ j < 25) → b2 !! j = sampleEnabled22 !! j.
Proof.
  apply (toggle_twice_enabled_payload noSlack (registryOf sampleEnabled22 sampleSettings)
           sampleEnabled22); [reflexivity | reflexivity | split; reflexivity].
Defined.

(** ** What Toggle writes *)

(** ** Slices *)

Lemma bind_Ret_inv {A B : Type} (m : outcome A) (f : A → outcome B) (b : B) :
  (m ≫= f) = Ret b → ∃ a, m = Ret a ∧ f a = Ret b.
Proof. destruct m as [a| |]; cbn; intros H; try discriminate H. exists a. split; [reflexivity | exact H]. Qed.

Lemma assign_spec (s s' : slice) (i : nat) (v : byte) :
  assign s i v = Ret s' →
  len s' = len s ∧ cap s' = cap s
  ∧ elems s' !! i = Some v
  ∧ ∀ j, j ≠ i → elems s' !! j = elems s !! j.
Proof.
  unfold assign. destruct (Nat.ltb_spec i (len s)) as [Hi|]; [|discriminate].
  intros [= <-]. unfold len, cap in *. cbn [elems spare]. rewrite length_insert.
  repeat split.
  - apply list_lookup_insert_eq. exact Hi.
  - intros j Hj. apply list_lookup_insert_ne. congruence.
Qed.

Lemma copy_to_spec (dst dst' src : slice) (lo hi : nat) :
  copy_to dst lo hi src = Ret dst' →
  len dst' = len dst ∧ cap dst' = cap dst
  ∧ ∀ j, j < lo ∨ hi ≤ j → elems dst' !! j = elems dst !! j.
Proof.
  unfold copy_to.
  destruct (lo <=? hi) eqn:E1; [|discriminate].
  destruct (hi <=? cap dst) eqn:E2; [|discriminate]. cbn [andb].
  apply Nat.leb_le in E1, E2.
  set (n := Nat.min (hi - lo) (len src)).
  set (arr := take lo (backing dst) ++ take n (elems src) ++ drop (lo + n) (backing dst)).
  intros [= <-].
  assert (length (backing dst) = cap dst) as Hb by (unfold backing, cap; apply length_app).
  assert (n ≤ hi - lo ∧ n ≤ len src) as [Hn1 Hn2] by (unfold n; lia).
  assert (length arr = cap dst) as Harr.
  { unfold arr. rewrite !length_app, !length_take, length_drop, Hb. unfold len in Hn2. lia. }
  assert (len dst ≤ cap dst) as Hlc by (unfold len, cap; lia).
  unfold len, cap in *. cbn [elems spare].
  split; [rewrite length_take; lia|].
  split; [rewrite length_take, length_drop; lia|].
  intros j Hj.
  destruct (decide (j < length (elems dst))) as [Hlt|Hge].
  - rewrite lookup_take_lt by exact Hlt.
    transitivity (backing dst !! j); [|unfold backing; apply lookup_app_l; exact Hlt].
    unfold arr. destruct Hj as [Hj|Hj].
    + rewrite lookup_app_l by (rewrite length_take; lia).
      apply lookup_take_lt. exact Hj.
    + rewrite lookup_app_r by (rewrite length_take; lia).
      rewrite lookup_app_r by (rewrite !length_take; lia).
      rewrite lookup_drop, !length_take. f_equal. lia.
  - rewrite !lookup_ge_None_2; [reflexivity | lia | rewrite length_take; lia].
Qed.

Lemma make_spec (n : nat) :
  len (make n) = n ∧ cap (make n) = n ∧ ∀ j, j < n → elems (make n) !! j = Some x00.
Proof.
  unfold make, len, cap. cbn [elems spare]. rewrite length_replicate.
  repeat split; [cbn; lia|]. intros j Hj. apply lookup_replicate_2. exact Hj.
Qed.

Lemma incrementTimestamp_frame (data new : slice) :
  15 ≤ len data →
  incrementTimestamp data = Ret new →
  len new = len data
  ∧ ∀ j, ¬ (10 ≤ j < 15) → elems new !! j = elems data !! j.
Proof.
  intros Hlen Hrun.
  destruct (incrementTimestamp_spec data Hlen) as (l & Hrun' & Hbump).
  rewrite Hrun' in Hrun. injection Hrun as <-. unfold len. cbn [elems].
  split; [apply (bumped_length _ _ _ _ Hbump)|].
  intros j Hj. apply (bumped_outside _ _ _ _ j Hbump Hj).
Qed.

(** What [Toggle] builds, whatever it read. *)
Lemma toggled_wellformed (e : bool) (data new : slice) :
  toggled e data = Ret new →
  if e
  then len new = 41 ∧ elems new !! 18 = Some x13 ∧ elems new !! 22 = Some x00
  else len new = 43 ∧ elems new !! 18 = Some x15
       ∧ elems new !! 22 = Some x00 ∧ elems new !! 23 = Some x10 ∧ elems new !! 24 = Some x00.
Proof.
  unfold toggled. intros H.
  apply bind_Ret_inv in H as (nd & Hbuild & Hts).
  destruct e.
  - destruct (make_spec 41) as (Hl0 & Hc0 & Hz0).
    apply bind_Ret_inv in Hbuild as (src1 & _ & H).
    apply bind_Ret_inv in H as (nd1 & Hc1 & H).
    apply bind_Ret_inv in H as (src2 & _ & H).
    apply bind_Ret_inv in H as (nd2 & Hc2 & Ha).
    apply copy_to_spec in Hc1 as (Hl1 & Hcap1 & Hk1).
    apply copy_to_spec in Hc2 as (Hl2 & Hcap2 & Hk2).
    apply assign_spec in Ha as (Hl3 & _ & Hv3 & Hk3).
    apply incrementTimestamp_frame in Hts as (Hl4 & Hk4); [|lia].
    split; [lia|].
    split; [rewrite Hk4 by lia; exact Hv3|].
    rewrite Hk4, Hk3, Hk2, Hk1 by lia. apply Hz0. lia.
  - destruct (make_spec 43) as (Hl0 & Hc0 & Hz0).
    apply bind_Ret_inv in Hbuild as (src1 & _ & H).
    apply bind_Ret_inv in H as (nd1 & Hc1 & H).
    apply bind_Ret_inv in H as (src2 & _ & H).
    apply bind_Ret_inv in H as (nd2 & Hc2 & H).
    apply bind_Ret_inv in H as (nd3 & Ha3 & H).
    apply bind_Ret_inv in H as (nd4 & Ha4 & Ha5).
    apply copy_to_spec in Hc1 as (Hl1 & Hcap1 & Hk1).
    apply copy_to_spec in Hc2 as (Hl2 & Hcap2 & Hk2).
    apply assign_spec in Ha3 as (Hl3 & _ & Hv3 & Hk3).
    apply assign_spec in Ha4 as (Hl4 & _ & Hv4 & Hk4).
    apply assign_spec in Ha5 as (Hl5 & _ & Hv5 & Hk5).
    apply incrementTimestamp_frame in Hts as (Hl6 & Hk6); [|lia].
    split; [lia|].
    split; [rewrite Hk6, Hk5, Hk4 by lia; exact Hv3|].
    split; [rewrite Hk6, Hk5, Hk4, Hk3, Hk2, Hk1 by lia; apply Hz0; lia|].
    split; [rewrite Hk6, Hk5 by lia; exact Hv4|].
    rewrite Hk6 by lia. exact Hv5.
Qed.

(** X5.  Whatever [Toggle] read, what it writes is well formed.  When
    [Toggle] returns without error, on any state value and any buffer
    behind it, the value written has the other state: after an enabled
    value it has 41 bytes and flag 0x13, after any other it has 43
    bytes, flag 0x15 and the markers 0x10, 0x00 at offsets 23 and 24;
    byte 22 is 0, and [Enabled] answers the opposite of before. *)
Theorem toggle_writes_wellformed (slack : list byte → list byte) (r r' : Registry) :
  Toggle slack r = Ret r' →
  ∃ e b', Enabled slack r = Ret e
          ∧ r' = withState r b'
          ∧ Enabled slack r' = Ret (negb e)
          ∧ b' !! 22 = Some x00
          ∧ if e then disabledValue b'
            else enabledValue b' ∧ b' !! 23 = Some x10 ∧ b' !! 24 = Some x00.
Proof.
  unfold Toggle. intros H.
  apply bind_Ret_inv in H as (e & He & H).
  apply bind_Ret_inv in H as (data & Hdata & H).
  apply bind_Ret_inv in H as (new & Hnew & Hset).
  exists e, (elems new).
  split; [exact He|].
  assert (r' = withState r (elems new)) as ->.
  { unfold setStateData in Hset. unfold withState.
    destruct (stateWritable r) eqn:Hw; [|discriminate Hset].
    injection Hset as <-. reflexivity. }
  split; [reflexivity|].
  apply toggled_wellformed in Hnew. unfold len in Hnew.
  rewrite (Enabled_readable slack (withState r (elems new)) (elems new) eq_refl).
  destruct e.
  - destruct Hnew as (Hl & Hf & H22). rewrite Hl, Hf.
    split; [reflexivity|]. split; [exact H22|]. split; assumption.
  - destruct Hnew as (Hl & Hf & H22 & H23 & H24). rewrite Hl, Hf.
    split; [reflexivity|]. split; [exact H22|]. repeat split; assumption.
Qed.

Lemma toggle_writes_wellformed_witness :
  ∃ r', Toggle slack64 (registryOf (replicate 19 x15) sampleSettings) = Ret r'
        ∧ ∃ e b', Enabled slack64 (registryOf (replicate 19 x15) sampleSettings) = Ret e
                  ∧ r' = withState (registryOf (replicate 19 x15) sampleSettings) b'
                  ∧ Enabled slack64 r' = Ret (negb e)
                  ∧ b' !! 22 = Some x00
                  ∧ if e then disabledValue b'
                    else enabledValue b' ∧ b' !! 23 = Some x10 ∧ b' !! 24 = Some x00.
Proof.
  eexists. split; [vm_compute; reflexivity|].
  apply (toggle_writes_wellformed slack64 (registryOf (replicate 19 x15) sampleSettings)).
  vm_compute. reflexivity.
Defined.

(** ** Runs of the timestamp loop *)

Lemma byteAt_range (d : list byte) (i : nat) : (0 ≤ byteAt d i ≤ 255)%Z.
Proof. unfold byteAt. apply byte_val_range. Qed.

Lemma byteAt_insert (d : list byte) (k : nat) (v : byte) (j : nat) :
  k < length d →
  byteAt (<[k := v]> d) j = if decide (j = k) then byte_val v else byteAt d j.
Proof.
  intros Hk. unfold byteAt. destruct (decide (j = k)) as [->|Hne].
  - rewrite list_lookup_insert_eq by exact Hk. reflexivity.
  - rewrite list_lookup_insert_ne by congruence. reflexivity.
Qed.

Lemma bumped_room (old new : list byte) :
  bumped 10 15 old new →
  timestampRoom new = Z.max 0 (timestampRoom old - 1).
Proof.
  intros [Hall -> | k b Hk Hkb Hne Hall ->]; unfold timestampRoom.
  - rewrite !(byteAt_lookup _ _ xff) by (apply Hall; lia). reflexivity.
  - pose proof (lookup_lt_Some _ _ _ Hkb) as Hlt.
    pose proof (byteAt_lookup _ _ _ Hkb) as Ek.
    pose proof (byte_incr_val b Hne) as Ei.
    pose proof (byte_val_range (byte_incr b)) as Hr.
    pose proof (byteAt_range old 10). pose proof (byteAt_range old 11).
    pose proof (byteAt_range old 12). pose proof (byteAt_range old 13).
    pose proof (byteAt_range old 14).
    rewrite !byteAt_insert by exact Hlt.
    assert (k = 10 ∨ k = 11 ∨ k = 12 ∨ k = 13 ∨ k = 14) as Hcase by lia.
    destruct Hcase as [-> | [-> | [-> | [-> | ->]]]]; repeat (case_decide; try lia).
Qed.

Lemma timestampRoom_range (d : list byte) : (0 ≤ timestampRoom d ≤ 1275)%Z.
Proof.
  unfold timestampRoom.
  pose proof (byteAt_range d 10). pose proof (byteAt_range d 11).
  pose proof (byteAt_range d 12). pose proof (byteAt_range d 13).
  pose proof (byteAt_range d 14). lia.
Qed.

Lemma timestampRoom_0 (d : list byte) (j : nat) :
  15 ≤ length d → timestampRoom d = 0%Z → 10 ≤ j < 15 → d !! j = Some xff.
Proof.
  intros Hlen Hroom Hj. unfold timestampRoom in Hroom.
  pose proof (byteAt_range d 10). pose proof (byteAt_range d 11).
  pose proof (byteAt_range d 12). pose proof (byteAt_range d 13).
  pose proof (byteAt_range d 14).
  destruct (lookup_lt_is_Some_2 d j ltac:(lia)) as [c Hc].
  pose proof (byteAt_lookup _ _ _ Hc) as Ec.
  assert (byte_val c = 255%Z) as Hv.
  { assert (j = 10 ∨ j = 11 ∨ j = 12 ∨ j = 13 ∨ j = 14) as Hcase by lia.
    destruct Hcase as [-> | [-> | [-> | [-> | ->]]]]; lia. }
  apply byte_of_val in Hv. rewrite Hc, Hv. reflexivity.
Qed.

Lemma incrementTimestamps_spec (n : nat) :
  ∀ data : slice,
    15 ≤ len data →
    ∃ new, incrementTimestamps n data = Ret (Slice new (spare data))
           ∧ length new = len data
           ∧ timestampRoom new = Z.max 0 (timestampRoom (elems data) - Z.of_nat n)
           ∧ ∀ j, ¬ (10 ≤ j < 15) → new !! j = elems data !! j.
Proof.
  induction n as [|n IH]; intros data Hlen.
  - exists (elems data). split; [destruct data; reflexivity|].
    split; [reflexivity|]. split; [|reflexivity].
    pose proof (timestampRoom_range (elems data)). lia.
  - destruct (incrementTimestamp_spec data Hlen) as (mid & Hrun & Hbump).
    pose proof (bumped_length _ _ _ _ Hbump) as Hl.
    destruct (IH (Slice mid (spare data))) as (new & Hrun' & Hl' & Hroom & Hout).
    { unfold len in *. cbn [elems]. lia. }
    exists new. cbn [incrementTimestamps]. rewrite Hrun. cbn [mbind outcome_bind].
    split; [exact Hrun'|].
    unfold len in *. cbn [elems spare] in *.
    split; [lia|].
    split.
    + rewrite Hroom, (bumped_room _ _ Hbump). lia.
    + intros j Hj. rewrite (Hout j Hj). apply (bumped_outside _ _ _ _ j Hbump Hj).
Qed.

(** X6.  The timestamp is a counter that stops.  [n] runs of the loop
    on a slice of 15 bytes or more never fail, touch bytes 10..14 only
    and use up [n] of the room left below 0xFF in these five bytes,
    which is at most 5 * 255 = 1275: after 1275 runs all five bytes
    are 0xFF and the loop does not change the slice any more. *)
Theorem timestamp_saturates (data : slice) (n : nat) :
  15 ≤ len data →
  ∃ new, incrementTimestamps n data = Ret (Slice new (spare data))
         ∧ length new = len data
         ∧ (∀ j, ¬ (10 ≤ j < 15) → new !! j = elems data !! j)
         ∧ timestampRoom new = Z.max 0 (timestampRoom (elems data) - Z.of_nat n)
         ∧ (1275 ≤ n →
            (∀ j, 10 ≤ j < 15 → new !! j = Some xff)
            ∧ incrementTimestamp (Slice new (spare data)) = Ret (Slice new (spare data))).
Proof.
  intros Hlen.
  destruct (incrementTimestamps_spec n data Hlen) as (new & Hrun & Hl & Hroom & Hout).
  exists new. repeat split; try assumption.
  - intros j Hj. apply timestampRoom_0; [lia | | exact Hj].
    pose proof (timestampRoom_range (elems data)). lia.
  - apply (bumpFrom_saturated 5 10). cbn [elems]. intros j Hj.
    apply timestampRoom_0; [lia | | lia].
    pose proof (timestampRoom_range (elems data)). lia.
Qed.

Lemma timestamp_saturates_witness :
  ∃ new, incrementTimestamps 1275 (Slice sampleDisabled []) = Ret (Slice new [])
         ∧ length new = 41
         ∧ (∀ j, ¬ (10 ≤ j < 15) → new !! j = sampleDisabled !! j)
         ∧ timestampRoom new = Z.max 0 (timestampRoom sampleDisabled - Z.of_nat 1275)
         ∧ (1275 ≤ 1275 →
            (∀ j, 10 ≤ j < 15 → new !! j = Some xff)
            ∧ incrementTimestamp (Slice new []) = Ret (Slice new [])).
Proof.
  apply (timestamp_saturates (Slice sampleDisabled []) 1275). vm_compute. lia.
Defined.

(** ** Keys that cannot be read or written *)

(** X7.  When the state value cannot be read, the package reports
    that night light is not supported from every operation, the two
    that only use the settings value included. *)
Theorem state_unreadable (slack : list byte → list byte) (r : Registry) (percentage : float64) :
  stateValue r = None →
  Supported slack r = false
  ∧ Enabled slack r = Fail ErrNotSupported
  ∧ Enable slack r = Fail ErrNotSupported
  ∧ Disable slack r = Fail ErrNotSupported
  ∧ Toggle slack r = Fail ErrNotSupported
  ∧ GetStrength slack r = Fail ErrNotSupported
  ∧ SetStrength slack r percentage = Fail ErrNotSupported.
Proof.
  intros Hs. pose proof (Enabled_unreadable slack r Hs) as He.
  unfold Enable, Disable, Toggle. rewrite He.
  unfold GetStrength, SetStrength, Supported, getStateData, readValue. rewrite Hs.
  repeat split.
Qed.

Lemma state_unreadable_witness :
  Supported noSlack {| stateValue := None; settingsValue := Some sampleSettings;
                       stateWritable := true; settingsWritable := true |} = false
  ∧ Enabled noSlack {| stateValue := None; settingsValue := Some sampleSettings;
                       stateWritable := true; settingsWritable := true |} = Fail ErrNotSupported
  ∧ Enable noSlack {| stateValue := None; settingsValue := Some sampleSettings;
                      stateWritable := true; settingsWritable := true |} = Fail ErrNotSupported
  ∧ Disable noSlack {| stateValue := None; settingsValue := Some sampleSettings;
                       stateWritable := true; settingsWritable := true |} = Fail ErrNotSupported
  ∧ Toggle noSlack {| stateValue := None; settingsValue := Some sampleSettings;
                      stateWritable := true; settingsWritable := true |} = Fail ErrNotSupported
  ∧ GetStrength noSlack {| stateValue := None; settingsValue := Some sampleSettings;
                           stateWritable := true; settingsWritable := true |} = Fail ErrNotSupported
  ∧ SetStrength noSlack {| stateValue := None; settingsValue := Some sampleSettings;
                           stateWritable := true; settingsWritable := true |} (f64_of_Z 50)
    = Fail ErrNotSupported.
Proof.
  apply (state_unreadable noSlack {| stateValue := None; settingsValue := Some sampleSettings;
                                     stateWritable := true; settingsWritable := true |}).
  reflexivity.
Defined.

(** X8.  When the state value can be read and the settings value
    cannot, night light counts as supported, and [GetStrength] and
    [SetStrength] return the error of the registry read. *)
Theorem settings_unreadable (slack : list byte → list byte) (r : Registry) (s : list byte)
    (percentage : float64) :
  stateValue r = Some s →
  settingsValue r = None →
  Supported slack r = true
  ∧ GetStrength slack r = Fail ErrRegistryRead
  ∧ SetStrength slack r percentage = Fail ErrRegistryRead.
Proof.
  intros Hs Hd.
  unfold GetStrength, SetStrength, Supported, getStateData, getSettingsData, readValue.
  rewrite Hs, Hd. repeat split.
Qed.

Lemma settings_unreadable_witness :
  Supported noSlack {| stateValue := Some sampleDisabled; settingsValue := None;
                       stateWritable := true; settingsWritable := true |} = true
  ∧ GetStrength noSlack {| stateValue := Some sampleDisabled; settingsValue := None;
                           stateWritable := true; settingsWritable := true |} = Fail ErrRegistryRead
  ∧ SetStrength noSlack {| stateValue := Some sampleDisabled; settingsValue := None;
                           stateWritable := true; settingsWritable := true |} (f64_of_Z 50)
    = Fail ErrRegistryRead.
Proof.
  apply (settings_unreadable noSlack {| stateValue := Some sampleDisabled; settingsValue := None;
                                        stateWritable := true; settingsWritable := true |}
           sampleDisabled); reflexivity.
Defined.

(** X9.  When the state key cannot be written, the operations that
    have to change a well-formed state value return the error of the
    registry write, and the ones that find the state they were asked
    for succeed without writing.  When the settings key cannot be
    written, [SetStrength] returns the error of the registry write. *)
Theorem write_refused (slack : list byte → list byte) (r : Registry) (b d : list byte)
    (percentage : float64) :
  stateValue r = Some b →
  settingsValue r = Some d →
  (stateWritable r = false →
     (disabledValue b →
        Toggle slack r = Fail ErrRegistryWrite
        ∧ Enable slack r = Fail ErrRegistryWrite
        ∧ Disable slack r = Ret r)
     ∧ (enabledValue b →
        Toggle slack r = Fail ErrRegistryWrite
        ∧ Disable slack r = Fail ErrRegistryWrite
        ∧ Enable slack r = Ret r))
  ∧ (settingsWritable r = false →
     0x25 ≤ length d →
     SetStrength slack r percentage = Fail ErrRegistryWrite).
Proof.
  intros Hb Hd.
  assert (∀ mid : list byte, 15 ≤ length mid → stateWritable r = false →
            (newData ← incrementTimestamp (Slice mid []); setStateData r newData)
            = Fail ErrRegistryWrite) as Hfail.
  { intros mid Hmid Hw.
    destruct (incrementTimestamp_spec (Slice mid [])) as (new & Hrun & _); [exact Hmid|].
    rewrite Hrun. cbn. unfold setStateData. rewrite Hw. reflexivity. }
  split.
  - intros Hw. split; intros Hv; pose proof Hv as [Hlen Hflag].
    + assert (Toggle slack r = Fail ErrRegistryWrite) as Ht.
      { rewrite (Toggle_disabled_run slack r b Hb Hlen Hflag). apply Hfail; [|exact Hw].
        rewrite length_insert, !length_app, length_take, length_drop, Hlen. cbn. lia. }
      rewrite (Enable_disabledValue slack r b Hb Hv), (Disable_disabledValue slack r b Hb Hv).
      repeat split; assumption.
    + assert (Toggle slack r = Fail ErrRegistryWrite) as Ht.
      { rewrite (Toggle_enabled_run slack r b Hb Hlen Hflag). apply Hfail; [|exact Hw].
        rewrite length_insert, !length_app, length_take, length_drop, Hlen. cbn. lia. }
      rewrite (Disable_enabledValue slack r b Hb Hv), (Enable_enabledValue slack r b Hb Hv).
      repeat split; assumption.
  - intros Hw Hlen.
    destruct (SetStrength_run slack r b d percentage Hb Hd Hlen) as (lo & hi & new & Hrun & _).
    rewrite Hrun. unfold setSettingsData. rewrite Hw. reflexivity.
Qed.

Lemma write_refused_witness :
  (Toggle noSlack {| stateValue := Some sampleEnabled; settingsValue := Some sampleSettings;
                     stateWritable := false; settingsWritable := false |} = Fail ErrRegistryWrite
   ∧ Disable noSlack {| stateValue := Some sampleEnabled; settingsValue := Some sampleSettings;
                        stateWritable := false; settingsWritable := false |} = Fail ErrRegistryWrite
   ∧ Enable noSlack {| stateValue := Some sampleEnabled; settingsValue := Some sampleSettings;
                       stateWritable := false; settingsWritable := false |}
     = Ret {| stateValue := Some sampleEnabled; settingsValue := Some sampleSettings;
              stateWritable := false; settingsWritable := false |})
  ∧ SetStrength noSlack {| stateValue := Some sampleEnabled; settingsValue := Some sampleSettings;
                           stateWritable := false; settingsWritable := false |} (f64_of_Z 50)
    = Fail ErrRegistryWrite.
Proof.
  pose proof (write_refused noSlack
                {| stateValue := Some sampleEnabled; settingsValue := Some sampleSettings;
                   stateWritable := false; settingsWritable := false |}
                sampleEnabled sampleSettings (f64_of_Z 50) eq_refl eq_refl) as [Hs Hd].
  split.
  - apply (proj2 (Hs eq_refl)). split; reflexivity.
  - apply Hd; [reflexivity | vm_compute; lia].
Defined.

(** X10.  The two registry values are independent.  A [Toggle] that
    succeeds leaves the settings value, and with it the answer of
    [GetStrength], as they were; a [SetStrength] that succeeds leaves
    the state value and the answer of [Enabled] as they were. *)
Theorem keys_independent (slack : list byte → list byte) (r r' : Registry) (p : float64) :
  (Toggle slack r = Ret r' →
     settingsValue r' = settingsValue r
     ∧ GetStrength slack r' = GetStrength slack r)
  ∧ (SetStrength slack r p = Ret r' →
     stateValue r' = stateValue r
     ∧ Enabled slack r' = Enabled slack r).
Proof.
  split; intros H.
  - unfold Toggle in H.
    apply bind_Ret_inv in H as (e & He & H).
    apply bind_Ret_inv in H as (data & Hdata & H).
    apply bind_Ret_inv in H as (new & _ & Hset).
    destruct (stateValue r) as [b|] eqn:Hb;
      [|rewrite (Enabled_unreadable slack r Hb) in He; discriminate He].
    unfold setStateData in Hset. destruct (stateWritable r); [|discriminate Hset].
    injection Hset as <-. split; [reflexivity|].
    unfold GetStrength, Supported, getStateData, getSettingsData, readValue.
    cbn [stateValue settingsValue]. rewrite Hb. reflexivity.
  - destruct (stateValue r) as [b|] eqn:Hb.
    2:{ unfold SetStrength, Supported, getStateData, readValue in H. rewrite Hb in H.
        discriminate H. }
    destruct (settingsValue r) as [d|] eqn:Hd.
    2:{ unfold SetStrength, Supported, getStateData, getSettingsData, readValue in H.
        rewrite Hb, Hd in H. discriminate H. }
    destruct (Nat.lt_ge_cases (length d) 0x25) as [Hlen|Hlen].
    { rewrite (SetStrength_short slack r b d p Hb Hd Hlen) in H. discriminate H. }
    destruct (SetStrength_run slack r b d p Hb Hd Hlen) as (lo & hi & new & Hrun & _).
    rewrite Hrun in H. unfold setSettingsData in H.
    destruct (settingsWritable r); [|discriminate H].
    injection H as <-. cbn [stateValue]. split; [exact Hb|].
    unfold Enabled, Supported, getStateData, readValue. cbn [stateValue]. rewrite Hb.
    reflexivity.
Qed.

Lemma keys_independent_witness :
  ∃ r1 r2,
    Toggle noSlack (registryOf sampleDisabled sampleSettings) = Ret r1
    ∧ SetStrength noSlack (registryOf sampleDisabled sampleSettings) (f64_of_Z 75) = Ret r2
    ∧ (settingsValue r1 = Some sampleSettings
       ∧ GetStrength noSlack r1 = GetStrength noSlack (registryOf sampleDisabled sampleSettings))
    ∧ (stateValue r2 = Some sampleDisabled
       ∧ Enabled noSlack r2 = Enabled noSlack (registryOf sampleDisabled sampleSettings)).
Proof.
  eexists _, _.
  split; [vm_compute; reflexivity|]. split; [vm_compute; reflexivity|].
  split.
  - apply (proj1 (keys_independent noSlack (registryOf sampleDisabled sampleSettings) _
                    (f64_of_Z 75))).
    vm_compute. reflexivity.
  - apply (proj2 (keys_independent noSlack (registryOf sampleDisabled sampleSettings) _
                    (f64_of_Z 75))).
    vm_compute. reflexivity.
Defined.

(** ** float64 arithmetic without rounding *)

(** *** Exact shifts *)

Lemma shr_1_exact (q : Z) :
  (0 ≤ q)%Z →
  shr_1 {| shr_m := 2 * q; shr_r := false; shr_s := false |}
  = {| shr_m := q; shr_r := false; shr_s := false |}.
Proof. destruct q as [|q|q]; intros H; try lia; reflexivity. Qed.

Lemma iter_pos_shr_exact (p : positive) :
  ∀ q, (0 ≤ q)%Z →
       SpecFloat.iter_pos shr_1 p {| shr_m := q * 2 ^ Z.pos p; shr_r := false; shr_s := false |}
       = {| shr_m := q; shr_r := false; shr_s := false |}.
Proof.
  assert (∀ k, 0 < 2 ^ Z.pos k)%Z as Hpow by (intros k; apply Z.pow_pos_nonneg; lia).
  induction p as [p IH|p IH|]; intros q Hq; cbn [SpecFloat.iter_pos].
  - replace (q * 2 ^ Z.pos p~1)%Z with (2 * (q * 2 ^ Z.pos p * 2 ^ Z.pos p))%Z
      by (rewrite pow2_xI; ring).
    pose proof (Hpow p).
    rewrite shr_1_exact by nia. rewrite IH by nia. apply IH. exact Hq.
  - replace (q * 2 ^ Z.pos p~0)%Z with (q * 2 ^ Z.pos p * 2 ^ Z.pos p)%Z
      by (rewrite pow2_xO; ring).
    pose proof (Hpow p).
    rewrite IH by nia. apply IH. exact Hq.
  - replace (q * 2 ^ 1)%Z with (2 * q)%Z by (rewrite Z.pow_1_r; ring).
    apply shr_1_exact. exact Hq.
Qed.

Lemma shr_exact (q e n : Z) :
  (0 ≤ q)%Z → (0 ≤ n)%Z →
  shr {| shr_m := q * 2 ^ n; shr_r := false; shr_s := false |} e n
  = ({| shr_m := q; shr_r := false; shr_s := false |}, (e + n)%Z).
Proof.
  intros Hq Hn. destruct n as [|p|p]; try lia.
  - rewrite Z.pow_0_r, Z.mul_1_r, Z.add_0_r. reflexivity.
  - unfold shr. rewrite iter_pos_shr_exact by exact Hq. reflexivity.
Qed.

Lemma shr_none (mrs : shr_record) (e n : Z) : (n ≤ 0)%Z → shr mrs e n = (mrs, e).
Proof. intros Hn. destruct n as [|p|p]; try lia; reflexivity. Qed.

(** *** Rounding a representable value *)

Lemma IZR_bpow_eq (a b : Z) (e f : Z) :
  (f ≤ e)%Z → (IZR a * bpow e = IZR b * bpow f)%R → b = (a * 2 ^ (e - f))%Z.
Proof.
  intros Hef H. apply eq_IZR. rewrite mult_IZR, IZR_pow2 by lia.
  rewrite (bpow_split e f) in H. pose proof (bpow_pos f) as Hf.
  apply (Rmult_eq_reg_r (bpow f)); [|lra]. rewrite <- H. ring.
Qed.

Lemma binary_round_aux_exact (sx : bool) (mx ex M E : Z) :
  (0 < mx)%Z →
  (ex ≤ fexp prec emax (Zdigits2 mx + ex))%Z →
  (0 < M < 2 ^ 53)%Z →
  (-1074 ≤ E ≤ 971)%Z →
  (IZR mx * bpow ex = IZR M * bpow E)%R →
  ∃ m e, binary_round_aux prec emax sx mx ex loc_Exact = S754_finite sx m e
         ∧ (Z.pos m < 2 ^ 53)%Z
         ∧ (IZR (Z.pos m) * bpow e = IZR mx * bpow ex)%R.
Proof.
  intros Hmx Hex HM HE Hval.
  set (e1 := fexp prec emax (Zdigits2 mx + ex)) in *.
  pose proof (Zdigits2_pos_bounds mx Hmx) as [Hdlo Hdhi].
  pose proof (Zdigits2_nonneg mx) as Hd0.
  assert (Zdigits2 mx ≠ 0%Z) as Hdnz by (destruct mx; simpl; lia).
  (* the exponent of the representation is not below the input's *)
  assert (ex ≤ E)%Z as HexE.
  { destruct (Z_le_gt_dec ex E) as [|Hgt]; [assumption|exfalso].
    pose proof (IZR_bpow_eq mx M ex E ltac:(lia) Hval) as HMe.
    assert (2 ^ (Zdigits2 mx - 1) * 2 ^ (ex - E) < 2 ^ 53)%Z as Hlt.
    { assert (0 < 2 ^ (ex - E))%Z by (apply Z.pow_pos_nonneg; lia). nia. }
    rewrite <- Z.pow_add_r in Hlt by lia.
    apply Z.pow_lt_mono_r_iff in Hlt; [|lia|lia].
    unfold e1 in Hex. rewrite fexp_eq in Hex. lia. }
  assert (mx = M * 2 ^ (E - ex))%Z as HmxM.
  { apply (IZR_bpow_eq M mx E ex HexE). symmetry. exact Hval. }
  assert (e1 ≤ E)%Z as He1E.
  { assert (Zdigits2 mx ≤ 53 + (E - ex))%Z as Hd.
    { apply Zdigits2_upper; [lia|]. split; [lia|].
      rewrite Z.pow_add_r by lia.
      assert (0 < 2 ^ (E - ex))%Z by (apply Z.pow_pos_nonneg; lia). nia. }
    unfold e1. rewrite fexp_eq. lia. }
  assert (-1074 ≤ e1)%Z as He1min by (unfold e1; rewrite fexp_eq; lia).
  set (q := (M * 2 ^ (E - e1))%Z).
  assert (0 < 2 ^ (E - e1))%Z as Hp1 by (apply Z.pow_pos_nonneg; lia).
  assert (0 < 2 ^ (e1 - ex))%Z as Hp2 by (apply Z.pow_pos_nonneg; lia).
  assert (0 < q)%Z as Hq by (unfold q; nia).
  assert (mx = q * 2 ^ (e1 - ex))%Z as Hmxq.
  { unfold q. rewrite HmxM, <- Z.mul_assoc, <- Z.pow_add_r by lia. do 2 f_equal. lia. }
  assert (q < 2 ^ 53)%Z as Hq53.
  { assert (q * 2 ^ (e1 - ex) < 2 ^ 53 * 2 ^ (e1 - ex))%Z as H; [|nia].
    rewrite <- Hmxq, <- Z.pow_add_r by lia.
    eapply Z.lt_le_trans; [exact Hdhi|]. apply Z.pow_le_mono_r; [lia|].
    unfold e1. rewrite fexp_eq. lia. }
  assert (Zdigits2 q ≤ 53)%Z as Hdq by (apply Zdigits2_upper; lia).
  unfold binary_round_aux, shr_fexp. fold e1.
  change (shr_record_of_loc mx loc_Exact)
    with {| shr_m := mx; shr_r := false; shr_s := false |}.
  pose proof (shr_exact q ex (e1 - ex) ltac:(lia) ltac:(lia)) as Hshr.
  rewrite <- Hmxq in Hshr. replace (ex + (e1 - ex))%Z with e1 in Hshr by lia.
  rewrite Hshr.
  cbn [shr_m loc_of_shr_record shr_r shr_s round_nearest_even].
  rewrite shr_none by (rewrite fexp_eq; lia).
  cbn [shr_m shr_record_of_loc].
  destruct q as [|m|m] eqn:Eq; try lia.
  assert ((e1 <=? emax - prec)%Z = true) as -> by (apply Z.leb_le; unfold emax, prec; lia).
  exists m, e1. split; [reflexivity|]. split; [lia|].
  rewrite Hmxq, mult_IZR, IZR_pow2 by lia.
  rewrite (bpow_split e1 ex). ring.
Qed.

(** The mantissa that [binary_round_aux] returns fits 53 bits. *)
Lemma binary_round_aux_bounded (sx : bool) (mx ex : Z) (lx : location) :
  (0 ≤ mx)%Z →
  (ex ≤ fexp prec emax (Zdigits2 mx + ex))%Z →
  f64_bounded (binary_round_aux prec emax sx mx ex lx) = true.
Proof.
  intros Hmx Hex. set (e1 := fexp prec emax (Zdigits2 mx + ex)) in *.
  unfold binary_round_aux, shr_fexp. fold e1.
  pose proof (shr_spec (shr_record_of_loc mx lx) ex (e1 - ex)) as Hs1.
  rewrite shr_record_of_loc_m in Hs1. specialize (Hs1 Hmx ltac:(lia)).
  destruct (shr (shr_record_of_loc mx lx) ex (e1 - ex)) as [mrs1 e1'] eqn:E1.
  simpl in Hs1. destruct Hs1 as [Hm1 He1]. replace (ex + (e1 - ex))%Z with e1 in He1 by lia.
  subst e1'.
  set (mr := round_nearest_even (shr_m mrs1) (loc_of_shr_record mrs1)).
  pose proof (round_nearest_even_bounds (shr_m mrs1) (loc_of_shr_record mrs1)) as Hr.
  fold mr in Hr. rewrite Hm1 in Hr.
  assert (0 < 2 ^ (e1 - ex))%Z as Hp1 by (apply Z.pow_pos_nonneg; lia).
  assert (0 ≤ mx / 2 ^ (e1 - ex))%Z as Hq1 by (apply Z.div_pos; lia).
  assert (mx / 2 ^ (e1 - ex) < 2 ^ 53)%Z as Hsmall.
  { apply Z.div_lt_upper_bound; [lia|].
    destruct (Z.eq_dec mx 0%Z) as [->|Hnz]; [simpl; lia|].
    pose proof (Zdigits2_pos_bounds mx ltac:(lia)) as [_ Hhi].
    eapply Z.lt_le_trans; [exact Hhi|].
    rewrite <- Z.pow_add_r by lia. apply Z.pow_le_mono_r; [lia|].
    unfold e1. rewrite fexp_eq. lia. }
  assert (-1074 ≤ e1)%Z as He1min by (unfold e1; rewrite fexp_eq; lia).
  assert (∃ m2 e2, shr (shr_record_of_loc mr loc_Exact) e1
                        (fexp prec emax (Zdigits2 mr + e1) - e1) = (m2, e2)
                   ∧ (0 ≤ shr_m m2 < 2 ^ 53)%Z) as (m2 & e2 & -> & Hm2).
  { destruct (Z_lt_ge_dec mr (2 ^ 53)) as [Hlt|Hge].
    - assert (Zdigits2 mr ≤ 53)%Z by (apply Zdigits2_upper; lia).
      rewrite shr_none by (rewrite fexp_eq; lia).
      eexists _, _. split; [reflexivity|]. rewrite shr_record_of_loc_m. lia.
    - assert (mr = 2 ^ 53)%Z as Hmr by lia.
      assert (Zdigits2 mr = 54)%Z as Hd.
      { pose proof (Zdigits2_lower mr 53 ltac:(lia) ltac:(lia)).
        pose proof (Zdigits2_upper mr 54 ltac:(lia)) as Hu.
        assert (0 ≤ mr < 2 ^ 54)%Z as Hb by (rewrite Hmr; split; [lia | reflexivity]).
        specialize (Hu Hb). lia. }
      rewrite Hd, fexp_eq. replace (Z.max (54 + e1 - 53) (-1074) - e1)%Z with 1%Z by lia.
      pose proof (shr_spec (shr_record_of_loc mr loc_Exact) e1 1) as Hs2.
      rewrite shr_record_of_loc_m in Hs2. specialize (Hs2 ltac:(lia) ltac:(lia)).
      destruct (shr (shr_record_of_loc mr loc_Exact) e1 1) as [m2 e2].
      simpl fst in Hs2. destruct Hs2 as [Hs2 _].
      exists m2, e2. split; [reflexivity|]. rewrite Hs2, Hmr.
      change (2 ^ 53 / 2 ^ 1)%Z with (2 ^ 52)%Z. split; [lia | reflexivity]. }
  destruct (shr_m m2) as [|m|m]; try reflexivity.
  destruct (e2 <=? emax - prec)%Z; [|reflexivity].
  unfold f64_bounded. apply Z.ltb_lt. lia.
Qed.

Lemma representable_abs (x : R) :
  representable x → x ≠ 0%R →
  ∃ M E : Z, (0 < M < 2 ^ 53)%Z ∧ (-1074 ≤ E ≤ 971)%Z ∧ Rabs x = (IZR M * bpow E)%R.
Proof.
  intros (M & E & HM & HE & ->) Hnz.
  exists (Z.abs M), E.
  assert (M ≠ 0%Z) as HM0 by (intros ->; apply Hnz; ring).
  split; [lia|]. split; [exact HE|].
  rewrite Rabs_mult, <- abs_IZR, (Rabs_pos_eq (bpow E)) by (apply Rlt_le, bpow_pos).
  reflexivity.
Qed.

Lemma binary_round_exact (s : bool) (m : positive) (e M E : Z) :
  (0 < M < 2 ^ 53)%Z →
  (-1074 ≤ E ≤ 971)%Z →
  (IZR (Z.pos m) * bpow e = IZR M * bpow E)%R →
  ∃ m' e', binary_round prec emax s m e = S754_finite s m' e'
           ∧ (Z.pos m' < 2 ^ 53)%Z
           ∧ (IZR (Z.pos m') * bpow e' = IZR (Z.pos m) * bpow e)%R.
Proof.
  intros HM HE Hval. unfold binary_round.
  set (t := fexp prec emax (Z.pos (digits2_pos m) + e)).
  pose proof (shl_align_spec m e t) as (He & Hm & Hd).
  destruct (shl_align m e t) as [mz ez]. simpl in He, Hm, Hd.
  assert (IZR (Z.pos mz) * bpow ez = IZR (Z.pos m) * bpow e)%R as EV.
  { rewrite Hm, mult_IZR, IZR_pow2, <- He by lia.
    rewrite (bpow_split e ez). ring. }
  rewrite <- EV.
  apply (binary_round_aux_exact s (Z.pos mz) ez M E); try assumption.
  - lia.
  - simpl Zdigits2. rewrite Hd. replace (Z.pos (digits2_pos m) + (e - Z.min e t) + ez)%Z
      with (Z.pos (digits2_pos m) + e)%Z by lia. fold t. lia.
  - rewrite EV. exact Hval.
Qed.

Lemma binary_round_bounded (s : bool) (m : positive) (e : Z) :
  f64_bounded (binary_round prec emax s m e) = true.
Proof.
  unfold binary_round.
  set (t := fexp prec emax (Z.pos (digits2_pos m) + e)).
  pose proof (shl_align_spec m e t) as (He & Hm & Hd).
  destruct (shl_align m e t) as [mz ez]. simpl in He, Hm, Hd.
  apply binary_round_aux_bounded.
  - lia.
  - simpl Zdigits2. rewrite Hd. replace (Z.pos (digits2_pos m) + (e - Z.min e t) + ez)%Z
      with (Z.pos (digits2_pos m) + e)%Z by lia. fold t. lia.
Qed.

Lemma binary_normalize_bounded (M e : Z) :
  f64_bounded (binary_normalize prec emax M e false) = true.
Proof. destruct M; simpl binary_normalize; [reflexivity | apply binary_round_bounded ..]. Qed.

Lemma binary_normalize_exact (M e : Z) :
  representable (IZR M * bpow e) →
  f64_finite (binary_normalize prec emax M e false) = true
  ∧ F2R (binary_normalize prec emax M e false) = (IZR M * bpow e)%R.
Proof.
  intros Hrep. pose proof (bpow_pos e) as Hb.
  destruct M as [|m|m]; simpl binary_normalize.
  - simpl. split; [reflexivity | ring].
  - assert (0 < IZR (Z.pos m))%R as Hm by (apply IZR_lt; lia).
    destruct (representable_abs _ Hrep) as (M & E & HM & HE & Habs); [nra|].
    rewrite Rabs_pos_eq in Habs by nra.
    destruct (binary_round_exact false m e M E HM HE Habs) as (m' & e' & -> & _ & Hv).
    split; [reflexivity|]. rewrite F2R_finite, Hv. unfold sign_of. ring.
  - assert (0 < IZR (Z.pos m))%R as Hm by (apply IZR_lt; lia).
    change (Z.neg m) with (- Z.pos m)%Z in *. rewrite opp_IZR in *.
    destruct (representable_abs _ Hrep) as (M & E & HM & HE & Habs); [nra|].
    rewrite Rabs_left in Habs by nra.
    assert (IZR (Z.pos m) * bpow e = IZR M * bpow E)%R as Habs' by lra.
    destruct (binary_round_exact true m e M E HM HE Habs') as (m' & e' & -> & _ & Hv).
    split; [reflexivity|]. rewrite F2R_finite, Hv. unfold sign_of. ring.
Qed.

(** *** Multiples of a power of two *)

Lemma onGrid_representable (E : Z) (x : R) :
  onGrid E x → (-1074 ≤ E ≤ 971)%Z → (Rabs x < bpow (53 + E))%R → representable x.
Proof.
  intros (N & ->) HE Hlt. exists N, E. split; [|split; [exact HE | reflexivity]].
  rewrite Rabs_mult, <- abs_IZR, (Rabs_pos_eq (bpow E)) in Hlt by (apply Rlt_le, bpow_pos).
  rewrite bpow_add, <- (IZR_pow2 53) in Hlt by lia.
  apply lt_IZR. pose proof (bpow_pos E). nra.
Qed.

Lemma onGrid_le (E E' : Z) (x : R) : (E' ≤ E)%Z → onGrid E x → onGrid E' x.
Proof.
  intros HE (N & ->). exists (N * 2 ^ (E - E'))%Z.
  rewrite mult_IZR, IZR_pow2 by lia. rewrite (bpow_split E E'). ring.
Qed.

Lemma onGrid_plus (E : Z) (x y : R) : onGrid E x → onGrid E y → onGrid E (x + y).
Proof. intros (N & ->) (N' & ->). exists (N + N')%Z. rewrite plus_IZR. ring. Qed.

Lemma onGrid_minus (E : Z) (x y : R) : onGrid E x → onGrid E y → onGrid E (x - y).
Proof. intros (N & ->) (N' & ->). exists (N - N')%Z. rewrite minus_IZR. ring. Qed.

Lemma onGrid_scale (E c : Z) (x : R) : onGrid E x → onGrid E (x * IZR c).
Proof. intros (N & ->). exists (N * c)%Z. rewrite mult_IZR. ring. Qed.

Lemma onGrid_IZR (E n : Z) : (E ≤ 0)%Z → onGrid E (IZR n).
Proof.
  intros HE. apply (onGrid_le 0); [exact HE|]. exists n. rewrite bpow_0. ring.
Qed.

Lemma onGrid_F2R (s : bool) (m : positive) (e : Z) : onGrid e (F2R (S754_finite s m e)).
Proof.
  exists (cond_Zopp s (Z.pos m)). rewrite cond_Zopp_IZR, F2R_finite. ring.
Qed.

(** *** Operations whose result is representable *)

Lemma f64_sub_exact (x y : float64) :
  f64_finite x = true →
  f64_finite y = true →
  representable (F2R x - F2R y) →
  f64_finite (f64_sub x y) = true ∧ F2R (f64_sub x y) = (F2R x - F2R y)%R.
Proof.
  intros Hx Hy Hrep.
  destruct x as [sx| | |sx mx ex]; try discriminate Hx;
    destruct y as [sy| | |sy my ey]; try discriminate Hy.
  - split; [destruct sx, sy; reflexivity|].
    assert (F2R (f64_sub (S754_zero sx) (S754_zero sy)) = 0%R) as -> by (destruct sx, sy; reflexivity).
    simpl. ring.
  - split; [reflexivity|].
    unfold f64_sub, SFsub. rewrite !F2R_finite. simpl F2R.
    unfold sign_of; destruct sy; simpl; ring.
  - split; [reflexivity|]. unfold f64_sub, SFsub. simpl F2R. ring.
  - unfold f64_sub, SFsub.
    set (ez := Z.min ex ey).
    set (M := (cond_Zopp sx (Z.pos (fst (shl_align mx ex ez)))
               - cond_Zopp sy (Z.pos (fst (shl_align my ey ez))))%Z).
    assert (IZR M * bpow ez = F2R (S754_finite sx mx ex) - F2R (S754_finite sy my ey))%R as EM.
    { unfold M. rewrite minus_IZR, Rmult_minus_distr_r.
      rewrite (aligned_value sx mx ex ez), (aligned_value sy my ey ez) by (unfold ez; lia).
      reflexivity. }
    rewrite <- EM in *. apply binary_normalize_exact. exact Hrep.
Qed.

Lemma f64_sub_bounded (x y : float64) :
  f64_bounded x = true → f64_bounded y = true → f64_bounded (f64_sub x y) = true.
Proof.
  intros Hx Hy.
  destruct x as [sx|sx| |sx mx ex]; destruct y as [sy|sy| |sy my ey];
    try reflexivity; try assumption.
  - destruct sx, sy; reflexivity.
  - destruct sx, sy; reflexivity.
  - unfold f64_sub, SFsub. apply binary_normalize_bounded.
Qed.

Lemma f64_add_exact (x y : float64) :
  f64_finite x = true →
  f64_finite y = true →
  representable (F2R x + F2R y) →
  f64_finite (f64_add x y) = true ∧ F2R (f64_add x y) = (F2R x + F2R y)%R.
Proof.
  intros Hx Hy Hrep.
  destruct x as [sx| | |sx mx ex]; try discriminate Hx;
    destruct y as [sy| | |sy my ey]; try discriminate Hy.
  - split; [destruct sx, sy; reflexivity|].
    assert (F2R (f64_add (S754_zero sx) (S754_zero sy)) = 0%R) as -> by (destruct sx, sy; reflexivity).
    simpl. ring.
  - split; [reflexivity|]. unfold f64_add, SFadd. simpl F2R. ring.
  - split; [reflexivity|]. unfold f64_add, SFadd. simpl F2R. ring.
  - unfold f64_add, SFadd.
    set (ez := Z.min ex ey).
    set (M := (cond_Zopp sx (Z.pos (fst (shl_align mx ex ez)))
               + cond_Zopp sy (Z.pos (fst (shl_align my ey ez))))%Z).
    assert (IZR M * bpow ez = F2R (S754_finite sx mx ex) + F2R (S754_finite sy my ey))%R as EM.
    { unfold M. rewrite plus_IZR, Rmult_plus_distr_r.
      rewrite (aligned_value sx mx ex ez), (aligned_value sy my ey ez) by (unfold ez; lia).
      reflexivity. }
    rewrite <- EM in *. apply binary_normalize_exact. exact Hrep.
Qed.

Lemma f64_mul_exact (x y : float64) :
  f64_finite x = true →
  f64_normal y = true →
  representable (F2R x * F2R y) →
  f64_finite (f64_mul x y) = true ∧ F2R (f64_mul x y) = (F2R x * F2R y)%R.
Proof.
  intros Hx Hy Hrep.
  destruct y as [| | |sy my ey]; try discriminate Hy.
  destruct x as [sx| | |sx mx ex]; try discriminate Hx.
  - simpl. split; [reflexivity | ring].
  - unfold f64_mul, SFmul.
    rewrite !F2R_finite in *.
    set (X := (IZR (Z.pos (mx * my)) * bpow (ex + ey))%R).
    assert ((sign_of sx * (IZR (Z.pos mx) * bpow ex) * (sign_of sy * (IZR (Z.pos my) * bpow ey)))%R
            = (sign_of (xorb sx sy) * X)%R) as EX.
    { unfold X. rewrite sign_of_xorb, Pos2Z.inj_mul, mult_IZR, bpow_add. ring. }
    rewrite EX in *.
    assert (0 < X)%R as HX0.
    { unfold X. pose proof (bpow_pos (ex + ey)).
      assert (0 < IZR (Z.pos (mx * my)))%R by (apply IZR_lt; lia). nra. }
    destruct (representable_abs _ Hrep) as (M & E & HM & HE & Habs).
    { unfold sign_of. destruct (xorb sx sy); lra. }
    rewrite Rabs_sign_of, Rabs_pos_eq in Habs by lra.
    destruct (binary_round_aux_exact (xorb sx sy) (Z.pos (mx * my)) (ex + ey) M E)
      as (m' & e' & -> & _ & Hv); try assumption.
    + lia.
    + apply Pos.eqb_eq in Hy. simpl in Hy.
      pose proof (digits2_pos_bounds my) as [Hlo _]. rewrite Hy in Hlo.
      assert (52 + 1 ≤ Zdigits2 (Z.pos (mx * my)))%Z as Hd.
      { apply Zdigits2_lower; [lia|]. change (53 - 1)%Z with 52%Z in Hlo. nia. }
      pose proof (fexp_ge (Zdigits2 (Z.pos (mx * my)) + (ex + ey))). lia.
    + split; [reflexivity|]. rewrite F2R_finite, Hv. reflexivity.
Qed.

(** *** Division by a power of two *)

Lemma new_location_0 (n : Z) : new_location n 0 = loc_Exact.
Proof. unfold new_location. destruct (Z.even n); reflexivity. Qed.

Lemma mod_eucl (a b : Z) : snd (Z.div_eucl a b) = (a mod b)%Z.
Proof. reflexivity. Qed.

Lemma SFdiv_core_binary_pow2 (m1 m2 : positive) (e1 e2 : Z) :
  Z.pos m2 = (2 ^ 52)%Z →
  (Z.pos m1 < 2 ^ 53)%Z →
  (-1074 ≤ e1 - e2 - 52)%Z →
  ∃ e, (e ≤ e1 - e2 - 52)%Z
       ∧ SFdiv_core_binary prec emax (Z.pos m1) e1 (Z.pos m2) e2
         = ((Z.pos m1 * 2 ^ (e1 - e2 - 52 - e))%Z, e, loc_Exact).
Proof.
  intros H2 H1 Hr. unfold SFdiv_core_binary.
  set (d1 := Zdigits2 (Z.pos m1)). set (d2 := Zdigits2 (Z.pos m2)).
  assert (d1 ≤ 53)%Z as Hd1 by (apply Zdigits2_upper; lia).
  assert (d2 = 53)%Z as Hd2.
  { pose proof (Zdigits2_lower (Z.pos m2) 52 ltac:(lia) ltac:(lia)).
    pose proof (Zdigits2_upper (Z.pos m2) 53 ltac:(lia)) as Hu.
    assert (0 ≤ Z.pos m2 < 2 ^ 53)%Z as Hb by (rewrite H2; split; [lia | reflexivity]).
    specialize (Hu Hb). unfold d2. lia. }
  set (e := Z.min (fexp prec emax (d1 + e1 - (d2 + e2))) (e1 - e2)).
  assert (e ≤ e1 - e2 - 52)%Z as He by (unfold e; rewrite fexp_eq; lia).
  set (s := (e1 - e2 - e)%Z).
  assert (52 ≤ s)%Z as Hs by (unfold s; lia).
  set (m' := match s with Z.pos _ => Z.shiftl (Z.pos m1) s | Z0 => Z.pos m1 | Z.neg _ => 0%Z end).
  assert (m' = Z.pos m1 * 2 ^ (s - 52) * Z.pos m2)%Z as Hm'.
  { unfold m'. destruct s as [|p|p] eqn:Es; try lia.
    rewrite Z.shiftl_mul_pow2 by lia. rewrite H2, <- Z.mul_assoc, <- Z.pow_add_r by lia.
    do 2 f_equal. lia. }
  pose proof (div_eucl_div m' (Z.pos m2)) as Hq.
  pose proof (mod_eucl m' (Z.pos m2)) as Hrem.
  destruct (Z.div_eucl m' (Z.pos m2)) as [q r]. cbn [fst snd] in Hq, Hrem.
  rewrite Hm', Z.div_mul in Hq by lia. rewrite Hm', Z.mod_mul in Hrem by lia.
  subst q r. rewrite new_location_0.
  exists e. split; [exact He|].
  replace (e1 - e2 - 52 - e)%Z with (s - 52)%Z by (unfold s; lia). reflexivity.
Qed.

Lemma f64_div_pow2_exact (x : float64) (my : positive) (ey : Z) :
  f64_finite x = true →
  f64_bounded x = true →
  Z.pos my = (2 ^ 52)%Z →
  (∀ sx mx ex, x = S754_finite sx mx ex → (-1074 ≤ ex - ey - 52 ≤ 971)%Z) →
  f64_finite (f64_div x (S754_finite false my ey)) = true
  ∧ F2R (f64_div x (S754_finite false my ey)) = (F2R x / bpow (52 + ey))%R.
Proof.
  intros Hx Hb Hmy Hrange. pose proof (bpow_pos (52 + ey)) as Hpy.
  destruct x as [sx| | |sx mx ex]; try discriminate Hx.
  - simpl. split; [reflexivity|]. unfold Rdiv. ring.
  - specialize (Hrange sx mx ex eq_refl).
    unfold f64_bounded in Hb. apply Z.ltb_lt in Hb.
    unfold f64_div, SFdiv.
    destruct (SFdiv_core_binary_spec mx my ex ey) as (q & e & l & Hcore & _ & _ & Hpre).
    destruct (SFdiv_core_binary_pow2 mx my ex ey Hmy Hb ltac:(lia)) as (e' & He' & Hcore').
    rewrite Hcore in Hcore'. injection Hcore' as Hq <- ->. rewrite Hcore.
    assert (0 < 2 ^ (ex - ey - 52 - e))%Z as Hp by (apply Z.pow_pos_nonneg; lia).
    assert (IZR q * bpow e = IZR (Z.pos mx) * bpow (ex - ey - 52))%R as Hval.
    { rewrite Hq, mult_IZR, IZR_pow2 by lia.
      rewrite (bpow_split (ex - ey - 52) e). ring. }
    destruct (binary_round_aux_exact (xorb sx false) q e (Z.pos mx) (ex - ey - 52))
      as (m' & e'' & -> & _ & Hv); try assumption; try lia.
    split; [reflexivity|].
    rewrite !F2R_finite, Hv, Hval. rewrite xorb_false_r.
    assert (bpow ex = bpow (ex - ey - 52) * bpow (52 + ey))%R as ->
        by (rewrite <- bpow_add; f_equal; lia).
    field. lra.
Qed.

(** *** Truncation *)

Lemma f64_trunc_floor (x : float64) :
  f64_finite x = true →
  (0 <= F2R x)%R →
  ∃ z, f64_trunc x = Some z ∧ (IZR z <= F2R x < IZR z + 1)%R.
Proof.
  intros Hx Hpos. destruct x as [s| | |s m e]; try discriminate Hx.
  - exists 0%Z. split; [reflexivity|]. simpl. lra.
  - pose proof (bpow_pos e) as Hb.
    assert (0 < IZR (Z.pos m))%R as Hm by (apply IZR_lt; lia).
    rewrite F2R_finite in *.
    destruct s; [unfold sign_of in Hpos; nra|].
    unfold sign_of. rewrite Rmult_1_l.
    exists (Z.shiftl (Z.pos m) e). split; [reflexivity|].
    destruct (Z_le_gt_dec 0 e) as [He|He].
    + rewrite Z.shiftl_mul_pow2, mult_IZR, IZR_pow2 by lia. lra.
    + rewrite Z.shiftl_div_pow2 by lia.
      pose proof (div_pow2_bracket (Z.pos m) (- e) e ltac:(lia) ltac:(lia)) as [H1 H2].
      rewrite Z.add_opp_diag_r, bpow_0 in H1, H2. rewrite !plus_IZR in H2.
      rewrite plus_IZR in H2 || idtac. lra.
Qed.

Lemma byte_val_of_Z (z : Z) : (0 ≤ z ≤ 255)%Z → byte_val (byte_of_Z z) = z.
Proof.
  intros Hz. unfold byte_of_Z, byte_val.
  rewrite Z.mod_small by lia.
  destruct (Byte.of_N (Z.to_N z)) as [b|] eqn:E.
  - apply Byte.to_of_N in E. rewrite E. lia.
  - apply Byte.of_N_None_iff in E. lia.
Qed.

(** [byte(x)] for a float64 that is a number of [0, 256): the integer
    part. *)
Lemma byte_of_f64_floor (x : float64) :
  f64_finite x = true →
  (0 <= F2R x < 256)%R →
  (IZR (byte_val (byte_of_f64 x)) <= F2R x < IZR (byte_val (byte_of_f64 x)) + 1)%R.
Proof.
  intros Hx [H0 H256].
  destruct (f64_trunc_floor x Hx H0) as (z & Hz & Hlo & Hhi).
  unfold byte_of_f64. rewrite Hz.
  assert (0 ≤ z ≤ 255)%Z as Hr.
  { split.
    - assert (-1 < z)%Z; [apply lt_IZR; lra | lia].
    - assert (z < 256)%Z; [apply lt_IZR; lra | lia]. }
  rewrite byte_val_of_Z by exact Hr. lra.
Qed.

(** ** The temperature bytes of SetStrength *)

Lemma f64_mul_bounded (x y : float64) :
  f64_normal y = true → f64_bounded (f64_mul x y) = true.
Proof.
  intros Hy. destruct y as [| | |sy my ey]; try discriminate Hy.
  destruct x as [sx|sx| |sx mx ex]; try reflexivity.
  unfold f64_mul, SFmul. apply binary_round_aux_bounded; [lia|].
  apply Pos.eqb_eq in Hy. simpl in Hy.
  pose proof (digits2_pos_bounds my) as [Hlo _]. rewrite Hy in Hlo.
  assert (52 + 1 ≤ Zdigits2 (Z.pos (mx * my)))%Z as Hd.
  { apply Zdigits2_lower; [lia|]. change (53 - 1)%Z with 52%Z in Hlo. nia. }
  pose proof (fexp_ge (Zdigits2 (Z.pos (mx * my)) + (ex + ey))). lia.
Qed.

Lemma percentageToKelvin_bounded (p : float64) : f64_bounded (percentageToKelvin p) = true.
Proof.
  unfold percentageToKelvin. apply f64_sub_bounded.
  - rewrite c6500_eq. reflexivity.
  - apply f64_mul_bounded. rewrite c5300_eq. reflexivity.
Qed.

Lemma bpow_6 : bpow 6 = 64%R.
Proof. unfold bpow. simpl. lra. Qed.

Lemma bpow_10 : bpow 10 = 1024%R.
Proof. unfold bpow. simpl. lra. Qed.

Lemma bpow_11 : bpow 11 = 2048%R.
Proof. unfold bpow. simpl. lra. Qed.

Lemma f64_of_byte_exact (b : byte) :
  f64_finite (f64_of_byte b) = true ∧ F2R (f64_of_byte b) = IZR (byte_val b).
Proof.
  pose proof (byte_val_range b) as Hr.
  unfold f64_of_byte, f64_of_Z.
  replace (IZR (byte_val b)) with (IZR (byte_val b) * bpow 0)%R by (rewrite bpow_0; ring).
  apply binary_normalize_exact.
  exists (byte_val b), 0%Z. split; [|split; [lia | reflexivity]].
  assert (256 < 2 ^ 53)%Z by reflexivity. lia.
Qed.

(** The bytes computed for a temperature [K] of [1024, 16384): the high
    byte is the integer part of [K / 64], the low byte is 128 plus the
    integer part of twice the rest. *)
Lemma temperature_bytes (K : float64) :
  f64_finite K = true →
  f64_bounded K = true →
  (1024 <= F2R K < 16384)%R →
  (IZR (byte_val (tempHi K)) <= F2R K / 64 < IZR (byte_val (tempHi K)) + 1)%R
  ∧ (IZR (byte_val (tempLo K)) <= 2 * (F2R K - 64 * IZR (byte_val (tempHi K))) + 128
     < IZR (byte_val (tempLo K)) + 1)%R.
Proof.
  intros HfK HbK HK.
  pose proof F2R_64 as E64. pose proof F2R_128 as E128. pose proof F2R_2 as E2.
  assert (f64_normal (f64_of_Z 64) = true) as N64 by (rewrite c64_eq; reflexivity).
  assert (f64_normal (f64_of_Z 2) = true) as N2 by (rewrite c2_eq; reflexivity).
  assert (f64_finite (f64_of_Z 128) = true) as F128 by (rewrite c128_eq; reflexivity).
  (* the exponent of K *)
  assert (onGrid (-42) (F2R K)) as GK.
  { destruct K as [s|s| |s m e]; try discriminate HfK; [simpl in HK; lra|].
    apply (onGrid_le e); [|apply onGrid_F2R].
    unfold f64_bounded in HbK. apply Z.ltb_lt in HbK.
    destruct (Z_le_gt_dec (-42) e) as [|Hlt]; [assumption|exfalso].
    rewrite F2R_finite in HK. pose proof (bpow_pos e) as Hb.
    apply IZR_lt in HbK. rewrite IZR_pow2 in HbK by lia.
    assert (Rabs (sign_of s * (IZR (Z.pos m) * bpow e)) < bpow 53 * bpow e)%R as Habs.
    { rewrite Rabs_sign_of, Rabs_pos_eq.
      - apply Rmult_lt_compat_r; assumption.
      - assert (0 < IZR (Z.pos m))%R by (apply IZR_lt; lia). nra. }
    rewrite <- bpow_add in Habs.
    pose proof (bpow_le (53 + e) 10 ltac:(lia)) as Hle. rewrite bpow_10 in Hle.
    rewrite Rabs_pos_eq in Habs by lra. lra. }
  (* kelvin / 64 *)
  assert (f64_finite (f64_div K (f64_of_Z 64)) = true
          ∧ F2R (f64_div K (f64_of_Z 64)) = (F2R K / 64)%R) as [Hfd Hvd].
  { rewrite c64_eq. rewrite <- bpow_6.
    apply (f64_div_pow2_exact K 4503599627370496 (-46) HfK HbK); [reflexivity|].
    intros sx mx ex ->. rewrite F2R_finite in HK. pose proof (bpow_pos ex) as Hb.
    unfold f64_bounded in HbK. apply Z.ltb_lt in HbK.
    apply IZR_lt in HbK. rewrite IZR_pow2 in HbK by lia.
    assert (0 < IZR (Z.pos mx))%R as Hm by (apply IZR_lt; lia).
    assert (1 <= IZR (Z.pos mx))%R as Hm1 by (apply IZR_le; lia).
    assert (sx = false) as -> by (destruct sx; [unfold sign_of in HK; nra | reflexivity]).
    unfold sign_of in HK. rewrite Rmult_1_l in HK.
    split.
    - destruct (Z_le_gt_dec (-42) ex) as [|Hlt]; [lia|exfalso].
      pose proof (bpow_le (53 + ex) 10 ltac:(lia)) as Hle.
      rewrite bpow_add, bpow_10 in Hle. nra.
    - destruct (Z_le_gt_dec ex 13) as [|Hgt]; [lia|exfalso].
      pose proof (bpow_le 14 ex ltac:(lia)) as Hle. rewrite bpow_14 in Hle. nra. }
  pose proof (byte_of_f64_floor _ Hfd) as Hhi. rewrite Hvd in Hhi.
  specialize (Hhi ltac:(lra)). fold (tempHi K) in Hhi.
  split; [exact Hhi|].
  set (hi := byte_val (tempHi K)) in *.
  pose proof (byte_val_range (tempHi K)) as Hrange. fold hi in Hrange.
  assert (0 <= IZR hi <= 255)%R as HrangeR by (split; apply IZR_le; lia).
  (* float64(tempHi) * 64 *)
  destruct (f64_of_byte_exact (tempHi K)) as [Hfh Hvh]. fold hi in Hvh.
  destruct (f64_mul_exact _ _ Hfh N64) as [Hf1 Hv1].
  { rewrite Hvh, E64. exists (hi * 64)%Z, 0%Z.
    split; [|split; [lia | rewrite mult_IZR, bpow_0; ring]].
    assert (256 * 64 < 2 ^ 53)%Z by reflexivity. lia. }
  rewrite Hvh, E64 in Hv1.
  (* kelvin - ... *)
  destruct (f64_sub_exact K _ HfK Hf1) as [Hf2 Hv2].
  { rewrite Hv1. apply (onGrid_representable (-42)); [|lia|].
    - apply onGrid_minus; [exact GK|].
      rewrite <- mult_IZR. apply onGrid_IZR. lia.
    - change (53 + -42)%Z with 11%Z. rewrite bpow_11. apply Rabs_def1; lra. }
  rewrite Hv1 in Hv2.
  (* ... * 2 *)
  destruct (f64_mul_exact _ _ Hf2 N2) as [Hf3 Hv3].
  { rewrite Hv2, E2. apply (onGrid_representable (-42)); [|lia|].
    - apply onGrid_scale. apply onGrid_minus; [exact GK|].
      rewrite <- mult_IZR. apply onGrid_IZR. lia.
    - change (53 + -42)%Z with 11%Z. rewrite bpow_11. apply Rabs_def1; lra. }
  rewrite Hv2, E2 in Hv3.
  (* ... + 128 *)
  destruct (f64_add_exact _ _ Hf3 F128) as [Hf4 Hv4].
  { rewrite Hv3, E128. apply (onGrid_representable (-42)); [|lia|].
    - apply onGrid_plus; [|apply onGrid_IZR; lia].
      apply onGrid_scale. apply onGrid_minus; [exact GK|].
      rewrite <- mult_IZR. apply onGrid_IZR. lia.
    - change (53 + -42)%Z with 11%Z. rewrite bpow_11. apply Rabs_def1; lra. }
  rewrite Hv3, E128 in Hv4.
  pose proof (byte_of_f64_floor _ Hf4) as Hlo. rewrite Hv4 in Hlo.
  specialize (Hlo ltac:(lra)). fold (tempLo K) in Hlo. lra.
Qed.

(** The temperature that the two bytes encode is [K] rounded down to a
    multiple of one half. *)
Lemma temperature_encoded (K : float64) :
  f64_finite K = true →
  f64_bounded K = true →
  (1024 <= F2R K < 16384)%R →
  (F2R K - / 2 < encodedKelvin (tempLo K) (tempHi K) <= F2R K)%R
  ∧ (128 ≤ byte_val (tempLo K))%Z.
Proof.
  intros HfK HbK HK.
  destruct (temperature_bytes K HfK HbK HK) as [Hhi Hlo].
  unfold encodedKelvin. split; [lra|].
  apply le_IZR.
  assert (127 < byte_val (tempLo K))%Z; [apply lt_IZR; lra | apply IZR_le; lia].
Qed.

(** *** The clamp *)

Lemma SFleb_SFltb_pos (m1 m2 : positive) (e1 e2 : Z) :
  SFleb (S754_finite false m1 e1) (S754_finite false m2 e2) = true →
  SFltb (S754_finite false m2 e2) (S754_finite false m1 e1) = false.
Proof.
  unfold SFleb, SFltb, SFcompare.
  rewrite (Z.compare_antisym e1 e2).
  destruct (e1 ?= e2)%Z; cbn [CompOpp]; try (intros; congruence).
  pose proof (Pos.compare_cont_antisym m1 m2 Eq) as Ha. cbn [CompOpp] in Ha. rewrite <- Ha.
  destruct (Pos.compare_cont Eq m1 m2); cbn [CompOpp]; intros; congruence.
Qed.

Lemma clampPercentage_in_range (p : float64) :
  f64_le (f64_of_Z 0) p = true →
  f64_le p (f64_of_Z 100) = true →
  clampPercentage p = p.
Proof.
  unfold clampPercentage, f64_le, f64_lt. rewrite c100_eq.
  change (f64_of_Z 0) with (S754_zero false).
  intros H0 H100.
  destruct p as [s|s| |s m e]; try discriminate H0.
  - reflexivity.
  - destruct s; discriminate.
  - destruct s; [discriminate H0|].
    rewrite (SFleb_SFltb_pos _ _ _ _ H100). reflexivity.
Qed.

Lemma clampPercentage_above (p : float64) :
  f64_lt (f64_of_Z 100) p = true → clampPercentage p = f64_of_Z 100.
Proof.
  unfold clampPercentage, f64_lt. rewrite c100_eq.
  change (f64_of_Z 0) with (S754_zero false).
  intros H. rewrite H.
  destruct p as [s|s| |s m e]; try discriminate H.
  - destruct s; [discriminate H | reflexivity].
  - destruct s; [discriminate H | reflexivity].
Qed.

Lemma clampPercentage_below (p : float64) :
  f64_lt p (f64_of_Z 0) = true → clampPercentage p = f64_of_Z 0.
Proof. unfold clampPercentage. intros ->. reflexivity. Qed.

Section StrengthFacts.

Variable slack : list byte → list byte.

(** [SetStrength] on a value long enough, with the bytes it stores. *)
Lemma SetStrength_bytes (r : Registry) (s d : list byte) (percentage : float64) :
  stateValue r = Some s →
  settingsValue r = Some d →
  0x25 ≤ length d →
  ∃ new,
    SetStrength slack r percentage = setSettingsData r (Slice new (slack d))
    ∧ length new = length d
    ∧ new !! 0x23 = Some (tempLo (percentageToKelvin (clampPercentage percentage)))
    ∧ new !! 0x24 = Some (tempHi (percentageToKelvin (clampPercentage percentage))).
Proof.
  intros Hs Hd Hlen. unfold SetStrength, Supported, getStateData, getSettingsData, readValue.
  rewrite Hs, Hd. cbn [negb mbind outcome_bind]. unfold len. cbn [elems].
  destruct (Nat.ltb_spec (length d) 37) as [|_]; [lia|].
  set (kelvin := percentageToKelvin (clampPercentage percentage)).
  fold (tempHi kelvin). fold (tempLo kelvin).
  rewrite assign_in_range by (unfold len; cbn [elems]; lia).
  cbn [mbind outcome_bind elems spare].
  rewrite assign_in_range by (unfold len; cbn [elems]; rewrite length_insert; lia).
  cbn [mbind outcome_bind elems spare].
  destruct (incrementTimestamp_spec
              (Slice (<[36 := tempHi kelvin]> (<[35 := tempLo kelvin]> d)) (slack d)))
    as (new & Hrun & Hbump).
  { unfold len. cbn [elems]. rewrite !length_insert. lia. }
  rewrite Hrun. cbn [mbind outcome_bind spare elems] in *.
  exists new. split; [reflexivity|].
  pose proof (bumped_length _ _ _ _ Hbump) as Hl. rewrite !length_insert in Hl.
  split; [exact Hl|]. split.
  - rewrite (bumped_outside _ _ _ _ 35 Hbump) by lia.
    rewrite list_lookup_insert_ne by lia. apply list_lookup_insert_eq. lia.
  - rewrite (bumped_outside _ _ _ _ 36 Hbump) by lia.
    apply list_lookup_insert_eq. rewrite length_insert. lia.
Qed.

End StrengthFacts.

(** X11.  [GetStrength] after [SetStrength].  For every float64 [p]
    of [0, 100], [SetStrength p] on a writable settings value of 0x25
    bytes or more succeeds, and [GetStrength] then returns a number
    that is not below [p - 1e-6] and not above [p + 0.01]: the
    temperature is stored in steps of half a kelvin, rounded down. *)
Theorem set_strength_then_get (slack : list byte → list byte) (r : Registry)
    (s d : list byte) (p : float64) :
  valid_binary prec emax p = true →
  f64_le (f64_of_Z 0) p = true →
  f64_le p (f64_of_Z 100) = true →
  stateValue r = Some s →
  settingsValue r = Some d →
  settingsWritable r = true →
  0x25 ≤ length d →
  ∃ r' v, SetStrength slack r p = Ret r'
          ∧ GetStrength slack r' = Ret v
          ∧ f64_finite v = true
          ∧ (F2R p - / 1000000 <= F2R v <= F2R p + / 100)%R.
Proof.
  intros Hv H0 H100 Hs Hd Hw Hlen.
  destruct (percentage_bounds p Hv H0 H100) as [Hfp HP].
  destruct (SetStrength_bytes slack r s d p Hs Hd Hlen) as (new & Hrun & Hl & Hlo & Hhi).
  rewrite (clampPercentage_in_range p H0 H100) in Hlo, Hhi.
  set (K := percentageToKelvin p) in *.
  destruct (percentageToKelvin_value p Hfp HP) as [HfK HK]. fold K in HfK, HK.
  apply Rabs_le_inv in HK.
  pose proof (percentageToKelvin_bounded p) as HbK. fold K in HbK.
  destruct (temperature_encoded K HfK HbK ltac:(lra)) as [Henc _].
  exists (withSettings r new), (kelvinToPercentage (bytesToKelvin (tempLo K) (tempHi K))).
  split.
  { rewrite Hrun. unfold setSettingsData, withSettings. rewrite Hw. reflexivity. }
  split.
  { rewrite (GetStrength_readable slack (withSettings r new) s new Hs eq_refl), Hlo, Hhi.
    destruct (Nat.ltb_spec (length new) 37) as [|_]; [lia | reflexivity]. }
  destruct (decoded_strength_value (tempLo K) (tempHi K)) as (Hfin & Hval & _).
  apply Rabs_le_inv in Hval.
  split; [exact Hfin|]. lra.
Qed.

Lemma set_strength_then_get_witness :
  ∃ r' v, SetStrength noSlack (registryOf sampleDisabled sampleSettings) (f64_of_Z 75) = Ret r'
          ∧ GetStrength noSlack r' = Ret v
          ∧ f64_finite v = true
          ∧ (F2R (f64_of_Z 75) - / 1000000 <= F2R v <= F2R (f64_of_Z 75) + / 100)%R.
Proof.
  apply (set_strength_then_get noSlack (registryOf sampleDisabled sampleSettings)
           sampleDisabled sampleSettings (f64_of_Z 75));
    [vm_compute; reflexivity | vm_compute; reflexivity | vm_compute; reflexivity
    | reflexivity | reflexivity | reflexivity | vm_compute; lia].
Defined.

(** X12.  The clamp of [SetStrength].  A percentage above 100, the
    positive infinity included, is treated as 100: the call is the call
    with 100, and on a writable settings value of 0x25 bytes or more it
    succeeds and the value it writes has the bytes 0xE0, 0x12 (1200
    kelvin) at the offsets 0x23, 0x24.  A percentage below 0, the
    negative infinity included, is treated as 0, and the value written
    has the bytes 0xC8, 0x65 (6500 kelvin) there. *)
Theorem set_strength_clamps (slack : list byte → list byte) (r : Registry) (p : float64) :
  (f64_lt (f64_of_Z 100) p = true →
     SetStrength slack r p = SetStrength slack r (f64_of_Z 100)
     ∧ tempLo (percentageToKelvin (clampPercentage p)) = xe0
     ∧ tempHi (percentageToKelvin (clampPercentage p)) = x12
     ∧ ∀ s d, stateValue r = Some s →
              settingsValue r = Some d →
              settingsWritable r = true →
              0x25 ≤ length d →
              ∃ d', SetStrength slack r p = Ret (withSettings r d')
                    ∧ d' !! 0x23 = Some xe0
                    ∧ d' !! 0x24 = Some x12)
  ∧ (f64_lt p (f64_of_Z 0) = true →
     SetStrength slack r p = SetStrength slack r (f64_of_Z 0)
     ∧ tempLo (percentageToKelvin (clampPercentage p)) = xc8
     ∧ tempHi (percentageToKelvin (clampPercentage p)) = x65
     ∧ ∀ s d, stateValue r = Some s →
              settingsValue r = Some d →
              settingsWritable r = true →
              0x25 ≤ length d →
              ∃ d', SetStrength slack r p = Ret (withSettings r d')
                    ∧ d' !! 0x23 = Some xc8
                    ∧ d' !! 0x24 = Some x65).
Proof.
  assert (∀ s d, stateValue r = Some s →
                 settingsValue r = Some d →
                 settingsWritable r = true →
                 0x25 ≤ length d →
                 ∃ d', SetStrength slack r p = Ret (withSettings r d')
                       ∧ d' !! 0x23 = Some (tempLo (percentageToKelvin (clampPercentage p)))
                       ∧ d' !! 0x24 = Some (tempHi (percentageToKelvin (clampPercentage p))))
    as Hstore.
  { intros s d Hs Hd Hw Hlen.
    destruct (SetStrength_bytes slack r s d p Hs Hd Hlen) as (new & Hrun & _ & Hlo & Hhi).
    exists new. split; [|split; assumption].
    rewrite Hrun. unfold setSettingsData, withSettings. rewrite Hw. reflexivity. }
  split; intros H.
  - pose proof (clampPercentage_above p H) as Hc.
    assert (clampPercentage (f64_of_Z 100) = f64_of_Z 100) as Hc' by (vm_compute; reflexivity).
    split; [unfold SetStrength; rewrite Hc, Hc'; reflexivity|].
    rewrite Hc in *.
    assert (tempLo (percentageToKelvin (f64_of_Z 100)) = xe0) as Elo by (vm_compute; reflexivity).
    assert (tempHi (percentageToKelvin (f64_of_Z 100)) = x12) as Ehi by (vm_compute; reflexivity).
    split; [exact Elo|]. split; [exact Ehi|].
    intros s d Hs Hd Hw Hlen.
    destruct (Hstore s d Hs Hd Hw Hlen) as (d' & Hrun & Hlo & Hhi).
    exists d'. rewrite Elo in Hlo. rewrite Ehi in Hhi. split; [exact Hrun|]. split; assumption.
  - pose proof (clampPercentage_below p H) as Hc.
    assert (clampPercentage (f64_of_Z 0) = f64_of_Z 0) as Hc' by (vm_compute; reflexivity).
    split; [unfold SetStrength; rewrite Hc, Hc'; reflexivity|].
    rewrite Hc in *.
    assert (tempLo (percentageToKelvin (f64_of_Z 0)) = xc8) as Elo by (vm_compute; reflexivity).
    assert (tempHi (percentageToKelvin (f64_of_Z 0)) = x65) as Ehi by (vm_compute; reflexivity).
    split; [exact Elo|]. split; [exact Ehi|].
    intros s d Hs Hd Hw Hlen.
    destruct (Hstore s d Hs Hd Hw Hlen) as (d' & Hrun & Hlo & Hhi).
    exists d'. rewrite Elo in Hlo. rewrite Ehi in Hhi. split; [exact Hrun|]. split; assumption.
Qed.

Lemma set_strength_clamps_witness :
  (SetStrength noSlack (registryOf sampleDisabled sampleSettings) (S754_infinity false)
   = SetStrength noSlack (registryOf sampleDisabled sampleSettings) (f64_of_Z 100)
   ∧ ∃ d', SetStrength noSlack (registryOf sampleDisabled sampleSettings) (S754_infinity false)
           = Ret (withSettings (registryOf sampleDisabled sampleSettings) d')
           ∧ d' !! 0x23 = Some xe0
           ∧ d' !! 0x24 = Some x12)
  ∧ (SetStrength noSlack (registryOf sampleDisabled sampleSettings) (f64_of_Z (-3))
     = SetStrength noSlack (registryOf sampleDisabled sampleSettings) (f64_of_Z 0)
     ∧ ∃ d', SetStrength noSlack (registryOf sampleDisabled sampleSettings) (f64_of_Z (-3))
             = Ret (withSettings (registryOf sampleDisabled sampleSettings) d')
             ∧ d' !! 0x23 = Some xc8
             ∧ d' !! 0x24 = Some x65).
Proof.
  split.
  - destruct (proj1 (set_strength_clamps noSlack (registryOf sampleDisabled sampleSettings)
                       (S754_infinity false))) as (Heq & _ & _ & Hstore); [reflexivity|].
    split; [exact Heq|].
    apply (Hstore sampleDisabled sampleSettings); [reflexivity .. |]. vm_compute. lia.
  - destruct (proj2 (set_strength_clamps noSlack (registryOf sampleDisabled sampleSettings)
                       (f64_of_Z (-3)))) as (Heq & _ & _ & Hstore); [reflexivity|].
    split; [exact Heq|].
    apply (Hstore sampleDisabled sampleSettings); [reflexivity .. |]. vm_compute. lia.
Defined.

Lemma f64_add_bounded (x y : float64) :
  f64_bounded x = true → f64_bounded y = true → f64_bounded (f64_add x y) = true.
Proof.
  intros Hx Hy.
  destruct x as [sx|sx| |sx mx ex]; destruct y as [sy|sy| |sy my ey];
    try reflexivity; try assumption.
  - destruct sx, sy; reflexivity.
  - destruct sx, sy; reflexivity.
  - unfold f64_add, SFadd. apply binary_normalize_bounded.
Qed.

(** The exponent of a bounded float64 whose magnitude is known. *)
Lemma finite_exponent_range (s : bool) (m : positive) (e a b : Z) :
  f64_bounded (S754_finite s m e) = true →
  (bpow a <= Rabs (F2R (S754_finite s m e)) < bpow b)%R →
  (a - 53 < e < b)%Z.
Proof.
  unfold f64_bounded. intros Hb [Hlo Hhi]. apply Z.ltb_lt in Hb.
  rewrite F2R_finite, Rabs_sign_of in Hlo, Hhi.
  pose proof (bpow_pos e) as Hpe.
  assert (1 <= IZR (Z.pos m))%R as Hm1 by (apply IZR_le; lia).
  rewrite Rabs_pos_eq in Hlo, Hhi by nra.
  apply IZR_lt in Hb. rewrite IZR_pow2 in Hb by lia.
  split.
  - destruct (Z_lt_ge_dec (a - 53) e) as [|Hge]; [assumption|exfalso].
    pose proof (bpow_le (53 + e) a ltac:(lia)) as Hle. rewrite bpow_add in Hle. nra.
  - destruct (Z_lt_ge_dec e b) as [|Hge]; [assumption|exfalso].
    pose proof (bpow_le b e ltac:(lia)) as Hle. nra.
Qed.

Lemma bpow_7 : bpow 7 = 128%R.
Proof. unfold bpow. simpl. lra. Qed.

Lemma bpow_8 : bpow 8 = 256%R.
Proof. unfold bpow. simpl. lra. Qed.

(** [bytesToKelvin] does not round: its result is the encoded
    temperature. *)
Lemma bytesToKelvin_F2R (lo hi : byte) :
  f64_finite (bytesToKelvin lo hi) = true
  ∧ f64_bounded (bytesToKelvin lo hi) = true
  ∧ F2R (bytesToKelvin lo hi) = encodedKelvin lo hi.
Proof.
  unfold bytesToKelvin, encodedKelvin.
  pose proof (byte_val_range lo) as Hlo. pose proof (byte_val_range hi) as Hhi.
  assert (0 <= IZR (byte_val lo) <= 255)%R as HloR by (split; apply IZR_le; lia).
  assert (0 <= IZR (byte_val hi) <= 255)%R as HhiR by (split; apply IZR_le; lia).
  pose proof F2R_64 as E64. pose proof F2R_128 as E128.
  assert (f64_normal (f64_of_Z 64) = true) as N64 by (rewrite c64_eq; reflexivity).
  assert (f64_finite (f64_of_Z 128) = true) as F128 by (rewrite c128_eq; reflexivity).
  assert (f64_bounded (f64_of_Z 128) = true) as B128 by (rewrite c128_eq; reflexivity).
  destruct (f64_of_byte_exact hi) as [Hfa Hva].
  destruct (f64_of_byte_exact lo) as [Hfb Hvb].
  (* float64(hiTemp) * 64 *)
  destruct (f64_mul_exact _ _ Hfa N64) as [Hf1 Hv1].
  { rewrite Hva, E64. exists (byte_val hi * 64)%Z, 0%Z.
    split; [|split; [lia | rewrite mult_IZR, bpow_0; ring]].
    assert (256 * 64 < 2 ^ 53)%Z by reflexivity. lia. }
  rewrite Hva, E64 in Hv1.
  (* float64(loTemp) - 128 *)
  destruct (f64_sub_exact _ _ Hfb F128) as [Hf2 Hv2].
  { rewrite Hvb, E128. exists (byte_val lo - 128)%Z, 0%Z.
    split; [|split; [lia | rewrite minus_IZR, bpow_0; ring]].
    assert (256 < 2 ^ 53)%Z by reflexivity. lia. }
  rewrite Hvb, E128 in Hv2.
  assert (f64_bounded (f64_sub (f64_of_byte lo) (f64_of_Z 128)) = true) as Hb2.
  { apply f64_sub_bounded; [apply binary_normalize_bounded | exact B128]. }
  (* ... / 2 *)
  assert (f64_finite (f64_div (f64_sub (f64_of_byte lo) (f64_of_Z 128)) (f64_of_Z 2)) = true
          ∧ F2R (f64_div (f64_sub (f64_of_byte lo) (f64_of_Z 128)) (f64_of_Z 2))
            = ((IZR (byte_val lo) - 128) / 2)%R) as [Hf3 Hv3].
  { rewrite c2_eq, <- Hv2, <- bpow_1.
    apply (f64_div_pow2_exact _ 4503599627370496 (-51) Hf2 Hb2); [reflexivity|].
    intros sx mx ex Hx. rewrite Hx in Hb2, Hv2.
    pose proof (finite_exponent_range sx mx ex 0 8 Hb2) as Hr.
    rewrite Hv2, bpow_0, bpow_8 in Hr.
    assert (1 <= Rabs (IZR (byte_val lo) - 128) < 256)%R as Habs.
    { rewrite <- minus_IZR, <- abs_IZR.
      assert (byte_val lo - 128 ≠ 0)%Z as Hnz.
      { intros Hz. rewrite <- minus_IZR, Hz in Hv2.
        rewrite F2R_finite in Hv2. pose proof (bpow_pos ex).
        assert (0 < IZR (Z.pos mx))%R by (apply IZR_lt; lia).
        unfold sign_of in Hv2. destruct sx; nra. }
      split; [apply IZR_le; lia | apply IZR_lt; lia]. }
    specialize (Hr Habs). lia. }
  (* the sum *)
  destruct (f64_add_exact _ _ Hf1 Hf3) as [Hf4 Hv4].
  { rewrite Hv1, Hv3. exists (128 * byte_val hi + byte_val lo - 128)%Z, (-1)%Z.
    split; [|split; [lia|]].
    - assert (128 * 256 + 256 < 2 ^ 53)%Z by reflexivity. lia.
    - rewrite minus_IZR, plus_IZR, mult_IZR. unfold bpow. simpl. lra. }
  split; [exact Hf4|]. split.
  - apply f64_add_bounded.
    + apply f64_mul_bounded. exact N64.
    + unfold f64_div, SFdiv. rewrite c2_eq.
      destruct (f64_sub (f64_of_byte lo) (f64_of_Z 128)) as [sx|sx| |sx mx ex]; try reflexivity.
      destruct (SFdiv_core_binary_spec mx 4503599627370496 ex (-51))
        as (q & e & l & -> & He & Hq & Hpre).
      apply binary_round_aux_bounded; [|exact Hpre].
      rewrite Hq. apply Z.div_pos; [|lia].
      assert (0 < 2 ^ (ex - -51 - e))%Z by (apply Z.pow_pos_nonneg; lia). lia.
  - rewrite Hv4, Hv1, Hv3. reflexivity.
Qed.

Lemma byte_val_inj (a b : byte) : byte_val a = byte_val b → a = b.
Proof. intros H. rewrite (byte_of_val a _ eq_refl), (byte_of_val b _ eq_refl), H. reflexivity. Qed.

(** X13.  [bytesToKelvin] does not round.  For all 65536 pairs of
    bytes its result is the number [hiTemp * 64 + (loTemp - 128) / 2]
    exactly. *)
Theorem bytes_to_kelvin_exact (loTemp hiTemp : byte) :
  f64_finite (bytesToKelvin loTemp hiTemp) = true
  ∧ F2R (bytesToKelvin loTemp hiTemp)
    = (IZR (byte_val hiTemp) * 64 + (IZR (byte_val loTemp) - 128) / 2)%R.
Proof.
  destruct (bytesToKelvin_F2R loTemp hiTemp) as (Hf & _ & Hv).
  split; [exact Hf | exact Hv].
Qed.

(** X14.  Encoding undoes decoding.  For every pair of bytes with
    [loTemp >= 128] and [hiTemp >= 16], the two bytes that
    [SetStrength] computes from the temperature [bytesToKelvin loTemp
    hiTemp] are [hiTemp] and [loTemp] again. *)
Theorem temperature_bytes_round_trip (loTemp hiTemp : byte) :
  (128 ≤ byte_val loTemp)%Z →
  (16 ≤ byte_val hiTemp)%Z →
  tempHi (bytesToKelvin loTemp hiTemp) = hiTemp
  ∧ tempLo (bytesToKelvin loTemp hiTemp) = loTemp.
Proof.
  intros Hlo Hhi.
  destruct (bytesToKelvin_F2R loTemp hiTemp) as (Hf & Hb & Hv).
  unfold encodedKelvin in Hv.
  pose proof (byte_val_range loTemp) as Rlo. pose proof (byte_val_range hiTemp) as Rhi.
  assert (128 <= IZR (byte_val loTemp) <= 255)%R as RloR by (split; apply IZR_le; lia).
  assert (16 <= IZR (byte_val hiTemp) <= 255)%R as RhiR by (split; apply IZR_le; lia).
  set (K := bytesToKelvin loTemp hiTemp) in *.
  destruct (temperature_bytes K Hf Hb ltac:(lra)) as [H1 H2].
  rewrite Hv in H1, H2.
  assert (byte_val (tempHi K) = byte_val hiTemp) as Ehi.
  { assert (byte_val (tempHi K) < byte_val hiTemp + 1)%Z by (apply lt_IZR; rewrite plus_IZR; lra).
    assert (byte_val hiTemp < byte_val (tempHi K) + 1)%Z by (apply lt_IZR; rewrite plus_IZR; lra).
    lia. }
  rewrite Ehi in H2.
  assert (byte_val (tempLo K) = byte_val loTemp) as Elo.
  { assert (byte_val (tempLo K) < byte_val loTemp + 1)%Z by (apply lt_IZR; rewrite plus_IZR; lra).
    assert (byte_val loTemp < byte_val (tempLo K) + 1)%Z by (apply lt_IZR; rewrite plus_IZR; lra).
    lia. }
  split; apply byte_val_inj; assumption.
Qed.

Lemma temperature_bytes_round_trip_witness :
  tempHi (bytesToKelvin xe0 x12) = x12 ∧ tempLo (bytesToKelvin xe0 x12) = xe0.
Proof.
  apply (temperature_bytes_round_trip xe0 x12); vm_compute; discriminate.
Defined.

(** X15.  The bytes that [SetStrength] stores.  For every float64 [p]
    of [0, 100] the low byte stored at offset 0x23 is at least 128, the
    high byte stored at offset 0x24 lies in 18..101, and the
    temperature they encode is [6500 - 53 p] rounded down to half a
    kelvin: not above it by more than 1e-6 and less than 0.51 below. *)
Theorem set_strength_stores_half_kelvin (slack : list byte → list byte) (r : Registry)
    (s d : list byte) (p : float64) :
  valid_binary prec emax p = true →
  f64_le (f64_of_Z 0) p = true →
  f64_le p (f64_of_Z 100) = true →
  stateValue r = Some s →
  settingsValue r = Some d →
  settingsWritable r = true →
  0x25 ≤ length d →
  ∃ d' loTemp hiTemp,
    SetStrength slack r p = Ret (withSettings r d')
    ∧ d' !! 0x23 = Some loTemp
    ∧ d' !! 0x24 = Some hiTemp
    ∧ (128 ≤ byte_val loTemp)%Z
    ∧ (18 ≤ byte_val hiTemp ≤ 101)%Z
    ∧ (6500 - 53 * F2R p - 51 / 100 <= encodedKelvin loTemp hiTemp
       <= 6500 - 53 * F2R p + / 1000000)%R.
Proof.
  intros Hv H0 H100 Hs Hd Hw Hlen.
  destruct (percentage_bounds p Hv H0 H100) as [Hfp HP].
  destruct (SetStrength_bytes slack r s d p Hs Hd Hlen) as (new & Hrun & Hl & Hlo & Hhi).
  rewrite (clampPercentage_in_range p H0 H100) in Hlo, Hhi.
  set (K := percentageToKelvin p) in *.
  destruct (percentageToKelvin_value p Hfp HP) as [HfK HK]. fold K in HfK, HK.
  apply Rabs_le_inv in HK.
  pose proof (percentageToKelvin_bounded p) as HbK. fold K in HbK.
  destruct (temperature_encoded K HfK HbK ltac:(lra)) as [Henc Hlo128].
  destruct (temperature_bytes K HfK HbK ltac:(lra)) as [Hhi1 _].
  exists new, (tempLo K), (tempHi K).
  split. { rewrite Hrun. unfold setSettingsData, withSettings. rewrite Hw. reflexivity. }
  split; [exact Hlo|]. split; [exact Hhi|]. split; [exact Hlo128|].
  split; [|lra].
  split.
  - assert (17 < byte_val (tempHi K))%Z; [apply lt_IZR; lra | lia].
  - assert (byte_val (tempHi K) < 102)%Z; [apply lt_IZR; lra | lia].
Qed.

Lemma set_strength_stores_half_kelvin_witness :
  ∃ d' loTemp hiTemp,
    SetStrength noSlack (registryOf sampleDisabled sampleSettings) (f64_of_Z 75)
    = Ret (withSettings (registryOf sampleDisabled sampleSettings) d')
    ∧ d' !! 0x23 = Some loTemp
    ∧ d' !! 0x24 = Some hiTemp
    ∧ (128 ≤ byte_val loTemp)%Z
    ∧ (18 ≤ byte_val hiTemp ≤ 101)%Z
    ∧ (6500 - 53 * F2R (f64_of_Z 75) - 51 / 100 <= encodedKelvin loTemp hiTemp
       <= 6500 - 53 * F2R (f64_of_Z 75) + / 1000000)%R.
Proof.
  apply (set_strength_stores_half_kelvin noSlack (registryOf sampleDisabled sampleSettings)
           sampleDisabled sampleSettings (f64_of_Z 75));
    [vm_compute; reflexivity | vm_compute; reflexivity | vm_compute; reflexivity
    | reflexivity | reflexivity | reflexivity | vm_compute; lia].
Defined.

(** [percentageToKelvin] on a number [p] of [-1, 101]. *)
Lemma percentageToKelvin_value_wide (p : float64) :
  f64_finite p = true →
  (-1 <= F2R p <= 101)%R →
  f64_finite (percentageToKelvin p) = true
  ∧ (Rabs (F2R (percentageToKelvin p) - (6500 - 53 * F2R p)) <= / 10000000)%R.
Proof.
  intros Hfp HP. pose proof delta_small as Hd. pose proof delta_pos as Hd0.
  unfold percentageToKelvin.
  pose proof F2R_100 as E100. pose proof F2R_5300 as E5300. pose proof F2R_6500 as E6500.
  assert (∃ s m e, f64_of_Z 100 = S754_finite s m e) as X100 by (do 3 eexists; apply c100_eq).
  assert (f64_normal (f64_of_Z (MAX_KELVIN - MIN_KELVIN)) = true) as N5300
      by (rewrite c5300_eq; reflexivity).
  assert (f64_finite (f64_of_Z MAX_KELVIN) = true) as F6500 by (rewrite c6500_eq; reflexivity).
  destruct (f64_div_value p _ Hfp X100) as [Hf1 Hv1].
  { rewrite E100, bpow_14. apply Rabs_le. lra. }
  rewrite E100 in Hv1. apply Rabs_le_inv in Hv1.
  destruct (f64_mul_value _ _ Hf1 N5300) as [Hf2 Hv2].
  { rewrite E5300, bpow_14. apply Rabs_le. lra. }
  rewrite E5300 in Hv2. apply Rabs_le_inv in Hv2.
  destruct (f64_sub_value _ _ F6500 Hf2) as [Hf3 Hv3].
  { rewrite E6500, bpow_14. apply Rabs_le. lra. }
  rewrite E6500 in Hv3. apply Rabs_le_inv in Hv3.
  split; [exact Hf3|]. apply Rabs_le. lra.
Qed.

(** X16.  For every number [k] of [MIN_KELVIN, MAX_KELVIN],
    [percentageToKelvin] of [kelvinToPercentage k] is a number within
    1e-6 of [k]. *)
Theorem kelvin_round_trip (k : float64) :
  f64_finite k = true →
  (IZR MIN_KELVIN <= F2R k <= IZR MAX_KELVIN)%R →
  f64_finite (percentageToKelvin (kelvinToPercentage k)) = true
  ∧ (Rabs (F2R (percentageToKelvin (kelvinToPercentage k)) - F2R k) <= / 1000000)%R.
Proof.
  unfold MIN_KELVIN, MAX_KELVIN. intros Hfk HK.
  destruct (kelvinToPercentage_value k Hfk ltac:(lra)) as [Hfp Hp]. apply Rabs_le_inv in Hp.
  destruct (percentageToKelvin_value_wide (kelvinToPercentage k) Hfp ltac:(lra)) as [Hfr Hr].
  apply Rabs_le_inv in Hr.
  split; [exact Hfr|]. apply Rabs_le. lra.
Qed.

Lemma kelvin_round_trip_witness :
  f64_finite (percentageToKelvin (kelvinToPercentage (f64_of_Z 4000))) = true
  ∧ (Rabs (F2R (percentageToKelvin (kelvinToPercentage (f64_of_Z 4000))) - F2R (f64_of_Z 4000))
     <= / 1000000)%R.
Proof.
  assert (F2R (f64_of_Z 4000) = 4000%R) as E.
  { assert (f64_of_Z 4000 = S754_finite false 8796093022208000 (-41)) as -> by reflexivity.
    rewrite (F2R_scaled false _ _ 4000 41) by first [reflexivity | lia].
    unfold sign_of. lra. }
  apply (kelvin_round_trip (f64_of_Z 4000)); [reflexivity|].
  rewrite E. unfold MIN_KELVIN, MAX_KELVIN. lra.
Defined.

(** * The command line *)

Section CommandLineFacts.

Variable slack : list byte → list byte.
Variable ParseFloat : string → option float64.

Lemma handleNightLight_number (state : string) (val : float64) (r : Registry) :
  isWord state = false →
  ParseFloat state = Some val →
  handleNightLight slack ParseFloat state r =
    call (λ r, SetStrength slack r val) r (λ r,
      match Enabled slack r with
      | Ret enabled =>
          let turnOn r := call (Enable slack) r (λ r, (r, PrintedStrength val)) in
          if (enabled : bool) then call (Disable slack) r turnOn else turnOn r
      | Fail e => (r, Returned e)
      | Panic => (r, Crashed)
      end).
Proof.
  unfold isWord, handleNightLight. intros Hw Hp.
  apply orb_false_elim in Hw as [Hw Ht]. apply orb_false_elim in Hw as [Hon Hoff].
  rewrite Hon, Hoff, Ht, Hp. reflexivity.
Qed.

End CommandLineFacts.

(** X17.  A percentage on the command line turns night light on.  With
    a state value whose flag and length agree and a settings value of
    0x25 bytes or more, both writable, [handleNightLight] on a string
    that is none of the three words and parses as the number [val]
    stores the strength as [SetStrength val] does, ends with night light
    enabled and reports the strength: it toggles once when night light
    was off, and twice (off and on again) when it was on. *)
Theorem night_percentage_turns_on (slack : list byte → list byte)
    (ParseFloat : string → option float64) (state : string) (val : float64)
    (r : Registry) (b d : list byte) :
  isWord state = false →
  ParseFloat state = Some val →
  stateValue r = Some b →
  settingsValue r = Some d →
  stateWritable r = true →
  settingsWritable r = true →
  disabledValue b ∨ enabledValue b →
  0x25 ≤ length d →
  ∃ r1 r',
    SetStrength slack r val = Ret r1
    ∧ handleNightLight slack ParseFloat state r = (r', PrintedStrength val)
    ∧ settingsValue r' = settingsValue r1
    ∧ Enabled slack r' = Ret true
    ∧ (disabledValue b → Toggle slack r1 = Ret r')
    ∧ (enabledValue b → (r2 ← Toggle slack r1; Toggle slack r2) = Ret r').
Proof.
  intros Hword Hparse Hb Hd Hws Hwd Hv Hlen.
  destruct (SetStrength_run slack r b d val Hb Hd Hlen) as (lo & hi & new & Hrun & _).
  unfold setSettingsData in Hrun. rewrite Hwd in Hrun. cbn [elems] in Hrun.
  set (r1 := {| stateValue := stateValue r; settingsValue := Some new;
                stateWritable := stateWritable r; settingsWritable := true |}) in *.
  assert (stateValue r1 = Some b) as Hb1 by exact Hb.
  assert (stateWritable r1 = true) as Hws1 by exact Hws.
  exists r1.
  rewrite (handleNightLight_number slack ParseFloat state val r Hword Hparse).
  unfold call at 1. rewrite Hrun.
  destruct Hv as [Hv|Hv].
  - destruct (Toggle_disabledValue slack r1 b Hb1 Hws1 Hv) as (b' & Ht & Hv' & _).
    exists (withState r1 b').
    rewrite (Enabled_disabledValue slack r1 b Hb1 Hv). cbv zeta.
    unfold call. rewrite (Enable_disabledValue slack r1 b Hb1 Hv), Ht.
    split; [reflexivity|]. split; [reflexivity|]. split; [reflexivity|].
    split; [apply (Enabled_enabledValue slack (withState r1 b') b' eq_refl Hv')|].
    split; [intros _; reflexivity|].
    intros [Hl _]. destruct Hv as [Hl' _]. congruence.
  - destruct (Toggle_enabledValue slack r1 b Hb1 Hws1 Hv) as (b1 & Ht1 & Hv1 & _).
    destruct (Toggle_disabledValue slack (withState r1 b1) b1 eq_refl Hws1 Hv1)
      as (b2 & Ht2 & Hv2 & _).
    exists (withState r1 b2).
    rewrite (Enabled_enabledValue slack r1 b Hb1 Hv). cbv zeta.
    unfold call. rewrite (Disable_enabledValue slack r1 b Hb1 Hv), Ht1.
    rewrite (Enable_disabledValue slack (withState r1 b1) b1 eq_refl Hv1), Ht2.
    split; [reflexivity|]. split; [reflexivity|]. split; [reflexivity|].
    split; [apply (Enabled_enabledValue slack (withState r1 b2) b2 eq_refl Hv2)|].
    split.
    + intros [Hl _]. destruct Hv as [Hl' _]. congruence.
    + intros _. cbn [mbind outcome_bind]. exact Ht2.
Qed.

Lemma night_percentage_turns_on_witness :
  ∃ r1 r',
    SetStrength noSlack (registryOf sampleEnabled sampleSettings) (f64_of_Z 50) = Ret r1
    ∧ handleNightLight noSlack parseSample "50" (registryOf sampleEnabled sampleSettings)
      = (r', PrintedStrength (f64_of_Z 50))
    ∧ settingsValue r' = settingsValue r1
    ∧ Enabled noSlack r' = Ret true
    ∧ (disabledValue sampleEnabled → Toggle noSlack r1 = Ret r')
    ∧ (enabledValue sampleEnabled → (r2 ← Toggle noSlack r1; Toggle noSlack r2) = Ret r').
Proof.
  apply (night_percentage_turns_on noSlack parseSample "50" (f64_of_Z 50)
           (registryOf sampleEnabled sampleSettings) sampleEnabled sampleSettings);
    try reflexivity.
  right. split; reflexivity.
Defined.

(** X18.  A percentage on the command line with a broken state value.
    When the state value has fewer than 19 bytes, [handleNightLight]
    with a number returns the invalid-state-length error, and it has
    rewritten the settings value before: the strength is changed
    although the command failed. *)
Theorem night_percentage_short_state (slack : list byte → list byte)
    (ParseFloat : string → option float64) (state : string) (val : float64)
    (r : Registry) (b d : list byte) :
  isWord state = false →
  ParseFloat state = Some val →
  stateValue r = Some b →
  settingsValue r = Some d →
  settingsWritable r = true →
  length b < 19 →
  0x25 ≤ length d →
  ∃ d', SetStrength slack r val = Ret (withSettings r d')
        ∧ handleNightLight slack ParseFloat state r
          = (withSettings r d', Returned ErrInvalidStateLength)
        ∧ d' !! 0x24 ≠ None.
Proof.
  intros Hword Hparse Hb Hd Hwd Hshort Hlen.
  destruct (SetStrength_run slack r b d val Hb Hd Hlen) as (lo & hi & new & Hrun & Hbump).
  assert (SetStrength slack r val = Ret (withSettings r new)) as Hset.
  { rewrite Hrun. unfold setSettingsData, withSettings. rewrite Hwd. reflexivity. }
  exists new. split; [exact Hset|].
  rewrite (handleNightLight_number slack ParseFloat state val r Hword Hparse).
  unfold call. rewrite Hset.
  rewrite (Enabled_readable slack (withSettings r new) b Hb).
  destruct (Nat.ltb_spec (length b) 19) as [_|]; [|lia].
  split; [reflexivity|].
  pose proof (bumped_length _ _ _ _ Hbump) as Hl. rewrite !length_insert in Hl.
  intros Hnone. apply lookup_ge_None in Hnone. lia.
Qed.

Lemma night_percentage_short_state_witness :
  ∃ d', SetStrength noSlack (registryOf (replicate 18 x15) sampleSettings) (f64_of_Z 50)
        = Ret (withSettings (registryOf (replicate 18 x15) sampleSettings) d')
        ∧ handleNightLight noSlack parseSample "50" (registryOf (replicate 18 x15) sampleSettings)
          = (withSettings (registryOf (replicate 18 x15) sampleSettings) d',
             Returned ErrInvalidStateLength)
        ∧ d' !! 0x24 ≠ None.
Proof.
  apply (night_percentage_short_state noSlack parseSample "50" (f64_of_Z 50)
           (registryOf (replicate 18 x15) sampleSettings) (replicate 18 x15) sampleSettings);
    try reflexivity.
  vm_compute. lia.
Defined.

(** X19.  The second handler is the first one without the
    percentages.  On the words on, off and toggle, [handleLumos] leaves
    the registry that [handleNightLight] leaves and returns an error of
    the package exactly when [handleNightLight] does; on any other
    string it returns the invalid-state error and leaves the registry
    as it is. *)
Theorem handleLumos_restricts (slack : list byte → list byte)
    (ParseFloat : string → option float64) (state : string) (r : Registry) :
  (isWord state = true →
     fst (handleLumos slack state r) = fst (handleNightLight slack ParseFloat state r)
     ∧ (∀ e, snd (handleLumos slack state r) = Returned e
             ↔ snd (handleNightLight slack ParseFloat state r) = Returned e))
  ∧ (isWord state = false → handleLumos slack state r = (r, InvalidState state)).
Proof.
  unfold isWord, handleLumos, handleNightLight, call. split.
  - intros Hw.
    destruct (String.eqb state "on").
    { destruct (Enable slack r); cbn; split; try reflexivity; intros e; split; intros H;
        try discriminate H; exact H. }
    destruct (String.eqb state "off").
    { destruct (Disable slack r); cbn; split; try reflexivity; intros e; split; intros H;
        try discriminate H; exact H. }
    destruct (String.eqb state "toggle"); [|discriminate Hw].
    destruct (Toggle slack r); cbn; split; try reflexivity; intros e; split; intros H;
      try discriminate H; exact H.
  - intros Hw.
    apply orb_false_elim in Hw as [Hw Ht]. apply orb_false_elim in Hw as [Hon Hoff].
    rewrite Hon, Hoff, Ht. reflexivity.
Qed.

Lemma handleLumos_restricts_witness :
  (fst (handleLumos noSlack "toggle" (registryOf sampleEnabled sampleSettings))
   = fst (handleNightLight noSlack parseSample "toggle" (registryOf sampleEnabled sampleSettings))
   ∧ (∀ e, snd (handleLumos noSlack "toggle" (registryOf sampleEnabled sampleSettings))
           = Returned e
           ↔ snd (handleNightLight noSlack parseSample "toggle"
                    (registryOf sampleEnabled sampleSettings)) = Returned e))
  ∧ handleLumos noSlack "50" (registryOf sampleEnabled sampleSettings)
    = (registryOf sampleEnabled sampleSettings, InvalidState "50").
Proof.
  split.
  - apply (proj1 (handleLumos_restricts noSlack parseSample "toggle"
                    (registryOf sampleEnabled sampleSettings))).
    reflexivity.
  - apply (proj2 (handleLumos_restricts noSlack parseSample "50"
                    (registryOf sampleEnabled sampleSettings))).
    reflexivity.
Defined.

(** * Package gamma *)

(** ** More on float64 results *)

(** *** Results are valid floats *)

Lemma canonical_intro (s : bool) (m : Z) (e : Z) :
  (0 < m)%Z → fexp prec emax (Zdigits2 m + e) = e → (e ≤ 971)%Z →
  valid_binary prec emax
    match m with
    | Z0 => S754_zero s
    | Z.pos p => if (e <=? emax - prec)%Z then S754_finite s p e else S754_infinity s
    | Z.neg _ => S754_nan
    end = true.
Proof.
  intros Hm Hc He. destruct m as [|p|p]; try lia.
  destruct (e <=? emax - prec)%Z eqn:Hle.
  - cbn [valid_binary]. unfold bounded, canonical_mantissa.
    apply andb_true_intro. split; [apply Z.eqb_eq; exact Hc|].
    apply Z.leb_le. unfold emax, prec. lia.
  - apply Z.leb_gt in Hle. unfold emax, prec in Hle. lia.
Qed.

Lemma binary_round_aux_valid (sx : bool) (mx ex : Z) (lx : location) :
  (0 ≤ mx)%Z →
  (ex ≤ fexp prec emax (Zdigits2 mx + ex))%Z →
  valid_binary prec emax (binary_round_aux prec emax sx mx ex lx) = true.
Proof.
  intros Hmx Hex. set (e1 := fexp prec emax (Zdigits2 mx + ex)) in *.
  unfold binary_round_aux, shr_fexp. fold e1.
  pose proof (shr_spec (shr_record_of_loc mx lx) ex (e1 - ex)) as Hs1.
  rewrite shr_record_of_loc_m in Hs1. specialize (Hs1 Hmx ltac:(lia)).
  destruct (shr (shr_record_of_loc mx lx) ex (e1 - ex)) as [mrs1 e1'] eqn:E1.
  simpl in Hs1. destruct Hs1 as [Hm1 He1]. replace (ex + (e1 - ex))%Z with e1 in He1 by lia.
  subst e1'.
  set (mr := round_nearest_even (shr_m mrs1) (loc_of_shr_record mrs1)).
  pose proof (round_nearest_even_bounds (shr_m mrs1) (loc_of_shr_record mrs1)) as Hr.
  fold mr in Hr. rewrite Hm1 in Hr.
  assert (0 < 2 ^ (e1 - ex))%Z as Hp1 by (apply Z.pow_pos_nonneg; lia).
  assert (0 ≤ mx / 2 ^ (e1 - ex))%Z as Hq1 by (apply Z.div_pos; lia).
  assert (mx / 2 ^ (e1 - ex) < 2 ^ 53)%Z as Hsmall.
  { apply Z.div_lt_upper_bound; [lia|].
    destruct (Z.eq_dec mx 0%Z) as [->|Hnz]; [simpl; lia|].
    pose proof (Zdigits2_pos_bounds mx ltac:(lia)) as [_ Hhi].
    eapply Z.lt_le_trans; [exact Hhi|].
    rewrite <- Z.pow_add_r by lia. apply Z.pow_le_mono_r; [lia|].
    unfold e1. rewrite fexp_eq. lia. }
  assert (-1074 ≤ e1)%Z as He1min by (unfold e1; rewrite fexp_eq; lia).
  (* above the smallest exponent the shifted mantissa has all its bits *)
  assert (-1074 < e1 → 2 ^ 52 ≤ mx / 2 ^ (e1 - ex))%Z as Hbig.
  { intros Hn.
    assert (e1 - ex = Zdigits2 mx - 53)%Z as En by (unfold e1 in *; rewrite fexp_eq in *; lia).
    assert (0 < mx)%Z as Hpos.
    { destruct (Z.eq_dec mx 0%Z) as [->|]; [|lia].
      unfold e1 in Hex, Hn. rewrite fexp_eq in Hex, Hn. simpl in Hex, Hn. lia. }
    pose proof (Zdigits2_pos_bounds mx Hpos) as [Hlo _].
    apply Z.div_le_lower_bound; [lia|]. rewrite En.
    rewrite <- Z.pow_add_r by lia.
    replace (Zdigits2 mx - 53 + 52)%Z with (Zdigits2 mx - 1)%Z by lia. exact Hlo. }
  destruct (Z_lt_ge_dec mr (2 ^ 53)) as [Hlt|Hge].
  - assert (Zdigits2 mr ≤ 53)%Z as Hd by (apply Zdigits2_upper; lia).
    assert (fexp prec emax (Zdigits2 mr + e1) = e1) as Hc.
    { rewrite fexp_eq. destruct (Z_le_gt_dec e1 (-1074)) as [|Hn]; [lia|].
      specialize (Hbig ltac:(lia)).
      pose proof (Zdigits2_lower mr 52 ltac:(lia) ltac:(lia)). lia. }
    rewrite Hc, Z.sub_diag. cbn [shr fst snd]. rewrite shr_record_of_loc_m.
    destruct (Z.eq_dec mr 0%Z) as [->|Hnz]; [reflexivity|].
    destruct (Z_le_gt_dec e1 971) as [Hle|Hgt].
    + apply canonical_intro; [lia | exact Hc | exact Hle].
    + destruct mr as [|p|p]; try reflexivity.
      assert ((e1 <=? emax - prec)%Z = false) as -> by (apply Z.leb_gt; unfold emax, prec; lia).
      reflexivity.
  - assert (mr = 2 ^ 53)%Z as Hmr by lia.
    assert (Zdigits2 mr = 54)%Z as Hd.
    { pose proof (Zdigits2_lower mr 53 ltac:(lia) ltac:(lia)).
      pose proof (Zdigits2_upper mr 54 ltac:(lia)) as Hu.
      assert (0 ≤ mr < 2 ^ 54)%Z as Hb by (rewrite Hmr; split; [lia | reflexivity]).
      specialize (Hu Hb). lia. }
    rewrite Hd, fexp_eq. replace (Z.max (54 + e1 - 53) (-1074) - e1)%Z with 1%Z by lia.
    pose proof (shr_spec (shr_record_of_loc mr loc_Exact) e1 1) as Hs2.
    rewrite shr_record_of_loc_m in Hs2. specialize (Hs2 ltac:(lia) ltac:(lia)).
    destruct (shr (shr_record_of_loc mr loc_Exact) e1 1) as [m2 e2].
    cbn [fst snd] in Hs2. destruct Hs2 as [Hs2 ->].
    rewrite Hs2, Hmr. change (2 ^ 53 / 2 ^ 1)%Z with (2 ^ 52)%Z.
    destruct (Z_le_gt_dec (e1 + 1) 971) as [Hle|Hgt].
    + apply canonical_intro; [reflexivity | | exact Hle].
      assert (Zdigits2 (2 ^ 52) = 53)%Z as -> by reflexivity.
      rewrite fexp_eq. lia.
    + assert ((e1 + 1 <=? emax - prec)%Z = false) as Hf
          by (apply Z.leb_gt; unfold emax, prec; lia).
      change (2 ^ 52)%Z with (Z.pos 4503599627370496). cbv iota. rewrite Hf. reflexivity.
Qed.

Lemma binary_round_valid (s : bool) (m : positive) (e : Z) :
  valid_binary prec emax (binary_round prec emax s m e) = true.
Proof.
  unfold binary_round.
  set (t := fexp prec emax (Z.pos (digits2_pos m) + e)).
  pose proof (shl_align_spec m e t) as (He & Hm & Hd).
  destruct (shl_align m e t) as [mz ez]. simpl in He, Hm, Hd.
  apply binary_round_aux_valid.
  - lia.
  - simpl Zdigits2. rewrite Hd. replace (Z.pos (digits2_pos m) + (e - Z.min e t) + ez)%Z
      with (Z.pos (digits2_pos m) + e)%Z by lia. fold t. lia.
Qed.

Lemma binary_normalize_valid (M e : Z) :
  valid_binary prec emax (binary_normalize prec emax M e false) = true.
Proof. destruct M; simpl binary_normalize; [reflexivity | apply binary_round_valid ..]. Qed.

(** What validity says about a mantissa and its exponent. *)
Lemma valid_finite (s : bool) (m : positive) (e : Z) :
  valid_binary prec emax (S754_finite s m e) = true →
  (Z.pos m < 2 ^ 53)%Z ∧ (-1074 ≤ e ≤ 971)%Z ∧ (-1074 < e → 2 ^ 52 ≤ Z.pos m)%Z.
Proof.
  cbn [valid_binary]. unfold bounded, canonical_mantissa. intros Hv.
  apply andb_prop in Hv. destruct Hv as [Hc He].
  apply Z.eqb_eq in Hc. apply Z.leb_le in He. unfold emax, prec in He.
  rewrite fexp_eq in Hc.
  pose proof (digits2_pos_bounds m) as [Hlo Hhi].
  split; [|split; [lia|]].
  - eapply Z.lt_le_trans; [exact Hhi|]. apply Z.pow_le_mono_r; lia.
  - intros Hn. replace (Z.pos (digits2_pos m)) with 53%Z in Hlo by lia. exact Hlo.
Qed.

Lemma f64_sub_valid (x y : float64) :
  valid_binary prec emax x = true → valid_binary prec emax y = true →
  valid_binary prec emax (f64_sub x y) = true.
Proof.
  intros Hx Hy.
  destruct x as [sx|sx| |sx mx ex]; destruct y as [sy|sy| |sy my ey];
    try reflexivity; try assumption.
  - destruct sx, sy; reflexivity.
  - destruct sx, sy; reflexivity.
  - unfold f64_sub, SFsub. apply binary_normalize_valid.
Qed.

Lemma f64_add_valid (x y : float64) :
  valid_binary prec emax x = true → valid_binary prec emax y = true →
  valid_binary prec emax (f64_add x y) = true.
Proof.
  intros Hx Hy.
  destruct x as [sx|sx| |sx mx ex]; destruct y as [sy|sy| |sy my ey];
    try reflexivity; try assumption.
  - destruct sx, sy; reflexivity.
  - destruct sx, sy; reflexivity.
  - unfold f64_add, SFadd. apply binary_normalize_valid.
Qed.

Lemma f64_mul_valid (x y : float64) :
  valid_binary prec emax x = true → valid_binary prec emax y = true →
  valid_binary prec emax (f64_mul x y) = true.
Proof.
  intros Hx Hy.
  destruct x as [sx|sx| |sx mx ex]; destruct y as [sy|sy| |sy my ey]; try reflexivity.
  unfold f64_mul, SFmul. apply binary_round_aux_valid; [lia|].
  destruct (valid_finite _ _ _ Hx) as (Hmx & Hex & Hnx).
  destruct (valid_finite _ _ _ Hy) as (Hmy & Hey & Hny).
  rewrite fexp_eq.
  destruct (Z_le_gt_dec (ex + ey) (-1074)) as [|Hbig]; [lia|].
  assert (2 ^ 52 ≤ Z.pos mx ∨ 2 ^ 52 ≤ Z.pos my)%Z as Hcase.
  { destruct (Z_le_gt_dec ex (-1074)); [right; apply Hny; lia | left; apply Hnx; lia]. }
  assert (52 + 1 ≤ Zdigits2 (Z.pos (mx * my)))%Z as Hd.
  { apply Zdigits2_lower; [lia|]. rewrite Pos2Z.inj_mul. destruct Hcase; nia. }
  lia.
Qed.

Lemma f64_div_valid (x y : float64) :
  valid_binary prec emax (f64_div x y) = true.
Proof.
  destruct x as [sx|sx| |sx mx ex]; destruct y as [sy|sy| |sy my ey]; try reflexivity.
  unfold f64_div, SFdiv.
  destruct (SFdiv_core_binary_spec mx my ex ey) as (q & e & l & -> & He & Hq & Hpre).
  apply binary_round_aux_valid; [|exact Hpre].
  rewrite Hq. apply Z.div_pos; [|lia].
  assert (0 < 2 ^ (ex - ey - e))%Z by (apply Z.pow_pos_nonneg; lia). lia.
Qed.

Lemma f64_of_Z_valid (z : Z) : valid_binary prec emax (f64_of_Z z) = true.
Proof. apply binary_normalize_valid. Qed.

(** A valid float64 of magnitude at least [2^-1000] has all 53 bits. *)
Lemma valid_normal (x : float64) :
  valid_binary prec emax x = true →
  (bpow (-1000) <= Rabs (F2R x))%R →
  f64_normal x = true.
Proof.
  intros Hv Hbig. pose proof (bpow_pos (-1000)) as Hp.
  destruct x as [s|s| |s m e]; try (simpl in Hbig; rewrite Rabs_R0 in Hbig; lra).
  destruct (valid_finite _ _ _ Hv) as (Hm & He & Hn).
  rewrite F2R_finite, Rabs_sign_of in Hbig.
  pose proof (bpow_pos e) as Hpe.
  assert (0 < IZR (Z.pos m))%R as Hm0 by (apply IZR_lt; lia).
  rewrite Rabs_pos_eq in Hbig by nra.
  assert (-1074 < e)%Z as Hlt.
  { destruct (Z_lt_ge_dec (-1074) e) as [|Hge]; [assumption|exfalso].
    apply IZR_lt in Hm. rewrite IZR_pow2 in Hm by lia.
    pose proof (bpow_le (53 + e) (-1000) ltac:(lia)) as Hle. rewrite bpow_add in Hle. nra. }
  specialize (Hn Hlt).
  unfold f64_normal. apply Pos.eqb_eq.
  pose proof (digits2_pos_bounds m) as [Hlo Hhi].
  assert (Z.pos (digits2_pos m) = 53)%Z; [|lia].
  pose proof (Zdigits2_lower (Z.pos m) 52 ltac:(lia) Hn) as H1.
  pose proof (Zdigits2_upper (Z.pos m) 53 ltac:(lia) ltac:(lia)) as H2.
  simpl Zdigits2 in H1, H2. lia.
Qed.

(** *** Comparisons *)

Lemma SFltb_finite_pos (m1 m2 : positive) (e1 e2 : Z) :
  SFltb (S754_finite false m1 e1) (S754_finite false m2 e2) = true
  ↔ (e1 < e2)%Z ∨ (e1 = e2 ∧ (Z.pos m1 < Z.pos m2)%Z).
Proof.
  unfold SFltb, SFcompare.
  destruct (Z.compare_spec e1 e2) as [He|He|He].
  - rewrite Pos.compare_cont_spec. unfold Pos.switch_Eq.
    destruct (Pos.compare_spec m1 m2) as [Hm|Hm|Hm].
    + subst. split; [discriminate | lia].
    + apply Pos2Z.pos_lt_pos in Hm. split; [intros _; right; split; assumption | reflexivity].
    + apply Pos2Z.pos_lt_pos in Hm. split; [discriminate | lia].
  - split; [intros _; left; exact He | reflexivity].
  - split; [discriminate | lia].
Qed.

Lemma f64_lt_zero (x : float64) :
  f64_finite x = true →
  (f64_lt x (f64_of_Z 0) = true ↔ (F2R x < 0)%R).
Proof.
  intros Hx. change (f64_of_Z 0) with (S754_zero false).
  destruct x as [s| | |s m e]; try discriminate Hx.
  - simpl. split; [discriminate | lra].
  - rewrite F2R_finite. pose proof (bpow_pos e).
    assert (0 < IZR (Z.pos m))%R by (apply IZR_lt; lia).
    unfold f64_lt, SFltb, SFcompare, sign_of.
    destruct s; split; try reflexivity; try discriminate; nra.
Qed.

Lemma c1_eq : f64_of_Z 1 = S754_finite false 4503599627370496 (-52).
Proof. reflexivity. Qed.

Lemma F2R_1 : F2R (f64_of_Z 1) = 1%R.
Proof.
  rewrite c1_eq, (F2R_scaled false _ _ 1 52) by first [reflexivity | lia].
  unfold sign_of. lra.
Qed.

Lemma f64_lt_one (x : float64) :
  f64_finite x = true →
  valid_binary prec emax x = true →
  (f64_lt (f64_of_Z 1) x = true ↔ (1 < F2R x)%R).
Proof.
  intros Hx Hv. pose proof F2R_1 as E1. rewrite c1_eq in *.
  destruct x as [s| | |s m e]; try discriminate Hx.
  - simpl. split; [discriminate | lra].
  - destruct (valid_finite _ _ _ Hv) as (Hm & He & Hn).
    pose proof (bpow_pos e) as Hpe.
    assert (0 < IZR (Z.pos m))%R as Hm0 by (apply IZR_lt; lia).
    rewrite F2R_finite in *. unfold sign_of in *.
    destruct s.
    { unfold f64_lt, SFltb, SFcompare. split; [discriminate | nra]. }
    unfold f64_lt. rewrite SFltb_finite_pos. rewrite Rmult_1_l in *.
    set (m1 := 4503599627370496%positive) in *.
    assert (Z.pos m1 = 2 ^ 52)%Z as Em1 by reflexivity.
    assert (bpow (-52) * bpow 52 = 1)%R as Ebb by (rewrite <- bpow_add; reflexivity).
    pose proof (bpow_pos (-52)) as Hp52. pose proof (bpow_pos 52) as Hq52.
    split.
    + intros [Hlt | [<- Hlt]].
      * specialize (Hn ltac:(lia)). apply IZR_le in Hn. rewrite IZR_pow2 in Hn by lia.
        pose proof (bpow_le (-51) e ltac:(lia)) as Hle.
        replace (-51)%Z with (-52 + 1)%Z in Hle by lia. rewrite bpow_add, bpow_1 in Hle.
        assert (bpow 52 * (2 * bpow (-52)) <= IZR (Z.pos m) * bpow e)%R by
          (apply Rmult_le_compat; lra).
        nra.
      * apply IZR_lt in Hlt. nra.
    + intros Hgt.
      destruct (Z_lt_ge_dec (-52) e) as [|Hge]; [left; assumption|right].
      assert (e = (-52)%Z) as ->.
      { destruct (Z.eq_dec e (-52)%Z) as [|Hne]; [assumption|exfalso].
        apply IZR_lt in Hm. rewrite IZR_pow2 in Hm by lia.
        pose proof (bpow_le (53 + e) 0 ltac:(lia)) as Hle.
        rewrite bpow_add, bpow_0 in Hle. nra. }
      split; [reflexivity|]. apply lt_IZR. nra.
Qed.

Lemma f64_mul_comm (x y : float64) : f64_mul x y = f64_mul y x.
Proof.
  destruct x as [sx|sx| |sx mx ex]; destruct y as [sy|sy| |sy my ey];
    unfold f64_mul, SFmul; try rewrite (xorb_comm sx sy); try reflexivity.
  rewrite (Pos.mul_comm mx my), (Z.add_comm ex ey). reflexivity.
Qed.

(** *** Rounding at other magnitudes *)

Lemma binary_round_aux_value_at (k : Z) (sx : bool) (mx ex : Z) (lx : location) (x : R) :
  (-1022 ≤ k ≤ 1022)%Z →
  (0 ≤ mx)%Z →
  (ex ≤ fexp prec emax (Zdigits2 mx + ex))%Z →
  (IZR mx * bpow ex <= x <= IZR (mx + 1) * bpow ex)%R →
  (x <= bpow k)%R →
  f64_finite (binary_round_aux prec emax sx mx ex lx) = true
  ∧ (Rabs (F2R (binary_round_aux prec emax sx mx ex lx) - sign_of sx * x) <= 3 * bpow (k - 52))%R.
Proof.
  intros Hk Hmx Hex Hx Hbig.
  destruct (binary_round_aux_spec sx mx ex lx Hmx Hex) as (mr & m2 & e2 & Hmr & He2 & Hm2 & Hres).
  cbv zeta in *. set (e1 := fexp prec emax (Zdigits2 mx + ex)) in *.
  assert (e1 ≤ k - 52)%Z as He1.
  { unfold e1. rewrite fexp_eq. destruct (Z.eq_dec mx 0%Z) as [->|Hnz].
    - unfold e1 in Hex. rewrite fexp_eq in Hex. simpl in *. lia.
    - pose proof (Zdigits2_pos_bounds mx ltac:(lia)) as [Hlo _].
      pose proof (Zdigits2_nonneg mx).
      assert (Zdigits2 mx ≠ 0%Z) by (destruct mx; simpl; lia).
      apply IZR_le in Hlo. rewrite IZR_pow2 in Hlo by lia.
      assert (bpow (Zdigits2 mx - 1 + ex) <= bpow k)%R as Hb.
      { rewrite bpow_add. pose proof (bpow_pos ex). nra. }
      apply bpow_le_inv in Hb. lia. }
  pose proof (div_pow2_bracket mx (e1 - ex) ex Hmx ltac:(lia)) as [Hb1 Hb2].
  replace (ex + (e1 - ex))%Z with e1 in * by lia.
  assert (0 ≤ mx / 2 ^ (e1 - ex))%Z as Hq1
      by (apply Z.div_pos; [lia | apply Z.pow_pos_nonneg; lia]).
  pose proof (div_pow2_bracket mr (e2 - e1) e1 ltac:(lia) ltac:(lia)) as [Hc1 Hc2].
  replace (e1 + (e2 - e1))%Z with e2 in * by lia. rewrite <- Hm2 in Hc1, Hc2.
  assert (0 ≤ m2)%Z as Hm2pos
      by (subst m2; apply Z.div_pos; [lia | apply Z.pow_pos_nonneg; lia]).
  assert (bpow e2 <= 2 * bpow e1)%R as Hbe2.
  { pose proof (bpow_le e2 (e1 + 1) ltac:(lia)) as H. rewrite bpow_add, bpow_1 in H. lra. }
  pose proof (bpow_le e1 (k - 52) He1) as Hbe1.
  pose proof (bpow_pos e1) as Hp1. pose proof (bpow_pos e2) as Hp2.
  destruct Hmr as [Hmr1 Hmr2]. apply IZR_le in Hmr1, Hmr2.
  rewrite !plus_IZR in Hmr2. rewrite !plus_IZR in Hb2. rewrite !plus_IZR in Hc2.
  assert (F2R (binary_round_aux prec emax sx mx ex lx) = (sign_of sx * (IZR m2 * bpow e2))%R
          ∧ f64_finite (binary_round_aux prec emax sx mx ex lx) = true) as [HF Hfin].
  { rewrite Hres. destruct m2 as [|m|m]; [| |lia].
    - simpl. split; [lra | reflexivity].
    - assert ((e2 <=? emax - prec)%Z = true) as -> by (apply Z.leb_le; unfold emax, prec; lia).
      simpl. unfold sign_of. split; [destruct sx; lra | reflexivity]. }
  split; [exact Hfin|].
  rewrite HF. rewrite <- Rmult_minus_distr_l, Rabs_mult.
  assert (Rabs (sign_of sx) = 1)%R as ->
      by (unfold sign_of; destruct sx; [rewrite Rabs_left | rewrite Rabs_right]; lra).
  rewrite Rmult_1_l. apply Rabs_le.
  rewrite plus_IZR in Hx.
  set (q1 := IZR (mx / 2 ^ (e1 - ex))) in *.
  assert (q1 * bpow e1 <= x <= q1 * bpow e1 + bpow e1)%R as Hq by lra.
  assert (q1 * bpow e1 <= IZR mr * bpow e1 <= q1 * bpow e1 + bpow e1)%R as Hr by nra.
  assert (IZR mr * bpow e1 - bpow e1 <= IZR m2 * bpow e2 <= IZR mr * bpow e1)%R as Hs by lra.
  lra.
Qed.

Lemma f64_mul_value_at (k : Z) (x y : float64) :
  (-1022 ≤ k ≤ 1022)%Z →
  f64_finite x = true →
  f64_normal y = true →
  (Rabs (F2R x * F2R y) <= bpow k)%R →
  f64_finite (f64_mul x y) = true
  ∧ (Rabs (F2R (f64_mul x y) - F2R x * F2R y) <= 3 * bpow (k - 52))%R.
Proof.
  intros Hk Hx Hy Hbig.
  destruct y as [| | |sy my ey]; try discriminate Hy.
  destruct x as [sx| | |sx mx ex]; try discriminate Hx.
  - simpl. split; [reflexivity|].
    rewrite Rmult_0_l, Rminus_0_r, Rabs_R0. pose proof (bpow_pos (k - 52)). lra.
  - unfold f64_mul, SFmul.
    rewrite !F2R_finite in *.
    set (X := (IZR (Z.pos (mx * my)) * bpow (ex + ey))%R).
    assert ((sign_of sx * (IZR (Z.pos mx) * bpow ex) * (sign_of sy * (IZR (Z.pos my) * bpow ey)))%R
            = (sign_of (xorb sx sy) * X)%R) as EX.
    { unfold X. rewrite sign_of_xorb, Pos2Z.inj_mul, mult_IZR, bpow_add. ring. }
    rewrite EX in *. rewrite Rabs_sign_of in Hbig.
    assert (0 <= X)%R as HX0.
    { unfold X. pose proof (bpow_pos (ex + ey)).
      assert (0 < IZR (Z.pos (mx * my)))%R by (apply IZR_lt; lia). nra. }
    rewrite Rabs_right in Hbig by lra.
    apply binary_round_aux_value_at.
    + exact Hk.
    + lia.
    + apply Pos.eqb_eq in Hy. simpl in Hy.
      pose proof (digits2_pos_bounds my) as [Hlo _]. rewrite Hy in Hlo.
      assert (52 + 1 ≤ Zdigits2 (Z.pos (mx * my)))%Z as Hd.
      { apply Zdigits2_lower; [lia|]. change (53 - 1)%Z with 52%Z in Hlo. nia. }
      pose proof (fexp_ge (Zdigits2 (Z.pos (mx * my)) + (ex + ey))). lia.
    + fold X. rewrite plus_IZR. pose proof (bpow_pos (ex + ey)). unfold X. nra.
    + exact Hbig.
Qed.

(** A product of two numbers that are not negative is not negative. *)
Lemma f64_mul_nonneg (x y : float64) :
  f64_finite x = true →
  f64_normal y = true →
  (0 <= F2R x)%R → (0 <= F2R y)%R →
  (0 <= F2R (f64_mul x y))%R.
Proof.
  intros Hx Hy H0x H0y.
  destruct y as [| | |sy my ey]; try discriminate Hy.
  destruct x as [sx| | |sx mx ex]; try discriminate Hx.
  - simpl. lra.
  - rewrite F2R_finite in H0x, H0y.
    pose proof (bpow_pos ex). pose proof (bpow_pos ey).
    assert (0 < IZR (Z.pos mx))%R by (apply IZR_lt; lia).
    assert (0 < IZR (Z.pos my))%R by (apply IZR_lt; lia).
    assert (sx = false) as -> by (destruct sx; [unfold sign_of in H0x; nra | reflexivity]).
    assert (sy = false) as -> by (destruct sy; [unfold sign_of in H0y; nra | reflexivity]).
    unfold f64_mul, SFmul. cbn [xorb].
    destruct (binary_round_aux_spec false (Z.pos (mx * my)) (ex + ey) loc_Exact)
      as (mr & m2 & e2 & _ & _ & _ & ->).
    + lia.
    + apply Pos.eqb_eq in Hy. simpl in Hy.
      pose proof (digits2_pos_bounds my) as [Hlo _]. rewrite Hy in Hlo.
      assert (52 + 1 ≤ Zdigits2 (Z.pos (mx * my)))%Z as Hd.
      { apply Zdigits2_lower; [lia|]. change (53 - 1)%Z with 52%Z in Hlo. nia. }
      pose proof (fexp_ge (Zdigits2 (Z.pos (mx * my)) + (ex + ey))). lia.
    + destruct m2 as [|m|m]; [simpl; lra | | simpl; lra].
      destruct (e2 <=? emax - prec)%Z; [|simpl; lra].
      rewrite F2R_finite. unfold sign_of. pose proof (bpow_pos e2).
      assert (0 < IZR (Z.pos m))%R by (apply IZR_lt; lia). nra.
Qed.

Lemma prod_error (a b A B ea eb MA Mb : R) :
  (Rabs (a - A) <= ea)%R → (Rabs (b - B) <= eb)%R →
  (Rabs A <= MA)%R → (Rabs b <= Mb)%R →
  (Rabs (a * b - A * B) <= ea * Mb + MA * eb)%R.
Proof.
  intros Ha Hb HA HB.
  replace (a * b - A * B)%R with ((a - A) * b + A * (b - B))%R by ring.
  eapply Rle_trans; [apply Rabs_triang|]. rewrite !Rabs_mult.
  pose proof (Rabs_pos (a - A)). pose proof (Rabs_pos b).
  pose proof (Rabs_pos A). pose proof (Rabs_pos (b - B)).
  apply Rplus_le_compat; apply Rmult_le_compat; assumption.
Qed.

(** ** The ramp of SetGamma *)

(** *** Constants *)

Lemma f64_of_Z_exact (z : Z) :
  (Z.abs z < 2 ^ 53)%Z →
  f64_finite (f64_of_Z z) = true ∧ F2R (f64_of_Z z) = IZR z.
Proof.
  intros Hz. unfold f64_of_Z.
  replace (IZR z) with (IZR z * bpow 0)%R by (rewrite bpow_0; ring).
  apply binary_normalize_exact. exists z, 0%Z. split; [exact Hz|]. split; [lia | reflexivity].
Qed.

Lemma F2R_half : F2R f64_half = (1 / 2)%R.
Proof.
  unfold f64_half. rewrite F2R_finite.
  change (Z.pos 4503599627370496) with (2 ^ 52)%Z.
  rewrite IZR_pow2 by lia. unfold sign_of. rewrite Rmult_1_l, <- bpow_add.
  change (52 + -53)%Z with (-1)%Z. unfold bpow. simpl. lra.
Qed.

Lemma F2R_fifth : (1 / 5 <= F2R f64_fifth <= 1 / 5 + / 10000000000000000)%R.
Proof.
  unfold f64_fifth. rewrite F2R_finite. unfold sign_of, bpow. simpl. lra.
Qed.

Lemma bpow_m1000 : (bpow (-1000) <= / 4)%R.
Proof.
  pose proof (bpow_le (-1000) (-2) ltac:(lia)) as H.
  assert (bpow (-2) = / 4)%R as E by (unfold bpow; simpl; lra). lra.
Qed.

Lemma bpow_16 : bpow 16 = 65536%R.
Proof. unfold bpow. simpl. lra. Qed.

Lemma bpow_m36 : (3 * bpow (-36) <= 44 / 1000000000000)%R.
Proof. unfold bpow. simpl. lra. Qed.

(** *** The two factors *)

Lemma brightnessFactor_value (brightness : Z) :
  (0 ≤ brightness ≤ 100)%Z →
  f64_finite (brightnessFactor brightness) = true
  ∧ f64_normal (brightnessFactor brightness) = true
  ∧ (Rabs (F2R (brightnessFactor brightness) - (1 / 2 + IZR brightness / 200))
     <= 33 / 1000000000000)%R.
Proof.
  intros Hb. pose proof delta_small as Hd. pose proof delta_pos as Hd0.
  assert (0 <= IZR brightness <= 100)%R as HB by (split; apply IZR_le; lia).
  unfold brightnessFactor.
  pose proof F2R_100 as E100. pose proof F2R_half as Eh.
  assert (∃ s m e, f64_of_Z 100 = S754_finite s m e) as X100 by (do 3 eexists; apply c100_eq).
  assert (f64_normal f64_half = true) as Nh by reflexivity.
  assert (f64_finite f64_half = true) as Fh by reflexivity.
  assert (valid_binary prec emax f64_half = true) as Vh by reflexivity.
  destruct (f64_of_Z_exact brightness) as [Hfb Hvb].
  { assert (101 < 2 ^ 53)%Z by reflexivity. lia. }
  destruct (f64_div_value _ _ Hfb X100) as [Hf1 Hv1].
  { rewrite Hvb, E100, bpow_14. apply Rabs_le. lra. }
  rewrite Hvb, E100 in Hv1. apply Rabs_le_inv in Hv1.
  destruct (f64_mul_value _ _ Hf1 Nh) as [Hf2 Hv2].
  { rewrite Eh, bpow_14. apply Rabs_le. lra. }
  rewrite Eh in Hv2. apply Rabs_le_inv in Hv2.
  destruct (f64_add_value _ _ Fh Hf2) as [Hf3 Hv3].
  { rewrite Eh, bpow_14. apply Rabs_le. lra. }
  rewrite Eh in Hv3. apply Rabs_le_inv in Hv3.
  split; [exact Hf3|]. split; [|apply Rabs_le; lra].
  apply valid_normal.
  - apply f64_add_valid; [exact Vh|]. apply f64_mul_valid; [apply f64_div_valid | exact Vh].
  - pose proof bpow_m1000. rewrite Rabs_pos_eq; lra.
Qed.

Lemma contrastFactor_value (brightness : Z) :
  (0 ≤ brightness ≤ 100)%Z →
  f64_finite (contrastFactor brightness) = true
  ∧ f64_normal (contrastFactor brightness) = true
  ∧ (Rabs (F2R (contrastFactor brightness) - (120 - IZR brightness / 5) / 100)
     <= 12 / 1000000000000)%R.
Proof.
  intros Hb. pose proof delta_small as Hd. pose proof delta_pos as Hd0.
  assert (0 <= IZR brightness <= 100)%R as HB by (split; apply IZR_le; lia).
  unfold contrastFactor.
  pose proof F2R_100 as E100. pose proof F2R_fifth as E5.
  assert (∃ s m e, f64_of_Z 100 = S754_finite s m e) as X100 by (do 3 eexists; apply c100_eq).
  assert (f64_normal f64_fifth = true) as N5 by reflexivity.
  assert (valid_binary prec emax f64_fifth = true) as V5 by reflexivity.
  destruct (f64_of_Z_exact 120) as [F120 E120]; [reflexivity|].
  destruct (f64_of_Z_exact brightness) as [Hfb Hvb].
  { assert (101 < 2 ^ 53)%Z by reflexivity. lia. }
  assert (0 <= IZR brightness * F2R f64_fifth - IZR brightness / 5 <= / 100000000000000)%R as Hprod.
  { replace (IZR brightness * F2R f64_fifth - IZR brightness / 5)%R
      with (IZR brightness * (F2R f64_fifth - 1 / 5))%R by field.
    split; [apply Rmult_le_pos; lra|].
    replace (/ 100000000000000)%R with (100 * / 10000000000000000)%R by lra.
    apply Rmult_le_compat; lra. }
  rewrite (f64_mul_comm f64_fifth).
  destruct (f64_mul_value _ _ Hfb N5) as [Hf1 Hv1].
  { rewrite Hvb, bpow_14. apply Rabs_le. lra. }
  rewrite Hvb in Hv1. apply Rabs_le_inv in Hv1.
  destruct (f64_sub_value _ _ F120 Hf1) as [Hf2 Hv2].
  { rewrite E120, bpow_14. apply Rabs_le. lra. }
  rewrite E120 in Hv2. apply Rabs_le_inv in Hv2.
  destruct (f64_div_value _ _ Hf2 X100) as [Hf3 Hv3].
  { rewrite E100, bpow_14. apply Rabs_le. lra. }
  rewrite E100 in Hv3. apply Rabs_le_inv in Hv3.
  split; [exact Hf3|]. split; [|apply Rabs_le; lra].
  apply valid_normal; [apply f64_div_valid|].
  pose proof bpow_m1000. rewrite Rabs_pos_eq; lra.
Qed.

(** The value before the clamp. *)
Lemma contrast_value (cf : float64) (Cf : R) (i : Z) :
  (0 ≤ i ≤ 255)%Z →
  f64_finite cf = true →
  f64_normal cf = true →
  valid_binary prec emax cf = true →
  (1 <= Cf <= 12 / 10)%R →
  (Rabs (F2R cf - Cf) <= 12 / 1000000000000)%R →
  let x := f64_add (f64_mul (f64_sub (f64_div (f64_of_Z i) (f64_of_Z 255)) f64_half) cf) f64_half in
  f64_finite x = true
  ∧ valid_binary prec emax x = true
  ∧ (Rabs (F2R x - ((IZR i / 255 - 1 / 2) * Cf + 1 / 2)) <= 60 / 1000000000000)%R.
Proof.
  intros Hi Hfc Hnc Hvc HCf Hcf x. subst x.
  pose proof delta_small as Hd. pose proof delta_pos as Hd0.
  assert (0 <= IZR i <= 255)%R as HI by (split; apply IZR_le; lia).
  pose proof F2R_half as Eh.
  assert (f64_finite f64_half = true) as Fh by reflexivity.
  assert (valid_binary prec emax f64_half = true) as Vh by reflexivity.
  destruct (f64_of_Z_exact 255) as [F255 E255]; [reflexivity|].
  assert (∃ s m e, f64_of_Z 255 = S754_finite s m e) as X255 by (do 3 eexists; reflexivity).
  destruct (f64_of_Z_exact i) as [Hfi Hvi].
  { assert (256 < 2 ^ 53)%Z by reflexivity. lia. }
  apply Rabs_le_inv in Hcf.
  (* float64(i) / 255 *)
  destruct (f64_div_value _ _ Hfi X255) as [Hf0 Hv0].
  { rewrite Hvi, E255, bpow_14. apply Rabs_le. lra. }
  rewrite Hvi, E255 in Hv0. apply Rabs_le_inv in Hv0.
  (* x - 0.5 *)
  destruct (f64_sub_value _ _ Hf0 Fh) as [Hf1 Hv1].
  { rewrite Eh, bpow_14. apply Rabs_le. lra. }
  rewrite Eh in Hv1. apply Rabs_le_inv in Hv1.
  set (x1 := f64_sub (f64_div (f64_of_Z i) (f64_of_Z 255)) f64_half) in *.
  assert (Rabs (F2R x1 - (IZR i / 255 - 1 / 2)) <= 22 / 1000000000000)%R as Hx1
      by (apply Rabs_le; lra).
  (* ... * contrastFactor *)
  pose proof (prod_error (F2R x1) (F2R cf) (IZR i / 255 - 1 / 2) Cf
                (22 / 1000000000000) (12 / 1000000000000) (1 / 2) (13 / 10) Hx1
                ltac:(apply Rabs_le; lra) ltac:(apply Rabs_le; lra) ltac:(apply Rabs_le; lra))
    as Hprod.
  apply Rabs_le_inv in Hprod.
  assert (-1 <= (IZR i / 255 - 1 / 2) * Cf <= 1)%R as Hbound.
  { assert (- (1 / 2) <= IZR i / 255 - 1 / 2 <= 1 / 2)%R as H1 by lra.
    split; nra. }
  destruct (f64_mul_value _ _ Hf1 Hnc) as [Hf2 Hv2].
  { rewrite bpow_14. apply Rabs_le. lra. }
  apply Rabs_le_inv in Hv2.
  (* ... + 0.5 *)
  destruct (f64_add_value _ _ Hf2 Fh) as [Hf3 Hv3].
  { rewrite Eh, bpow_14. apply Rabs_le. lra. }
  rewrite Eh in Hv3. apply Rabs_le_inv in Hv3.
  split; [exact Hf3|]. split.
  - apply f64_add_valid; [|exact Vh]. apply f64_mul_valid; [|exact Hvc].
    apply f64_sub_valid; [apply f64_div_valid | exact Vh].
  - apply Rabs_le. lra.
Qed.

(** The two clamps. *)
Lemma clamp_value (x : float64) :
  f64_finite x = true →
  valid_binary prec emax x = true →
  let x' := if f64_lt x (f64_of_Z 0) then f64_of_Z 0 else x in
  let x'' := if f64_lt (f64_of_Z 1) x' then f64_of_Z 1 else x' in
  f64_finite x'' = true
  ∧ F2R x'' = Rmin 1 (Rmax 0 (F2R x)).
Proof.
  intros Hf Hv. cbv zeta.
  pose proof (f64_lt_zero x Hf) as H0. pose proof F2R_1 as E1.
  assert (F2R (f64_of_Z 0) = 0%R) as E0 by reflexivity.
  set (x' := if f64_lt x (f64_of_Z 0) then f64_of_Z 0 else x).
  assert (f64_finite x' = true ∧ valid_binary prec emax x' = true
          ∧ F2R x' = Rmax 0 (F2R x)) as (Hf' & Hv' & Ex').
  { unfold x'. destruct (f64_lt x (f64_of_Z 0)).
    - split; [reflexivity|]. split; [reflexivity|].
      rewrite E0, Rmax_left; [reflexivity|]. apply Rlt_le, H0. reflexivity.
    - split; [exact Hf|]. split; [exact Hv|].
      rewrite Rmax_right; [reflexivity|].
      destruct (Rle_or_lt 0 (F2R x)) as [|Hlt]; [assumption|].
      apply H0 in Hlt. discriminate Hlt. }
  pose proof (f64_lt_one x' Hf' Hv') as H1.
  destruct (f64_lt (f64_of_Z 1) x').
  - split; [reflexivity|]. rewrite E1, <- Ex', Rmin_left; [reflexivity|].
    apply Rlt_le, H1. reflexivity.
  - split; [exact Hf'|]. rewrite <- Ex', Rmin_right; [reflexivity|].
    destruct (Rle_or_lt (F2R x') 1) as [|Hlt]; [assumption|].
    apply H1 in Hlt. discriminate Hlt.
Qed.

Lemma clamp_close (x X : R) (e : R) :
  (Rabs (x - X) <= e)%R →
  (Rabs (Rmin 1 (Rmax 0 x) - Rmin 1 (Rmax 0 X)) <= e)%R.
Proof.
  intros H. apply Rabs_le_inv in H. apply Rabs_le.
  unfold Rmax. destruct (Rle_dec 0 x), (Rle_dec 0 X); unfold Rmin;
    repeat match goal with |- context [Rle_dec ?a ?b] => destruct (Rle_dec a b) end; lra.
Qed.

Lemma clamp_range (X : R) : (0 <= Rmin 1 (Rmax 0 X) <= 1)%R.
Proof.
  unfold Rmax. destruct (Rle_dec 0 X); unfold Rmin;
    repeat match goal with |- context [Rle_dec ?a ?b] => destruct (Rle_dec a b) end; lra.
Qed.

(** An entry of the ramp. *)
Lemma rampValue_value (brightness i : Z) :
  (0 ≤ brightness ≤ 100)%Z →
  (0 ≤ i ≤ 255)%Z →
  f64_finite (rampValue (brightnessFactor brightness) (contrastFactor brightness) i) = true
  ∧ (0 <= F2R (rampValue (brightnessFactor brightness) (contrastFactor brightness) i))%R
  ∧ (Rabs (F2R (rampValue (brightnessFactor brightness) (contrastFactor brightness) i)
           - idealRamp brightness i) <= / 100000)%R.
Proof.
  intros Hb Hi.
  assert (0 <= IZR brightness <= 100)%R as HB by (split; apply IZR_le; lia).
  destruct (brightnessFactor_value brightness Hb) as (Hfb & Hnb & Hvb).
  destruct (contrastFactor_value brightness Hb) as (Hfc & Hnc & Hvc).
  assert (valid_binary prec emax (contrastFactor brightness) = true) as Hvalc
      by apply f64_div_valid.
  set (Cf := ((120 - IZR brightness / 5) / 100)%R) in *.
  set (Bf := (1 / 2 + IZR brightness / 200)%R) in *.
  assert (1 <= Cf <= 12 / 10)%R as HCf by (unfold Cf; lra).
  assert (1 / 2 <= Bf <= 1)%R as HBf by (unfold Bf; lra).
  destruct (contrast_value (contrastFactor brightness) Cf i Hi Hfc Hnc Hvalc HCf Hvc)
    as (Hf3 & Hv3 & Hx3).
  unfold rampValue, idealRamp. fold Cf Bf.
  set (x3 := f64_add (f64_mul (f64_sub (f64_div (f64_of_Z i) (f64_of_Z 255)) f64_half)
                              (contrastFactor brightness)) f64_half) in *.
  destruct (clamp_value x3 Hf3 Hv3) as [Hf5 E5]. cbv zeta in Hf5, E5.
  set (x5 := if f64_lt (f64_of_Z 1) (if f64_lt x3 (f64_of_Z 0) then f64_of_Z 0 else x3)
             then f64_of_Z 1 else (if f64_lt x3 (f64_of_Z 0) then f64_of_Z 0 else x3)) in *.
  set (X := ((IZR i / 255 - 1 / 2) * Cf + 1 / 2)%R) in *.
  pose proof (clamp_close _ _ _ Hx3) as Hx5. rewrite <- E5 in Hx5.
  pose proof (clamp_range X) as HXc. pose proof (clamp_range (F2R x3)) as Hx5r.
  rewrite <- E5 in Hx5r.
  set (Xc := Rmin 1 (Rmax 0 X)) in *.
  apply Rabs_le_inv in Hx5. apply Rabs_le_inv in Hvb.
  destruct (f64_of_Z_exact 65535) as [F65535 E65535]; [reflexivity|].
  assert (f64_normal (f64_of_Z 65535) = true) as N65535 by reflexivity.
  pose proof bpow_m36 as Hd16.
  (* x * 65535 *)
  destruct (f64_mul_value_at 16 _ _ ltac:(lia) Hf5 N65535) as [Hf6 Hv6].
  { rewrite E65535, bpow_16. apply Rabs_le. lra. }
  rewrite E65535 in Hv6. change (16 - 52)%Z with (-36)%Z in Hv6. apply Rabs_le_inv in Hv6.
  pose proof (f64_mul_nonneg _ _ Hf5 N65535 ltac:(lra) ltac:(rewrite E65535; lra)) as H6pos.
  set (y1 := f64_mul x5 (f64_of_Z 65535)) in *.
  (* ... * brightnessFactor *)
  assert (Rabs (F2R y1 - Xc * 65535) <= 4 / 1000000)%R as Hy1 by (apply Rabs_le; lra).
  pose proof (prod_error (F2R y1) (F2R (brightnessFactor brightness)) (Xc * 65535) Bf
                (4 / 1000000) (33 / 1000000000000) 65535 (1 + 33 / 1000000000000) Hy1
                ltac:(apply Rabs_le; lra) ltac:(apply Rabs_le; lra) ltac:(apply Rabs_le; lra))
    as Hprod.
  apply Rabs_le_inv in Hprod.
  assert (0 <= Xc * 65535 * Bf <= 65535)%R as Hideal.
  { split; [apply Rmult_le_pos; [apply Rmult_le_pos|]; lra|].
    replace 65535%R with (1 * 65535 * 1)%R at 2 by ring.
    apply Rmult_le_compat; lra. }
  destruct (f64_mul_value_at 16 _ _ ltac:(lia) Hf6 Hnb) as [Hf7 Hv7].
  { rewrite bpow_16. apply Rabs_le. lra. }
  change (16 - 52)%Z with (-36)%Z in Hv7. apply Rabs_le_inv in Hv7.
  split; [exact Hf7|]. split.
  - apply f64_mul_nonneg; [exact Hf6 | exact Hnb | exact H6pos | lra].
  - apply Rabs_le. lra.
Qed.

(** *** The ramp *)

Lemma uint16_of_f64_floor (x : float64) :
  f64_finite x = true →
  (0 <= F2R x < 65536)%R →
  (0 ≤ uint16_of_f64 x ≤ 65535)%Z
  ∧ (IZR (uint16_of_f64 x) <= F2R x < IZR (uint16_of_f64 x) + 1)%R.
Proof.
  intros Hx [H0 Hhi].
  destruct (f64_trunc_floor x Hx H0) as (z & Hz & Hlo & Hup).
  unfold uint16_of_f64. rewrite Hz.
  assert (0 ≤ z ≤ 65535)%Z as Hr.
  { split.
    - assert (-1 < z)%Z; [apply lt_IZR; lra | lia].
    - assert (z < 65536)%Z; [apply lt_IZR; lra | lia]. }
  rewrite Z.mod_small by lia. split; [exact Hr | lra].
Qed.

(** X20.  The ramp that [SetGamma] builds.  For a brightness from 0 to
    100 the three arrays are the same and have 256 entries; no entry
    wraps around in [uint16]; and the entry at index [i] is the value
    of the formula in exact arithmetic, {!idealRamp}, cut to an
    integer: it lies between the exact value minus 1 and the exact
    value, up to 1/100000 for the rounding of the float64 operations. *)
Theorem gamma_ramp_entries (brightness : Z) (i : nat) :
  (0 ≤ brightness ≤ 100)%Z →
  i < 256 →
  length (Red (makeRamp brightness)) = 256
  ∧ Green (makeRamp brightness) = Red (makeRamp brightness)
  ∧ Blue (makeRamp brightness) = Red (makeRamp brightness)
  ∧ ∃ val, Red (makeRamp brightness) !! i = Some val
           ∧ (0 ≤ val ≤ 65535)%Z
           ∧ (idealRamp brightness (Z.of_nat i) - 1 - / 100000 < IZR val
              <= idealRamp brightness (Z.of_nat i) + / 100000)%R.
Proof.
  intros Hb Hi. unfold makeRamp. cbn [Red Green Blue].
  split; [rewrite length_map, length_seq; reflexivity|].
  split; [reflexivity|]. split; [reflexivity|].
  rewrite list_lookup_fmap, lookup_seq_lt by exact Hi. cbn [fmap option_fmap option_map].
  eexists. split; [reflexivity|]. change (0 + i) with i.
  destruct (rampValue_value brightness (Z.of_nat i) Hb ltac:(lia)) as (Hf & H0 & Hv).
  apply Rabs_le_inv in Hv.
  assert (0 <= idealRamp brightness (Z.of_nat i) <= 65535)%R as Hideal.
  { unfold idealRamp.
    assert (0 <= IZR brightness <= 100)%R as HB by (split; apply IZR_le; lia).
    pose proof (clamp_range ((IZR (Z.of_nat i) / 255 - 1 / 2)
                             * ((120 - IZR brightness / 5) / 100) + 1 / 2)) as Hc.
    set (Xc := Rmin 1 _) in *.
    split; [apply Rmult_le_pos; [apply Rmult_le_pos|]; lra|].
    replace 65535%R with (1 * 65535 * 1)%R at 2 by ring.
    apply Rmult_le_compat; lra. }
  destruct (uint16_of_f64_floor _ Hf ltac:(lra)) as [Hr Hfl].
  split; [exact Hr | lra].
Qed.

Lemma gamma_ramp_entries_witness :
  length (Red (makeRamp 50)) = 256
  ∧ Green (makeRamp 50) = Red (makeRamp 50)
  ∧ Blue (makeRamp 50) = Red (makeRamp 50)
  ∧ ∃ val, Red (makeRamp 50) !! 128 = Some val
           ∧ (0 ≤ val ≤ 65535)%Z
           ∧ (idealRamp 50 (Z.of_nat 128) - 1 - / 100000 < IZR val
              <= idealRamp 50 (Z.of_nat 128) + / 100000)%R.
Proof.
  apply (gamma_ramp_entries 50 128); lia.
Defined.

(** *** The loop over the displays *)

Lemma rampLoop_spec (d : Desktop) (ramp : GammaRamp) (displays : list string) :
  ∀ lastError successCount applied,
    rampLoop d ramp displays lastError successCount applied
    = (match last (refusers d ramp displays) with
       | Some hdc => Some (ErrSetRamp hdc)
       | None => lastError
       end,
       successCount + length (takers d ramp displays),
       applied ++ takers d ramp displays).
Proof.
  unfold takers, refusers.
  induction displays as [|name rest IH]; intros lastError successCount applied.
  - cbn. rewrite Nat.add_0_r, app_nil_r. reflexivity.
  - cbn [rampLoop]. rewrite filter_cons.
    destruct (hasNul name) eqn:Hnul.
    + rewrite decide_False by discriminate. apply IH.
    + rewrite decide_True by reflexivity. cbn [map]. rewrite !filter_cons.
      destruct (Z.eqb_spec (CreateDC d name) 0) as [Hz|Hnz].
      * repeat case_decide; try (exfalso; tauto). apply IH.
      * unfold setGammaWithHDC.
        destruct (SetDeviceGammaRamp d (CreateDC d name) ramp) eqn:Hset;
          repeat case_decide; try (exfalso; intuition congruence).
        -- rewrite IH. cbn [length]. rewrite <- app_assoc. cbn [app].
           rewrite Nat.add_succ_r. reflexivity.
        -- rewrite IH. rewrite last_cons.
           destruct (last (filter _ _)); reflexivity.
Qed.

Lemma setDeviceGammaRampForAllDisplays_spec (d : Desktop) (ramp : GammaRamp) :
  setDeviceGammaRampForAllDisplays d ramp =
    match takers d ramp (getActiveDisplayDevices d) with
    | _ :: _ => (takers d ramp (getActiveDisplayDevices d), None)
    | [] =>
        if (GetDC d =? 0)%Z then
          ([], Some match last (refusers d ramp (getActiveDisplayDevices d)) with
                    | Some hdc => ErrSetRamp hdc
                    | None => ErrNoDisplay
                    end)
        else if SetDeviceGammaRamp d (GetDC d) ramp then ([GetDC d], None)
        else ([], Some (ErrSetRamp (GetDC d)))
    end.
Proof.
  unfold setDeviceGammaRampForAllDisplays. rewrite rampLoop_spec. cbn [app Nat.add].
  destruct (takers d ramp (getActiveDisplayDevices d)) as [|hdc ts].
  - cbn [length Nat.eqb app]. unfold setGammaWithHDC.
    destruct (GetDC d =? 0)%Z.
    + destruct (last (refusers d ramp (getActiveDisplayDevices d))); reflexivity.
    + destruct (SetDeviceGammaRamp d (GetDC d) ramp); reflexivity.
  - cbn [length Nat.eqb].
    destruct (last (refusers d ramp (getActiveDisplayDevices d))); reflexivity.
Qed.

(** X21.  What [SetGamma] applies and returns, for a brightness from 0
    to 100.  If an active display takes the ramp, the ramp goes to
    every active display that takes it, in the order of the
    enumeration, the refusals of the other displays are dropped and the
    result is nil.  If none takes it, the ramp goes to the screen
    context [GetDC(0)] and the result is that of this one call; if
    there is no such context either, the result is the error of the
    last display that refused, or "failed to set gamma on any display"
    when no display was tried. *)
Theorem set_gamma_result (d : Desktop) (brightness : Z) :
  (0 ≤ brightness ≤ 100)%Z →
  (takers d (makeRamp brightness) (getActiveDisplayDevices d) ≠ [] →
     SetGamma d brightness = (takers d (makeRamp brightness) (getActiveDisplayDevices d), None))
  ∧ (takers d (makeRamp brightness) (getActiveDisplayDevices d) = [] →
     (GetDC d ≠ 0%Z → SetDeviceGammaRamp d (GetDC d) (makeRamp brightness) = true →
        SetGamma d brightness = ([GetDC d], None))
     ∧ (GetDC d ≠ 0%Z → SetDeviceGammaRamp d (GetDC d) (makeRamp brightness) = false →
        SetGamma d brightness = ([], Some (ErrSetRamp (GetDC d))))
     ∧ (GetDC d = 0%Z →
        SetGamma d brightness
        = ([], Some match last (refusers d (makeRamp brightness) (getActiveDisplayDevices d)) with
                    | Some hdc => ErrSetRamp hdc
                    | None => ErrNoDisplay
                    end))).
Proof.
  intros Hb. unfold SetGamma.
  destruct (Z.ltb_spec brightness 0) as [|_]; [lia|].
  destruct (Z.ltb_spec 100 brightness) as [|_]; [lia|]. cbn [orb].
  rewrite setDeviceGammaRampForAllDisplays_spec.
  destruct (takers d (makeRamp brightness) (getActiveDisplayDevices d)) as [|hdc ts].
  - split; [intros H; contradiction|]. intros _.
    destruct (Z.eqb_spec (GetDC d) 0) as [Hz|Hnz].
    + split; [intros H; contradiction|]. split; [intros H; contradiction|]. reflexivity.
    + split; [intros _ ->; reflexivity|]. split; [intros _ ->; reflexivity|].
      intros H; contradiction.
  - split; [reflexivity | discriminate].
Qed.

Lemma set_gamma_result_witness :
  SetGamma sampleDesktop 100 = ([13%Z], None).
Proof.
  assert (takers sampleDesktop (makeRamp 100) (getActiveDisplayDevices sampleDesktop) = [13%Z]) as E
      by reflexivity.
  pose proof (proj1 (set_gamma_result sampleDesktop 100 ltac:(lia))) as H.
  rewrite E in H. apply H. discriminate.
Defined.

(** X22.  The range check of [SetGamma] is never reached from the
    command line.  For a percentage outside 0..100 [handleGamma]
    returns its own error and touches nothing ([SetGamma] alone would
    return "brightness must be between 0 and 100"); inside the range it
    is [SetGamma]; so the brightness error never comes out of
    [handleGamma], nor out of [ResetGamma]. *)
Theorem handle_gamma_errors (d : Desktop) (percentage : Z) :
  ((percentage < 0 ∨ 100 < percentage)%Z →
     handleGamma d percentage = ([], Some ErrGammaPercentage)
     ∧ SetGamma d percentage = ([], Some ErrBrightness))
  ∧ ((0 ≤ percentage ≤ 100)%Z → handleGamma d percentage = SetGamma d percentage)
  ∧ snd (handleGamma d percentage) ≠ Some ErrBrightness
  ∧ snd (ResetGamma d) ≠ Some ErrBrightness.
Proof.
  assert (∀ b, (0 ≤ b ≤ 100)%Z → snd (SetGamma d b) ≠ Some ErrBrightness) as Hin.
  { intros b Hb. unfold SetGamma.
    destruct (Z.ltb_spec b 0) as [|_]; [lia|].
    destruct (Z.ltb_spec 100 b) as [|_]; [lia|]. cbn [orb].
    rewrite setDeviceGammaRampForAllDisplays_spec.
    destruct (takers d (makeRamp b) (getActiveDisplayDevices d)); [|discriminate].
    destruct (GetDC d =? 0)%Z.
    - destruct (last (refusers d (makeRamp b) (getActiveDisplayDevices d))); discriminate.
    - destruct (SetDeviceGammaRamp d (GetDC d) (makeRamp b)); discriminate. }
  unfold handleGamma.
  split; [|split; [|split]].
  - intros Hout. unfold SetGamma.
    destruct (Z.ltb_spec percentage 0); destruct (Z.ltb_spec 100 percentage);
      cbn [orb]; try (split; reflexivity). lia.
  - intros Hb.
    destruct (Z.ltb_spec percentage 0) as [|_]; [lia|].
    destruct (Z.ltb_spec 100 percentage) as [|_]; [lia|]. reflexivity.
  - destruct (Z.ltb_spec percentage 0); [discriminate|].
    destruct (Z.ltb_spec 100 percentage); [discriminate|]. cbn [orb].
    apply Hin. lia.
  - apply Hin. lia.
Qed.

Lemma handle_gamma_errors_witness :
  (handleGamma sampleDesktop 101 = ([], Some ErrGammaPercentage)
   ∧ SetGamma sampleDesktop 101 = ([], Some ErrBrightness))
  ∧ handleGamma sampleDesktop 100 = SetGamma sampleDesktop 100.
Proof.
  split.
  - apply (proj1 (handle_gamma_errors sampleDesktop 101)). lia.
  - apply (proj1 (proj2 (handle_gamma_errors sampleDesktop 100))). lia.
Defined.

(** * Package hdr *)

Lemma hdrLoop_spec (w : DisplayConfig) (enable : bool) (paths : list Target) :
  ∀ lastError successCount written,
    hdrLoop w enable paths lastError successCount written
    = (match last (refusing w (if enable then 1 else 0) paths) with
       | Some t => Some (ErrSetState (Id t))
       | None => lastError
       end,
       successCount + length (accepting w (if enable then 1 else 0) paths),
       written ++ map (λ t, (Id t, if enable then 1%Z else 0%Z))
                      (accepting w (if enable then 1 else 0) paths)).
Proof.
  unfold accepting, refusing.
  induction paths as [|path rest IH]; intros lastError successCount written.
  - cbn. rewrite Nat.add_0_r, app_nil_r. reflexivity.
  - cbn [hdrLoop]. rewrite !filter_cons. unfold setHDRForDisplay.
    destruct (Z.eqb_spec (TargetAvailable path) 0) as [Hz|Hnz].
    + repeat case_decide; try (exfalso; tauto). apply IH.
    + destruct (Z.eqb_spec (DisplayConfigSetDeviceInfo w (AdapterId path) (Id path)
                              (if enable then 1 else 0)) 0) as [Hs|Hs];
        repeat case_decide; try (exfalso; tauto).
      * rewrite IH. cbn [length map]. rewrite <- app_assoc. cbn [app].
        rewrite Nat.add_succ_r. reflexivity.
      * rewrite IH. rewrite last_cons. destruct (last (filter _ _)); reflexivity.
Qed.

Lemma SetHDR_spec (w : DisplayConfig) (enable : bool) (paths : list Target) :
  queried w paths →
  SetHDR w enable =
    match accepting w (if enable then 1 else 0) paths with
    | _ :: _ => (map (λ t, (Id t, if enable then 1%Z else 0%Z))
                     (accepting w (if enable then 1 else 0) paths), None)
    | [] => ([], Some match last (refusing w (if enable then 1 else 0) paths) with
                      | Some t => ErrSetState (Id t)
                      | None => ErrNoCompatible
                      end)
    end.
Proof.
  intros (pc & mc & Hb & Hpc & Hmc & Hq). unfold SetHDR. rewrite Hb, Hq.
  cbn [Z.eqb negb].
  destruct (Z.eqb_spec pc 0) as [|_]; [contradiction|].
  destruct (Z.eqb_spec mc 0) as [|_]; [contradiction|]. cbn [orb].
  rewrite hdrLoop_spec. cbn [app Nat.add].
  destruct (accepting w (if enable then 1 else 0) paths) as [|t ts].
  - cbn [length Nat.eqb map].
    destruct (last (refusing w (if enable then 1 else 0) paths)); reflexivity.
  - cbn [length Nat.eqb].
    destruct (last (refusing w (if enable then 1 else 0) paths)); reflexivity.
Qed.

(** X23.  What [SetHDR] writes and returns once Windows has answered
    the two queries.  If an available target accepts the value, the
    value is written to every available target that accepts it, in
    order, the refusals of the others are dropped and the result is
    nil.  If none accepts it, nothing is written and the result is the
    error of the last available target that refused, or "no compatible
    displays were configured" when no target is available. *)
Theorem set_hdr_result (w : DisplayConfig) (enable : bool) (paths : list Target) :
  queried w paths →
  (accepting w (if enable then 1 else 0) paths ≠ [] →
     SetHDR w enable
     = (map (λ t, (Id t, if enable then 1%Z else 0%Z))
            (accepting w (if enable then 1 else 0) paths), None))
  ∧ (accepting w (if enable then 1 else 0) paths = [] →
     SetHDR w enable
     = ([], Some match last (refusing w (if enable then 1 else 0) paths) with
                 | Some t => ErrSetState (Id t)
                 | None => ErrNoCompatible
                 end)).
Proof.
  intros Hq. rewrite (SetHDR_spec w enable paths Hq).
  destruct (accepting w (if enable then 1 else 0) paths) as [|t ts].
  - split; [intros H; contradiction | reflexivity].
  - split; [reflexivity | discriminate].
Qed.

(** X24.  [Toggle] does not look at the current state: it is [Disable]
    whenever [Disable] works.  If an available target accepts the value
    0, [Toggle] returns nil and every write it makes has the value 0,
    also on a system where HDR was off already.  Only when no target
    accepts 0 does it write the value 1, and then it is [Enable]. *)
Theorem hdr_toggle_turns_off (w : DisplayConfig) (paths : list Target) :
  queried w paths →
  (accepting w 0 paths ≠ [] →
     hdrToggle w = hdrDisable w
     ∧ snd (hdrToggle w) = None
     ∧ ∀ write, write ∈ fst (hdrToggle w) → snd write = 0%Z)
  ∧ (accepting w 0 paths = [] →
     hdrToggle w = hdrEnable w
     ∧ ∀ write, write ∈ fst (hdrToggle w) → snd write = 1%Z).
Proof.
  intros Hq. unfold hdrToggle, hdrDisable, hdrEnable.
  rewrite (SetHDR_spec w false paths Hq), (SetHDR_spec w true paths Hq).
  split.
  - intros Hne. destruct (accepting w 0 paths) as [|t ts]; [contradiction|].
    split; [reflexivity|]. split; [reflexivity|].
    intros write Hin. cbn [fst] in Hin. apply list_elem_of_fmap in Hin as (t' & -> & _).
    reflexivity.
  - intros ->. destruct (accepting w 1 paths) as [|t ts].
    + split; [reflexivity|]. intros write Hin. cbn [fst app] in Hin. inversion Hin.
    + split; [reflexivity|]. intros write Hin. cbn [fst app] in Hin.
      apply list_elem_of_fmap in Hin as (t' & -> & _). reflexivity.
Qed.

Lemma sampleConfig_queried : queried sampleConfig sampleDisplays.
Proof. exists 3%Z, 6%Z. repeat split; discriminate. Qed.

Lemma set_hdr_result_witness :
  SetHDR sampleConfig true = ([(102, 1)]%Z, None).
Proof.
  apply (proj1 (set_hdr_result sampleConfig true sampleDisplays sampleConfig_queried)).
  discriminate.
Defined.

Lemma hdr_toggle_turns_off_witness :
  hdrToggle sampleConfig = hdrDisable sampleConfig
  ∧ snd (hdrToggle sampleConfig) = None
  ∧ ∀ write, write ∈ fst (hdrToggle sampleConfig) → snd write = 0%Z.
Proof.
  apply (proj1 (hdr_toggle_turns_off sampleConfig sampleDisplays sampleConfig_queried)).
  discriminate.
Defined.

(** X25.  What [handleHDR] reports.  When the buffer-size query fails
    it returns "HDR is not supported ..." and writes nothing, whatever
    the word given, [on], [off], [toggle] or another one.  Otherwise
    [on] prints "HDR enabled on all compatible displays" as soon as one
    available target accepts the value 1, whether or not others
    refused; and when one accepts 0, [off] and [toggle] make the same
    writes, all of value 0, and differ in the line printed only. *)
Theorem handle_hdr_reports (w : DisplayConfig) (paths : list Target) (hdrState : string) :
  (IsHDRSupported w = false → handleHDR w hdrState = ([], HdrNotSupported))
  ∧ (queried w paths →
     IsHDRSupported w = true
     ∧ (accepting w 1 paths ≠ [] →
        handleHDR w "on"
        = (map (λ t, (Id t, 1%Z)) (accepting w 1 paths),
           HdrPrinted "HDR enabled on all compatible displays"))
     ∧ (accepting w 0 paths ≠ [] →
        handleHDR w "off"
        = (map (λ t, (Id t, 0%Z)) (accepting w 0 paths),
           HdrPrinted "HDR disabled on all compatible displays")
        ∧ handleHDR w "toggle"
          = (map (λ t, (Id t, 0%Z)) (accepting w 0 paths),
             HdrPrinted "HDR toggled on all compatible displays"))).
Proof.
  split.
  - intros Hs. unfold handleHDR. rewrite Hs. reflexivity.
  - intros Hq.
    assert (IsHDRSupported w = true) as Hs.
    { destruct Hq as (pc & mc & Hb & _). unfold IsHDRSupported. rewrite Hb. reflexivity. }
    split; [exact Hs|]. unfold handleHDR, hdrToggle, hdrEnable, hdrDisable. rewrite Hs.
    cbn [negb String.eqb Ascii.eqb Bool.eqb andb].
    rewrite (SetHDR_spec w false paths Hq), (SetHDR_spec w true paths Hq).
    split.
    + intros Hne. destruct (accepting w 1 paths); [contradiction | reflexivity].
    + intros Hne. destruct (accepting w 0 paths); [contradiction|]. split; reflexivity.
Qed.

Lemma handle_hdr_reports_witness :
  IsHDRSupported sampleConfig = true
  ∧ handleHDR sampleConfig "on"
    = (map (λ t, (Id t, 1%Z)) (accepting sampleConfig 1 sampleDisplays),
       HdrPrinted "HDR enabled on all compatible displays")
  ∧ refusing sampleConfig 1 sampleDisplays ≠ [].
Proof.
  pose proof (proj2 (handle_hdr_reports sampleConfig sampleDisplays "on") sampleConfig_queried)
    as (Hs & Hon & _).
  split; [exact Hs|]. split; [apply Hon; discriminate | discriminate].
Defined.

(** * The program *)

(** ** An error means that nothing was changed *)

Lemma setDeviceGammaRampForAllDisplays_applied (d : Desktop) (ramp : GammaRamp) :
  (snd (setDeviceGammaRampForAllDisplays d ramp) = None
   ↔ fst (setDeviceGammaRampForAllDisplays d ramp) ≠ [])
  ∧ ∀ hdc, hdc ∈ fst (setDeviceGammaRampForAllDisplays d ramp) →
           hdc ≠ 0%Z ∧ SetDeviceGammaRamp d hdc ramp = true.
Proof.
  rewrite setDeviceGammaRampForAllDisplays_spec.
  destruct (takers d ramp (getActiveDisplayDevices d)) as [|hdc ts] eqn:Ht.
  - destruct (Z.eqb_spec (GetDC d) 0) as [H0|H0].
    + cbn [fst snd]. split; [split; [discriminate | congruence]|].
      intros hdc Hin. inversion Hin.
    + destruct (SetDeviceGammaRamp d (GetDC d) ramp) eqn:Hs; cbn [fst snd].
      * split; [split; [discriminate | reflexivity]|].
        intros hdc Hin. apply list_elem_of_singleton in Hin as ->. split; assumption.
      * split; [split; [discriminate | congruence]|].
        intros hdc Hin. inversion Hin.
  - cbn [fst snd]. split; [split; [discriminate | reflexivity]|].
    intros h Hin. rewrite <- Ht in Hin. unfold takers in Hin.
    apply list_elem_of_filter in Hin as [H _]. exact H.
Qed.

Lemma SetGamma_applied (d : Desktop) (brightness : Z) :
  (snd (SetGamma d brightness) = None ↔ fst (SetGamma d brightness) ≠ [])
  ∧ ∀ hdc, hdc ∈ fst (SetGamma d brightness) →
           hdc ≠ 0%Z ∧ SetDeviceGammaRamp d hdc (makeRamp brightness) = true.
Proof.
  unfold SetGamma.
  destruct ((brightness <? 0)%Z || (100 <? brightness)%Z).
  - cbn [fst snd]. split; [split; [discriminate | congruence]|].
    intros hdc Hin. inversion Hin.
  - apply setDeviceGammaRampForAllDisplays_applied.
Qed.

Lemma handleGamma_applied (d : Desktop) (percentage : Z) :
  (snd (handleGamma d percentage) = None ↔ fst (handleGamma d percentage) ≠ [])
  ∧ ∀ hdc, hdc ∈ fst (handleGamma d percentage) →
           hdc ≠ 0%Z ∧ SetDeviceGammaRamp d hdc (makeRamp percentage) = true.
Proof.
  unfold handleGamma.
  destruct ((percentage <? 0)%Z || (100 <? percentage)%Z).
  - cbn [fst snd]. split; [split; [discriminate | congruence]|].
    intros hdc Hin. inversion Hin.
  - apply SetGamma_applied.
Qed.

Lemma handleGamma_range (d : Desktop) (percentage : Z) :
  snd (handleGamma d percentage) = None → (0 ≤ percentage ≤ 100)%Z.
Proof.
  unfold handleGamma.
  destruct (Z.ltb_spec percentage 0); [discriminate|].
  destruct (Z.ltb_spec 100 percentage); [discriminate|]. lia.
Qed.

(** X26.  An error of package gamma means that no ramp was applied.
    [SetGamma], [ResetGamma] and [handleGamma] return nil exactly when
    the ramp was applied to one device context at least, and an error
    exactly when it was applied to none.  A context the ramp was
    applied to is never the null handle, and [SetGamma] returns nil for
    a brightness from 0 to 100 only. *)
Theorem gamma_all_or_nothing (d : Desktop) (brightness : Z) :
  (snd (SetGamma d brightness) = None ↔ fst (SetGamma d brightness) ≠ [])
  ∧ (snd (handleGamma d brightness) = None ↔ fst (handleGamma d brightness) ≠ [])
  ∧ (snd (ResetGamma d) = None ↔ fst (ResetGamma d) ≠ [])
  ∧ (∀ hdc, hdc ∈ fst (SetGamma d brightness) →
            hdc ≠ 0%Z ∧ SetDeviceGammaRamp d hdc (makeRamp brightness) = true)
  ∧ (snd (SetGamma d brightness) = None → (0 ≤ brightness ≤ 100)%Z).
Proof.
  split; [apply SetGamma_applied|].
  split; [apply handleGamma_applied|].
  split; [apply (SetGamma_applied d 100)|].
  split; [apply SetGamma_applied|].
  unfold SetGamma.
  destruct (Z.ltb_spec brightness 0); [discriminate|].
  destruct (Z.ltb_spec 100 brightness); [discriminate|]. lia.
Qed.

Lemma gamma_all_or_nothing_witness :
  snd (SetGamma sampleDesktop 100) = None ∧ (0 ≤ 100 ≤ 100)%Z.
Proof.
  assert (snd (SetGamma sampleDesktop 100) = None) as H by reflexivity.
  split; [exact H|].
  exact (proj2 (proj2 (proj2 (proj2 (gamma_all_or_nothing sampleDesktop 100)))) H).
Defined.

Lemma hdrLoop_written (w : DisplayConfig) (enable : bool) (paths : list Target) :
  ∀ lastError successCount written,
    successCount = length written →
    let '(_, successCount', written') := hdrLoop w enable paths lastError successCount written in
    successCount' = length written'
    ∧ ∀ write, write ∈ written' →
               write ∈ written ∨ snd write = (if enable then 1%Z else 0%Z).
Proof.
  intros lastError successCount written Hc.
  rewrite hdrLoop_spec. split.
  - rewrite length_app, length_map. lia.
  - intros write Hin. apply elem_of_app in Hin as [Hin|Hin]; [left; exact Hin|].
    right. apply list_elem_of_fmap in Hin as (t & -> & _). reflexivity.
Qed.

Lemma SetHDR_written (w : DisplayConfig) (enable : bool) :
  (snd (SetHDR w enable) = None ↔ fst (SetHDR w enable) ≠ [])
  ∧ ∀ write, write ∈ fst (SetHDR w enable) → snd write = (if enable then 1%Z else 0%Z).
Proof.
  unfold SetHDR.
  destruct (GetDisplayConfigBufferSizes w) as [[ret pathCount] modeCount].
  destruct (negb (ret =? 0)%Z).
  { cbn [fst snd]. split; [split; [discriminate | congruence]|].
    intros write Hin. inversion Hin. }
  destruct ((pathCount =? 0)%Z || (modeCount =? 0)%Z).
  { cbn [fst snd]. split; [split; [discriminate | congruence]|].
    intros write Hin. inversion Hin. }
  destruct (QueryDisplayConfig w) as [ret' paths].
  destruct (negb (ret' =? 0)%Z).
  { cbn [fst snd]. split; [split; [discriminate | congruence]|].
    intros write Hin. inversion Hin. }
  pose proof (hdrLoop_written w enable paths None 0 [] eq_refl) as H.
  destruct (hdrLoop w enable paths None 0 []) as [[lastError successCount] written].
  destruct H as [Hc Hw].
  assert (∀ write, write ∈ written → snd write = (if enable then 1%Z else 0%Z)) as Hw'.
  { intros write Hin. destruct (Hw write Hin) as [H|H]; [inversion H | exact H]. }
  destruct written as [|x xs]; cbn [length] in Hc; subst successCount; cbn [Nat.eqb].
  - destruct lastError; cbn [fst snd]; (split; [split; [discriminate | congruence] | exact Hw']).
  - destruct lastError; cbn [fst snd]; (split; [split; [discriminate | reflexivity] | exact Hw']).
Qed.

Lemma hdrToggle_written (w : DisplayConfig) :
  snd (hdrToggle w) = None ↔ fst (hdrToggle w) ≠ [].
Proof.
  unfold hdrToggle, hdrDisable, hdrEnable.
  pose proof (proj1 (SetHDR_written w false)) as Hoff.
  pose proof (proj1 (SetHDR_written w true)) as Hon.
  destruct (SetHDR w false) as [written [err|]]; cbn [fst snd] in *.
  - assert (written = []) as ->.
    { destruct written; [reflexivity|]. exfalso.
      assert (Some err = None) as H by (apply Hoff; discriminate). discriminate H. }
    destruct (SetHDR w true) as [written' err']; cbn [fst snd app] in *. exact Hon.
  - exact Hoff.
Qed.

Lemma handleHDR_written (w : DisplayConfig) (hdrState : string) :
  (∃ line, snd (handleHDR w hdrState) = HdrPrinted line) ↔ fst (handleHDR w hdrState) ≠ [].
Proof.
  unfold handleHDR.
  assert (∀ (run : list hdrWrite * option hdrError) (what line : string),
            (snd run = None ↔ fst run ≠ []) →
            (∃ line', snd (match run with
                           | (written, Some err) => (written, HdrFailed what err)
                           | (written, None) => (written, HdrPrinted line)
                           end) = HdrPrinted line')
            ↔ fst (match run with
                   | (written, Some err) => (written, HdrFailed what err)
                   | (written, None) => (written, HdrPrinted line)
                   end) ≠ []) as Hrun.
  { intros [written [err|]] what line H; cbn [fst snd] in *.
    - split; [intros [line' Hl]; discriminate Hl|].
      intros Hne. apply H in Hne. discriminate Hne.
    - split; [intros _; apply H; reflexivity | intros _; exists line; reflexivity]. }
  destruct (negb (IsHDRSupported w)).
  { cbn [fst snd]. split; [intros [line H]; discriminate H | congruence]. }
  destruct (String.eqb hdrState "on"); [apply Hrun, SetHDR_written|].
  destruct (String.eqb hdrState "off"); [apply Hrun, SetHDR_written|].
  destruct (String.eqb hdrState "toggle"); [apply Hrun, hdrToggle_written|].
  cbn [fst snd]. split; [intros [line H]; discriminate H | congruence].
Qed.

(** X27.  An error of package hdr means that nothing was written,
    whatever Windows answers.  [SetHDR] and [Toggle] return nil exactly
    when Windows accepted one write at least, and an error exactly when
    it accepted none; [handleHDR] prints its line of success in the
    first case only.  Every write of [SetHDR] has the value asked
    for. *)
Theorem hdr_all_or_nothing (w : DisplayConfig) (enable : bool) (hdrState : string) :
  (snd (SetHDR w enable) = None ↔ fst (SetHDR w enable) ≠ [])
  ∧ (∀ write, write ∈ fst (SetHDR w enable) → snd write = (if enable then 1%Z else 0%Z))
  ∧ (snd (hdrToggle w) = None ↔ fst (hdrToggle w) ≠ [])
  ∧ ((∃ line, snd (handleHDR w hdrState) = HdrPrinted line)
     ↔ fst (handleHDR w hdrState) ≠ []).
Proof.
  split; [apply SetHDR_written|].
  split; [apply SetHDR_written|].
  split; [apply hdrToggle_written | apply handleHDR_written].
Qed.

Lemma hdr_all_or_nothing_witness :
  fst (SetHDR sampleConfig true) ≠ [] ∧ snd (SetHDR sampleConfig true) = None.
Proof.
  assert (fst (SetHDR sampleConfig true) ≠ []) as H by discriminate.
  split; [exact H|].
  exact (proj2 (proj1 (hdr_all_or_nothing sampleConfig true "on")) H).
Defined.

(** ** The order of the operations *)

(** X28.  [main] runs HDR, gamma and night light in this order, stops
    at the first error and undoes nothing.  With [-help] or without
    arguments it shows the help.  A run that ends with the help, the
    version or an HDR error has changed nothing.  A run that ends with
    a gamma error has applied no ramp and has left the registry as it
    was, but the HDR writes of a given [-hdr] have been made and stay.
    [-gamma -1] is the same as no [-gamma]: no ramp is applied and no
    gamma error is reported.  A run that finishes was asked for one
    operation at least, has written HDR if [-hdr] was given, and has
    applied a ramp, for a percentage from 0 to 100, if [-gamma] was
    given.  This holds for the [main] of both [main.go], whatever the
    night-light handler does. *)
Theorem main_stops_at_first_error (handleNight : string → Registry → Registry * report)
    (f : Flags) (args : nat) (w : DisplayConfig) (d : Desktop) (r : Registry) :
  let run := mainWith handleNight f args w d r in
  (helpFlag f = true ∨ args = 1 → ended run = ShowedHelp)
  ∧ (ended run = ShowedHelp ∨ ended run = ShowedVersion ∨ (∃ rep, ended run = ExitHDR rep) →
     hdrWritten run = [] ∧ gammaApplied run = [] ∧ registryLeft run = r)
  ∧ (∀ err, ended run = ExitGamma err →
     gammaFlag f ≠ (-1)%Z
     ∧ gammaApplied run = [] ∧ registryLeft run = r
     ∧ (hdrFlag f ≠ "" →
        hdrWritten run = fst (handleHDR w (hdrFlag f)) ∧ hdrWritten run ≠ []))
  ∧ (gammaFlag f = (-1)%Z → gammaApplied run = [])
  ∧ (ended run = Finished →
     (hdrFlag f ≠ "" ∨ gammaFlag f ≠ (-1)%Z ∨ nightFlag f ≠ "")
     ∧ (hdrFlag f ≠ "" → hdrWritten run ≠ [])
     ∧ (gammaFlag f ≠ (-1)%Z → (0 ≤ gammaFlag f ≤ 100)%Z ∧ gammaApplied run ≠ [])).
Proof.
  cbv zeta. unfold mainWith.
  destruct (helpFlag f) eqn:Hhelp.
  { cbn [orb ended hdrWritten gammaApplied registryLeft].
    repeat split; try reflexivity; discriminate. }
  destruct (Nat.eqb_spec args 1) as [Hargs|Hargs].
  { cbn [orb ended hdrWritten gammaApplied registryLeft].
    repeat split; try reflexivity; discriminate. }
  cbn [orb].
  assert (false = true ∨ args = 1 → False) as Hno by (intros [H|H]; [discriminate H | contradiction]).
  destruct (versionFlag f).
  { cbn [ended hdrWritten gammaApplied registryLeft].
    split; [intros H; destruct (Hno H)|].
    repeat split; try reflexivity; discriminate. }
  (* the HDR step *)
  pose proof (handleHDR_written w (hdrFlag f)) as Hhdr.
  destruct (String.eqb_spec (hdrFlag f) "") as [Hh|Hh]; cbn [negb].
  - (* no HDR flag *)
    pose proof (handleGamma_applied d (gammaFlag f)) as [Hg _].
    pose proof (handleGamma_range d (gammaFlag f)) as Hrange.
    destruct (Z.eqb_spec (gammaFlag f) (-1)) as [Hm|Hm]; cbn [negb].
    + destruct (String.eqb_spec (nightFlag f) "") as [Hn|Hn]; cbn [negb].
      * cbn [ended hdrWritten gammaApplied registryLeft].
        split; [intros H; destruct (Hno H)|].
        repeat split; try reflexivity; discriminate.
      * destruct (handleNight (nightFlag f) r) as [r' rep].
        cbn [ended hdrWritten gammaApplied registryLeft].
        split; [intros H; destruct (Hno H)|].
        split; [intros [H|[H|[rep' H]]]; destruct rep; discriminate H|].
        split; [intros err H; destruct rep; discriminate H|].
        split; [reflexivity|].
        intros _. split; [right; right; exact Hn|]. split; intros H; contradiction.
    + destruct (handleGamma d (gammaFlag f)) as [applied [err|]]; cbn [fst snd] in *.
      * cbn [ended hdrWritten gammaApplied registryLeft].
        assert (applied = []) as ->.
        { destruct applied; [reflexivity|]. exfalso.
          assert (Some err = None) as Hc by (apply Hg; discriminate). discriminate Hc. }
        split; [intros H; destruct (Hno H)|].
        split; [intros [H|[H|[rep' H]]]; discriminate H|].
        split; [intros err' _; repeat split; try assumption; contradiction|].
        split; [intros H; contradiction|]. intros H; discriminate H.
      * assert (applied ≠ []) as Happ by (apply Hg; reflexivity).
        destruct (String.eqb_spec (nightFlag f) "") as [Hn|Hn]; cbn [negb].
        -- cbn [ended hdrWritten gammaApplied registryLeft].
           split; [intros H; destruct (Hno H)|].
           split; [intros [H|[H|[rep' H]]]; discriminate H|].
           split; [intros err H; discriminate H|].
           split; [intros H; contradiction|].
           intros _. split; [right; left; exact Hm|].
           split; [intros H; contradiction|]. intros _. split; [apply Hrange; reflexivity | exact Happ].
        -- destruct (handleNight (nightFlag f) r) as [r' rep].
           cbn [ended hdrWritten gammaApplied registryLeft].
           split; [intros H; destruct (Hno H)|].
           split; [intros [H|[H|[rep' H]]]; destruct rep; discriminate H|].
           split; [intros err H; destruct rep; discriminate H|].
           split; [intros H; contradiction|].
           intros _. split; [right; left; exact Hm|].
           split; [intros H; contradiction|]. intros _. split; [apply Hrange; reflexivity | exact Happ].
  - (* an HDR flag *)
    destruct (handleHDR w (hdrFlag f)) as [written rep]; cbn [fst snd] in *.
    assert ((∃ line, rep = HdrPrinted line) ∨ (written = [] ∧ ∀ line, rep ≠ HdrPrinted line)) as Hcase.
    { destruct written as [|x xs].
      - right. split; [reflexivity|]. intros line ->.
        assert (@nil hdrWrite ≠ []) as H by (apply Hhdr; eexists; reflexivity).
        contradiction.
      - left. apply Hhdr. discriminate. }
    destruct Hcase as [[line ->]|[-> Hrep]].
    + assert (written ≠ []) as Hwr by (apply Hhdr; eexists; reflexivity).
      pose proof (handleGamma_applied d (gammaFlag f)) as [Hg _].
      pose proof (handleGamma_range d (gammaFlag f)) as Hrange.
      destruct (Z.eqb_spec (gammaFlag f) (-1)) as [Hm|Hm]; cbn [negb].
      * destruct (String.eqb_spec (nightFlag f) "") as [Hn|Hn]; cbn [negb].
        -- cbn [ended hdrWritten gammaApplied registryLeft].
           split; [intros H; destruct (Hno H)|].
           split; [intros [H|[H|[rep' H]]]; discriminate H|].
           split; [intros err H; discriminate H|].
           split; [reflexivity|].
           intros _. split; [left; exact Hh|]. split; [intros _; exact Hwr | intros H; contradiction].
        -- destruct (handleNight (nightFlag f) r) as [r' rep].
           cbn [ended hdrWritten gammaApplied registryLeft].
           split; [intros H; destruct (Hno H)|].
           split; [intros [H|[H|[rep' H]]]; destruct rep; discriminate H|].
           split; [intros err H; destruct rep; discriminate H|].
           split; [reflexivity|].
           intros _. split; [left; exact Hh|]. split; [intros _; exact Hwr | intros H; contradiction].
      * destruct (handleGamma d (gammaFlag f)) as [applied [err|]]; cbn [fst snd] in *.
        -- cbn [ended hdrWritten gammaApplied registryLeft].
           assert (applied = []) as ->.
           { destruct applied; [reflexivity|]. exfalso.
             assert (Some err = None) as Hc by (apply Hg; discriminate). discriminate Hc. }
           split; [intros H; destruct (Hno H)|].
           split; [intros [H|[H|[rep' H]]]; discriminate H|].
           split; [intros err' _; repeat split; assumption|].
           split; [intros H; contradiction|]. intros H; discriminate H.
        -- assert (applied ≠ []) as Happ by (apply Hg; reflexivity).
           destruct (String.eqb_spec (nightFlag f) "") as [Hn|Hn]; cbn [negb].
           ++ cbn [ended hdrWritten gammaApplied registryLeft].
              split; [intros H; destruct (Hno H)|].
              split; [intros [H|[H|[rep' H]]]; discriminate H|].
              split; [intros err H; discriminate H|].
              split; [intros H; contradiction|].
              intros _. split; [left; exact Hh|].
              split; [intros _; exact Hwr|].
              intros _. split; [apply Hrange; reflexivity | exact Happ].
           ++ destruct (handleNight (nightFlag f) r) as [r' rep].
              cbn [ended hdrWritten gammaApplied registryLeft].
              split; [intros H; destruct (Hno H)|].
              split; [intros [H|[H|[rep' H]]]; destruct rep; discriminate H|].
              split; [intros err H; destruct rep; discriminate H|].
              split; [intros H; contradiction|].
              intros _. split; [left; exact Hh|].
              split; [intros _; exact Hwr|].
              intros _. split; [apply Hrange; reflexivity | exact Happ].
    + assert (∀ A (x y : A),
                match rep with HdrPrinted _ => x | _ => y end = y) as Hm.
      { intros A x y. destruct rep; try reflexivity. destruct (Hrep line eq_refl). }
      rewrite Hm. cbn [ended hdrWritten gammaApplied registryLeft].
      split; [intros H; destruct (Hno H)|].
      split; [intros _; repeat split; reflexivity|].
      split; [intros err H; discriminate H|].
      split; [reflexivity|]. intros H; discriminate H.
Qed.

Lemma main_stops_at_first_error_witness :
  ended (main (λ _, []) parseSample sampleFlags 7 sampleConfig sampleDesktop emptyRegistry)
  = ExitGamma ErrGammaPercentage
  ∧ gammaApplied (main (λ _, []) parseSample sampleFlags 7 sampleConfig sampleDesktop emptyRegistry) = []
  ∧ registryLeft (main (λ _, []) parseSample sampleFlags 7 sampleConfig sampleDesktop emptyRegistry)
    = emptyRegistry
  ∧ hdrWritten (main (λ _, []) parseSample sampleFlags 7 sampleConfig sampleDesktop emptyRegistry)
    = [(102, 1)%Z].
Proof.
  assert (ended (main (λ _, []) parseSample sampleFlags 7 sampleConfig sampleDesktop emptyRegistry)
          = ExitGamma ErrGammaPercentage) as H by reflexivity.
  split; [exact H|].
  destruct (main_stops_at_first_error (handleNightLight (λ _, []) parseSample) sampleFlags 7
              sampleConfig sampleDesktop emptyRegistry) as (_ & _ & Hg & _).
  destruct (Hg _ H) as (_ & Ha & Hr & Hw).
  split; [exact Ha|]. split; [exact Hr|].
  destruct Hw as [Hw _]; [discriminate|]. unfold main. rewrite Hw. reflexivity.
Defined.
